(** * SyncChess: the rule engine and the submission handlers

    A shallow embedding of the server side of SyncChess: the board
    utilities (boardUtils), the game logic (isLegalMove, isInCheck,
    isCheckmate, isStalemate, processMoves, ...) and the two socket
    handlers that feed it (submitMove, promotePawn); then the handlers
    around a game (joinGame, updateSettings, disconnect) and the attack
    probe with which the client checks a move before it submits it.

    Conventions.
    - A piece is the string the source uses ("wPa", "bR2", "wK"); a board
      cell is [option string], [None] being JavaScript's [null].
    - [x && ...] on a cell is JavaScript truthiness: [truthy].
    - [piece[i]] is [String.get i piece]; [None] stands for [undefined].
    - A square is its two-character name ("e4"); [squareToCoords] and
      [coordsToSquare] are the source's conversions.  On names outside
      "a1".."h8" the source runs into [NaN] and [TypeError]; the model is
      total there but meaningless, and the statements that depend on the
      names of squares assume [validSquare].

    The file has three parts: the embedding of the source, the predicates
    and concrete rooms the statements use, and the properties. *)

From Stdlib Require Import ZArith List Bool String Ascii Lia.
From Stdlib Require Import Numbers.DecimalString.
Import ListNotations.

Open Scope string_scope.
Open Scope list_scope.
Open Scope Z_scope.

(** ** JavaScript values used by the source *)

Definition Piece := string.
Definition Cell := option Piece.
Definition Board := list (list Cell).

(** [undefined] or a one-character string, as produced by [s[i]]. *)
Definition jsChar := option ascii.

Definition charAt (i : nat) (s : string) : jsChar := String.get i s.

Definition jsCharEq (a b : jsChar) : bool :=
  match a, b with
  | Some x, Some y => Ascii.eqb x y
  | None, None => true
  | _, _ => false
  end.

Definition isChar (a : jsChar) (c : ascii) : bool := jsCharEq a (Some c).

(** Truthiness of [null] / a string: only the non-empty string is truthy. *)
Definition truthyStr (s : string) : bool := negb (String.eqb s "").

Definition truthy (c : option string) : bool :=
  match c with
  | Some s => truthyStr s
  | None => false
  end.

(** [a === b] on values that are [null] or a string. *)
Definition cellEq (a b : option string) : bool :=
  match a, b with
  | Some x, Some y => String.eqb x y
  | None, None => true
  | _, _ => false
  end.

(** [cell[i]] for a cell known to be a string; [null[i]] is not evaluated
    by the source behind its truthiness guards. *)
Definition cellChar (i : nat) (c : Cell) : jsChar :=
  match c with
  | Some s => charAt i s
  | None => None
  end.

(** [s.substring(0, 2)] and [s.substring(2)]. *)
Definition basicPiece (s : string) : string := String.substring 0 2 s.
Definition idSuffix (s : string) : string := String.substring 2 (String.length s) s.

Definition W : ascii := "w"%char.
Definition B : ascii := "b"%char.

(** ** boardUtils *)

Record Coords := mkCoords { rank : Z; file : Z }.

Definition charCode (c : ascii) : Z := Z.of_N (N_of_ascii c).

(** [parseInt] of a one-character string: a digit, or [NaN] ([None]). *)
Definition parseDigit (c : ascii) : option Z :=
  let n := charCode c in
  if (48 <=? n) && (n <=? 57) then Some (n - 48) else None.

(** [squareToCoords]: file = charCodeAt(0) - 97, rank = 8 - parseInt(square[1]).
    [NaN] has no counterpart in [Z]; the off-board value -1 stands for it. *)
Definition squareToCoords (square : string) : Coords :=
  {| rank := match charAt 1 square with
             | Some c => match parseDigit c with
                         | Some d => 8 - d
                         | None => -1
                         end
             | None => -1
             end;
     file := match charAt 0 square with
             | Some c => charCode c - 97
             | None => -1
             end |}.

Definition numberToString (n : Z) : string := NilZero.string_of_int (Z.to_int n).

(** [coordsToSquare]: String.fromCharCode(97 + file) + (8 - rank). *)
Definition coordsToSquare (c : Coords) : string :=
  String (ascii_of_N (Z.to_N (97 + file c))) (numberToString (8 - rank c)).

Definition range8 : list Z := [0; 1; 2; 3; 4; 5; 6; 7].

(** The 64 coordinates in the order of the source's nested loops
    (rank outer, file inner). *)
Definition allCoords : list Coords :=
  flat_map (fun r => map (fun f => mkCoords r f) range8) range8.

Definition allSquares : list string := map coordsToSquare allCoords.

Definition validSquare (s : string) : bool := existsb (String.eqb s) allSquares.

(** [board[r][f]]; outside the 8x8 array the model yields [None]. *)
Definition getCell (board : Board) (r f : Z) : Cell :=
  if (0 <=? r) && (0 <=? f) then
    match nth_error board (Z.to_nat r) with
    | Some row => match nth_error row (Z.to_nat f) with
                  | Some c => c
                  | None => None
                  end
    | None => None
    end
  else None.

Fixpoint updNth {A : Type} (n : nat) (v : A) (l : list A) : list A :=
  match l, n with
  | [], _ => []
  | _ :: t, O => v :: t
  | h :: t, S k => h :: updNth k v t
  end.

(** [board[r][f] = v]; outside the 8x8 array the model leaves the board
    alone. *)
Definition setCell (board : Board) (r f : Z) (v : Cell) : Board :=
  if (0 <=? r) && (0 <=? f) then
    match nth_error board (Z.to_nat r) with
    | Some row => updNth (Z.to_nat r) (updNth (Z.to_nat f) v row) board
    | None => board
    end
  else board.

Definition cellAt (board : Board) (c : Coords) : Cell := getCell board (rank c) (file c).
Definition putAt (board : Board) (c : Coords) (v : Cell) : Board := setCell board (rank c) (file c) v.

(** A position is the JavaScript object square -> piece, kept as the list
    of its entries in insertion order. *)
Definition Position := list (string * string).

Fixpoint pieceAt (pos : Position) (square : string) : option string :=
  match pos with
  | [] => None
  | (k, v) :: rest => if String.eqb k square then Some v else pieceAt rest square
  end.

Definition emptyBoard : Board := repeat (repeat None 8%nat) 8%nat.

(** [positionToBoard]: every entry is written into an 8x8 array of nulls. *)
Definition positionToBoard (position : Position) : Board :=
  fold_left (fun board '(square, piece) => putAt board (squareToCoords square) (Some piece))
            position emptyBoard.

(** [boardToPosition]: the truthy cells, rank by rank.  The 64 names are
    pairwise distinct, so each assignment [position[square] = piece] adds a
    new entry. *)
Definition boardToPosition (board : Board) : Position :=
  flat_map (fun c => match cellAt board c with
                     | Some p => if truthyStr p then [(coordsToSquare c, p)] else []
                     | None => []
                     end) allCoords.

Definition fileLetter (i : Z) : string := String (ascii_of_N (Z.to_N (97 + i))) "".

(** [getStartingPosition]: pawns carry their file letter as identifier, the
    other pieces a number where there are two of a kind. *)
Definition getStartingPosition : Position :=
  flat_map (fun i => [(append (fileLetter i) "2", append "wP" (fileLetter i));
                      (append (fileLetter i) "7", append "bP" (fileLetter i))]) range8
  ++ [("a1", "wR1"); ("h1", "wR2"); ("a8", "bR1"); ("h8", "bR2");
      ("b1", "wN1"); ("g1", "wN2"); ("b8", "bN1"); ("g8", "bN2");
      ("c1", "wB1"); ("f1", "wB2"); ("c8", "bB1"); ("f8", "bB2");
      ("d1", "wQ"); ("e1", "wK"); ("d8", "bQ"); ("e8", "bK")].

(** ** Game state *)

Record PerColor (A : Type) := mkPerColor { white : A; black : A }.
Arguments mkPerColor {A} _ _.
Arguments white {A} _.
Arguments black {A} _.

Inductive ColorName := White | Black.

(** [obj[colorName]] and [obj[colorName] = v]. *)
Definition ofColor {A : Type} (cn : ColorName) (p : PerColor A) : A :=
  match cn with White => white p | Black => black p end.

Definition setColor {A : Type} (cn : ColorName) (v : A) (p : PerColor A) : PerColor A :=
  match cn with
  | White => mkPerColor v (black p)
  | Black => mkPerColor (white p) v
  end.

Record SideRights := mkRights { kingSide : bool; queenSide : bool }.

(** The two fields of the game state that [isLegalMove] reads. *)
Record GameState := mkGameState {
  gs_castlingRights : PerColor SideRights;
  gs_enPassantTarget : option string
}.

(** The state handed to the attack probe:
    [{ castlingRights: { white: {}, black: {} }, enPassantTarget: null }];
    the missing [kingSide] and [queenSide] are [undefined], hence falsy. *)
Definition dummyGameState : GameState :=
  mkGameState (mkPerColor (mkRights false false) (mkRights false false)) None.

(** ** gameLogic: legality *)

Definition loopResult (o : option bool) : bool :=
  match o with Some b => b | None => false end.

(** The path loops of rook, bishop and queen:
    [while (!stop(r, f)) { if (board[r][f]) return false; r += rStep; f += fStep; } return true].
    [None] is an exhausted iteration budget. *)
Fixpoint pathClear (stop : Z -> Z -> bool) (board : Board) (rStep fStep : Z)
                   (fuel : nat) (r f : Z) : option bool :=
  match fuel with
  | O => None
  | S k =>
      if stop r f then Some true
      else if truthy (getCell board r f) then Some false
      else pathClear stop board rStep fStep k (r + rStep) (f + fStep)
  end.

(** [findKing]: the first square, rank by rank, holding that color's king. *)
Definition findKing (board : Board) (color : jsChar) : option string :=
  match find (fun c => let piece := cellAt board c in
                       truthy piece && jsCharEq (cellChar 0 piece) color
                       && isChar (cellChar 1 piece) "K") allCoords with
  | Some c => Some (coordsToSquare c)
  | None => None
  end.

Definition opponentOf (color : jsChar) : ascii := if isChar color W then B else W.

Section Legality.

(** [isSquareUnderAttack] as the castling branch calls it.  The source is
    recursive through this call; the recursion stops at depth one because
    the probe hands [dummyGameState] down (see [isLegalMove_probe_any]). *)
Variable attackProbe : Board -> string -> ascii -> bool.

Definition isInCheck_with (board : Board) (color : jsChar) : bool :=
  match findKing board color with
  | None => false
  | Some kingSquare =>
      if truthyStr kingSquare then attackProbe board kingSquare (opponentOf color)
      else false
  end.

Definition pawnLegal (board : Board) (color : jsChar) (fromCoords toCoords : Coords)
                     (destPiece : Cell) (gameState : GameState) : bool :=
  let rankDiff := rank toCoords - rank fromCoords in
  let fileDiff := file toCoords - file fromCoords in
  let direction := if isChar color W then -1 else 1 in
  let startRank := if isChar color W then 6 else 1 in
  (* forward move: one square, or two from the starting rank over an empty square *)
  let forward :=
    if (fileDiff =? 0) && negb (truthy destPiece) then
      if rankDiff =? direction then true
      else if (rankDiff =? 2 * direction) && (rank fromCoords =? startRank) then
        let midRank := rank fromCoords + direction in
        negb (truthy (getCell board midRank (file fromCoords)))
      else false
    else false in
  if forward then true
  (* diagonal capture *)
  else if (Z.abs fileDiff =? 1) && (rankDiff =? direction) && truthy destPiece then true
  (* en passant: diagonal step onto the empty target square *)
  else if (Z.abs fileDiff =? 1) && (rankDiff =? direction) && negb (truthy destPiece)
          && truthy (gs_enPassantTarget gameState)
  then
    match gs_enPassantTarget gameState with
    | Some target =>
        let enPassantCoords := squareToCoords target in
        (rank toCoords =? rank enPassantCoords) && (file toCoords =? file enPassantCoords)
    | None => false
    end
  else false.

Definition rookLegal (board : Board) (fromCoords toCoords : Coords) : bool :=
  let rankDiff := rank toCoords - rank fromCoords in
  let fileDiff := file toCoords - file fromCoords in
  if negb (rankDiff =? 0) && negb (fileDiff =? 0) then false
  else
    let rStep := Z.sgn rankDiff in
    let fStep := Z.sgn fileDiff in
    loopResult (pathClear (fun r f => (r =? rank toCoords) && (f =? file toCoords))
                          board rStep fStep 8
                          (rank fromCoords + rStep) (file fromCoords + fStep)).

Definition knightLegal (fromCoords toCoords : Coords) : bool :=
  let rankDiff := rank toCoords - rank fromCoords in
  let fileDiff := file toCoords - file fromCoords in
  ((Z.abs rankDiff =? 2) && (Z.abs fileDiff =? 1))
  || ((Z.abs rankDiff =? 1) && (Z.abs fileDiff =? 2)).

(** The bishop's loop condition is [rDiag !== to.rank && fDiag !== to.file]. *)
Definition bishopLegal (board : Board) (fromCoords toCoords : Coords) : bool :=
  let rankDiff := rank toCoords - rank fromCoords in
  let fileDiff := file toCoords - file fromCoords in
  if negb (Z.abs rankDiff =? Z.abs fileDiff) then false
  else
    let rDiagStep := Z.sgn rankDiff in
    let fDiagStep := Z.sgn fileDiff in
    loopResult (pathClear (fun r f => (r =? rank toCoords) || (f =? file toCoords))
                          board rDiagStep fDiagStep 8
                          (rank fromCoords + rDiagStep) (file fromCoords + fDiagStep)).

Definition queenLegal (board : Board) (fromCoords toCoords : Coords) : bool :=
  let rankDiff := rank toCoords - rank fromCoords in
  let fileDiff := file toCoords - file fromCoords in
  let isDiagonal := Z.abs rankDiff =? Z.abs fileDiff in
  let isStraight := (rankDiff =? 0) || (fileDiff =? 0) in
  if negb isDiagonal && negb isStraight then false
  else
    let rQStep := Z.sgn rankDiff in
    let fQStep := Z.sgn fileDiff in
    loopResult (pathClear (fun r f => (r =? rank toCoords) && (f =? file toCoords))
                          board rQStep fQStep 8
                          (rank fromCoords + rQStep) (file fromCoords + fQStep)).

(** The castling branch of the king: rights, not in check, empty squares
    between king and rook, and the square the king passes over (file 5 or
    file 3) not attacked. *)
Definition castlingLegal (board : Board) (color : jsChar) (fromCoords toCoords : Coords)
                         (gameState : GameState) : bool :=
  let fileDiff := file toCoords - file fromCoords in
  let colorName := if isChar color W then White else Black in
  let isKingside := 0 <? fileDiff in
  let rights := ofColor colorName (gs_castlingRights gameState) in
  if isKingside && negb (kingSide rights) then false
  else if negb isKingside && negb (queenSide rights) then false
  else if isInCheck_with board color then false
  else if isKingside then
    if truthy (getCell board (rank fromCoords) 5) || truthy (getCell board (rank fromCoords) 6)
    then false
    else
      let midSquare := coordsToSquare (mkCoords (rank fromCoords) 5) in
      if attackProbe board midSquare (opponentOf color) then false else true
  else
    if truthy (getCell board (rank fromCoords) 1) || truthy (getCell board (rank fromCoords) 2)
       || truthy (getCell board (rank fromCoords) 3)
    then false
    else
      let midSquare := coordsToSquare (mkCoords (rank fromCoords) 3) in
      if attackProbe board midSquare (opponentOf color) then false else true.

Definition kingLegal (board : Board) (color : jsChar) (fromCoords toCoords : Coords)
                     (gameState : GameState) : bool :=
  let rankDiff := rank toCoords - rank fromCoords in
  let fileDiff := file toCoords - file fromCoords in
  if (Z.abs rankDiff <=? 1) && (Z.abs fileDiff <=? 1) then true
  else if (rankDiff =? 0) && (Z.abs fileDiff =? 2)
  then castlingLegal board color fromCoords toCoords gameState
  else false.

(** [isLegalMove(board, from, to, piece, gameState)]; [piece] is the
    two-character color and type. *)
Definition isLegalMove_with (board : Board) (from to : string) (piece : string)
                            (gameState : GameState) : bool :=
  let color := charAt 0 piece in
  let type := charAt 1 piece in
  let fromCoords := squareToCoords from in
  let toCoords := squareToCoords to in
  let destPiece := cellAt board toCoords in
  if truthy destPiece && jsCharEq (cellChar 0 destPiece) color then false
  else
    if isChar type "P" then pawnLegal board color fromCoords toCoords destPiece gameState
    else if isChar type "R" then rookLegal board fromCoords toCoords
    else if isChar type "N" then knightLegal fromCoords toCoords
    else if isChar type "B" then bishopLegal board fromCoords toCoords
    else if isChar type "Q" then queenLegal board fromCoords toCoords
    else if isChar type "K" then kingLegal board color fromCoords toCoords gameState
    else false.

End Legality.

(** [isSquareUnderAttack]: some piece of [attackerColor] has a legal move to
    [square] under [dummyGameState].  With that state the castling branch
    answers before it consults the probe, so any probe may close the knot. *)
Definition isSquareUnderAttack (board : Board) (square : string) (attackerColor : ascii) : bool :=
  existsb (fun c =>
             let piece := cellAt board c in
             truthy piece && isChar (cellChar 0 piece) attackerColor
             && match piece with
                | Some p =>
                    isLegalMove_with (fun _ _ _ => false) board (coordsToSquare c) square
                                     (basicPiece p) dummyGameState
                | None => false
                end) allCoords.

Definition isInCheck : Board -> jsChar -> bool := isInCheck_with isSquareUnderAttack.

Definition isLegalMove : Board -> string -> string -> string -> GameState -> bool :=
  isLegalMove_with isSquareUnderAttack.

(** ** gameLogic: castling execution, checkmate and stalemate *)

Record Move := mkMove {
  from : string;
  to : string;
  promotion : option string;
  promotedPieceId : option string
}.

(** A move as the client submits it: [{ from, to }]. *)
Definition plainMove (f t : string) : Move := mkMove f t None None.

(** [handleCastling]: the king goes to its destination as [color + 'K'],
    the rook of that side from file 7 to file 5 or from file 0 to file 3. *)
Definition handleCastling (board : Board) (color : ascii) (move : Move) : Board :=
  let fromCoords := squareToCoords (from move) in
  let toCoords := squareToCoords (to move) in
  let isKingside := file fromCoords <? file toCoords in
  let board1 := putAt board fromCoords None in
  let board2 := putAt board1 toCoords (Some (String color "K")) in
  let rookFile := if isKingside then 7 else 0 in
  let newRookFile := if isKingside then 5 else 3 in
  let rookPiece := getCell board2 (rank fromCoords) rookFile in
  let board3 := setCell board2 (rank fromCoords) rookFile None in
  setCell board3 (rank fromCoords) newRookFile rookPiece.

(** [tempBoard[rank][file] = null; tempBoard[r][f] = piece] on a copy. *)
Definition tempMove (board : Board) (fromC toC : Coords) (piece : Cell) : Board :=
  putAt (putAt board fromC None) toC piece.

(** One iteration of the search in [isCheckmate]: a legal move from
    [fromC] to [toC] after which the color is no longer in check. *)
Definition escapesCheck (board : Board) (color : ascii) (gameState : GameState)
                        (fromC toC : Coords) : bool :=
  let piece := cellAt board fromC in
  truthy piece && isChar (cellChar 0 piece) color
  && match piece with
     | Some p =>
         isLegalMove board (coordsToSquare fromC) (coordsToSquare toC) (basicPiece p) gameState
         && negb (isInCheck (tempMove board fromC toC piece) (Some color))
     | None => false
     end.

(** [isCheckmate]: in check, and no move of any piece of that color ends
    out of check. *)
Definition isCheckmate (board : Board) (color : ascii) (gameState : GameState) : bool :=
  if negb (isInCheck board (Some color)) then false
  else
    negb (existsb (fun fromC =>
                     existsb (fun toC => escapesCheck board color gameState fromC toC)
                             allCoords) allCoords).

Definition sameCoords (a b : Coords) : bool := (rank a =? rank b) && (file a =? file b).

(** [isStalemate]: not in check, and no move to another square ends out of
    check. *)
Definition isStalemate (board : Board) (color : ascii) (gameState : GameState) : bool :=
  if isInCheck board (Some color) then false
  else
    negb (existsb (fun fromC =>
                     existsb (fun toC => negb (sameCoords fromC toC)
                                         && escapesCheck board color gameState fromC toC)
                             allCoords) allCoords).

Definition doesKingExist (board : Board) (color : ascii) : bool :=
  match findKing board (Some color) with Some _ => true | None => false end.

(** ** The game of a room *)

Inductive Result := whiteWins | blackWins | draw.

(** Remaining times are only copied by the code modelled here; the tick
    handler that subtracts elapsed seconds is outside it. *)
Record Timers := mkTimers {
  timeControl : Z;
  whiteTime : Z;
  blackTime : Z;
  lastUpdate : Z;
  whiteActive : bool;
  blackActive : bool
}.

Record HistoryMove := mkHistoryMove {
  h_from : string;
  h_to : string;
  h_piece : Cell;
  h_promotion : option string
}.

(** [rooksMoved]: the queen-side rook (a1, a8) and the king-side rook
    (h1, h8) of a color. *)
Record RooksMoved := mkRooksMoved { rookA : bool; rookH : bool }.

Record Game := mkGame {
  position : Position;
  whiteId : option string;
  blackId : option string;
  pendingMoves : PerColor (option Move);
  lastMovedPieces : PerColor Cell;
  lastMoves : PerColor (option Move);
  inCheck : PerColor bool;
  castlingRights : PerColor SideRights;
  enPassantTarget : option string;
  moveHistory : list (PerColor HistoryMove);
  timers : Timers;
  timerRunning : bool;
  gameStarted : bool;
  kingsMoved : PerColor bool;
  rooksMoved : PerColor RooksMoved;
  gameResult : option Result
}.

(** [createGameState(timeControl)]; [now] is [Date.now()].  [gameResult] is
    absent from the object until the first round is resolved. *)
Definition createGameState (timeControl0 now : Z) : Game :=
  {| position := getStartingPosition;
     whiteId := None;
     blackId := None;
     pendingMoves := mkPerColor None None;
     lastMovedPieces := mkPerColor None None;
     lastMoves := mkPerColor None None;
     inCheck := mkPerColor false false;
     castlingRights := mkPerColor (mkRights true true) (mkRights true true);
     enPassantTarget := None;
     moveHistory := [];
     timers := mkTimers timeControl0 timeControl0 timeControl0 now true true;
     timerRunning := false;
     gameStarted := false;
     kingsMoved := mkPerColor false false;
     rooksMoved := mkPerColor (mkRooksMoved false false) (mkRooksMoved false false);
     gameResult := None |}.

(** What [isLegalMove] sees of a game. *)
Definition gameStateOf (game : Game) : GameState :=
  mkGameState (castlingRights game) (enPassantTarget game).

(** ** gameLogic: timers *)

Definition setActive (t : Timers) (w b : bool) : Timers :=
  mkTimers (timeControl t) (whiteTime t) (blackTime t) (lastUpdate t) w b.

Definition setLastUpdate (t : Timers) (now : Z) : Timers :=
  mkTimers (timeControl t) (whiteTime t) (blackTime t) now (whiteActive t) (blackActive t).

Definition isSome {A : Type} (o : option A) : bool :=
  match o with Some _ => true | None => false end.

Definition withTimers (game : Game) (t : Timers) (running : bool) : Game :=
  {| position := position game; whiteId := whiteId game; blackId := blackId game;
     pendingMoves := pendingMoves game; lastMovedPieces := lastMovedPieces game;
     lastMoves := lastMoves game; inCheck := inCheck game;
     castlingRights := castlingRights game; enPassantTarget := enPassantTarget game;
     moveHistory := moveHistory game; timers := t; timerRunning := running;
     gameStarted := gameStarted game; kingsMoved := kingsMoved game;
     rooksMoved := rooksMoved game; gameResult := gameResult game |}.

Definition withPending (game : Game) (p : PerColor (option Move)) : Game :=
  {| position := position game; whiteId := whiteId game; blackId := blackId game;
     pendingMoves := p; lastMovedPieces := lastMovedPieces game;
     lastMoves := lastMoves game; inCheck := inCheck game;
     castlingRights := castlingRights game; enPassantTarget := enPassantTarget game;
     moveHistory := moveHistory game; timers := timers game;
     timerRunning := timerRunning game;
     gameStarted := gameStarted game; kingsMoved := kingsMoved game;
     rooksMoved := rooksMoved game; gameResult := gameResult game |}.

Definition withStarted (game : Game) (s : bool) : Game :=
  {| position := position game; whiteId := whiteId game; blackId := blackId game;
     pendingMoves := pendingMoves game; lastMovedPieces := lastMovedPieces game;
     lastMoves := lastMoves game; inCheck := inCheck game;
     castlingRights := castlingRights game; enPassantTarget := enPassantTarget game;
     moveHistory := moveHistory game; timers := timers game;
     timerRunning := timerRunning game;
     gameStarted := s; kingsMoved := kingsMoved game;
     rooksMoved := rooksMoved game; gameResult := gameResult game |}.

(** [checkTimerStatus]: a color's clock runs while that color has no
    pending move; a finished game stops both. *)
Definition checkTimerStatus (game : Game) : Game :=
  if isSome (gameResult game) then withTimers game (setActive (timers game) false false) false
  else
    let w := isSome (white (pendingMoves game)) in
    let b := isSome (black (pendingMoves game)) in
    if w && b then withTimers game (setActive (timers game) false false) (timerRunning game)
    else if w && negb b then withTimers game (setActive (timers game) false true) (timerRunning game)
    else if negb w && b then withTimers game (setActive (timers game) true false) (timerRunning game)
    else withTimers game (setActive (timers game) true true) (timerRunning game).

(** ** gameLogic: processMoves *)

Definition isNull (c : Cell) : bool := match c with None => true | Some _ => false end.

Definition hasType (piece : Cell) (t : ascii) : bool :=
  truthy piece && isChar (cellChar 1 piece) t.

(** [piece.substring(2)]; the source evaluates it only on a piece. *)
Definition cellSuffix (piece : Cell) : string :=
  match piece with Some p => idSuffix p | None => "" end.

(** [promotedWhitePiece] / [promotedBlackPiece]: the moving piece, or with
    a promotion [move.promotedPieceId || (color + move.promotion + piece.substring(2))]. *)
Definition promotedPiece (color : ascii) (move : Move) (piece : Cell) : Cell :=
  if truthy (promotion move) then
    if truthy (promotedPieceId move) then promotedPieceId move
    else Some (String color (append (match promotion move with Some p => p | None => "" end)
                                    (cellSuffix piece)))
  else piece.

Definition isCastlingMove (piece : Cell) (fromC toC : Coords) : bool :=
  hasType piece "K" && (Z.abs (file fromC - file toC) =? 2).

Definition isDoubleAdvance (piece : Cell) (fromC toC : Coords) : bool :=
  hasType piece "P" && (Z.abs (rank fromC - rank toC) =? 2).

(** The board of the round, in the order of the source: castling, removal
    of a pawn captured en passant, vacated source squares, then either the
    collision (nothing is placed) or the two placements. *)
Definition afterCastling (board : Board) (whiteMove blackMove : Move) : Board :=
  let whitePiecePos := squareToCoords (from whiteMove) in
  let blackPiecePos := squareToCoords (from blackMove) in
  let whitePiece := cellAt board whitePiecePos in
  let blackPiece := cellAt board blackPiecePos in
  let whiteToCoords := squareToCoords (to whiteMove) in
  let blackToCoords := squareToCoords (to blackMove) in
  let b1 := if isCastlingMove whitePiece whitePiecePos whiteToCoords
            then handleCastling board W whiteMove else board in
  if isCastlingMove blackPiece blackPiecePos blackToCoords
  then handleCastling b1 B blackMove else b1.

Definition afterEnPassant (board newBoard : Board) (whiteMove blackMove : Move) : Board :=
  let whitePiecePos := squareToCoords (from whiteMove) in
  let blackPiecePos := squareToCoords (from blackMove) in
  let whitePiece := cellAt board whitePiecePos in
  let blackPiece := cellAt board blackPiecePos in
  let whiteToCoords := squareToCoords (to whiteMove) in
  let blackToCoords := squareToCoords (to blackMove) in
  let b1 := if hasType whitePiece "P" && (Z.abs (file whitePiecePos - file whiteToCoords) =? 1)
               && (rank whiteToCoords =? 2) && isNull (cellAt board whiteToCoords)
            then setCell newBoard (rank whiteToCoords + 1) (file whiteToCoords) None
            else newBoard in
  if hasType blackPiece "P" && (Z.abs (file blackPiecePos - file blackToCoords) =? 1)
     && (rank blackToCoords =? 5) && isNull (cellAt board blackToCoords)
  then setCell b1 (rank blackToCoords - 1) (file blackToCoords) None
  else b1.

Definition afterVacate (board newBoard : Board) (whiteMove blackMove : Move) : Board :=
  let whitePiecePos := squareToCoords (from whiteMove) in
  let blackPiecePos := squareToCoords (from blackMove) in
  let whitePiece := cellAt board whitePiecePos in
  let blackPiece := cellAt board blackPiecePos in
  let b1 := if cellEq (cellAt board whitePiecePos) whitePiece
            then putAt newBoard whitePiecePos None else newBoard in
  if cellEq (cellAt board blackPiecePos) blackPiece
  then putAt b1 blackPiecePos None else b1.

(** One side's placement when the destinations differ: onto the square the
    opponent's moving piece stood on (it swerved away), onto an empty
    square, or onto an opposing piece. *)
Definition placeMove (board newBoard : Board) (toC : Coords) (landing : Cell)
                     (otherPiece : Cell) (otherMove : Move) (otherColor : ascii) : Board :=
  if cellEq (cellAt board toC) otherPiece
     && negb (String.eqb (from otherMove) (to otherMove))
  then putAt newBoard toC landing
  else if isNull (cellAt board toC) || isChar (cellChar 0 (cellAt board toC)) otherColor
  then putAt newBoard toC landing
  else newBoard.

Definition resolveBoard (board : Board) (whiteMove blackMove : Move) : Board :=
  let whitePiece := cellAt board (squareToCoords (from whiteMove)) in
  let blackPiece := cellAt board (squareToCoords (from blackMove)) in
  let whiteToCoords := squareToCoords (to whiteMove) in
  let blackToCoords := squareToCoords (to blackMove) in
  let promotedWhitePiece := promotedPiece W whiteMove whitePiece in
  let promotedBlackPiece := promotedPiece B blackMove blackPiece in
  let b1 := afterCastling board whiteMove blackMove in
  let b2 := afterEnPassant board b1 whiteMove blackMove in
  let b3 := afterVacate board b2 whiteMove blackMove in
  if String.eqb (to whiteMove) (to blackMove) then b3
  else
    let b4 := placeMove board b3 whiteToCoords promotedWhitePiece blackPiece blackMove B in
    placeMove board b4 blackToCoords promotedBlackPiece whitePiece whiteMove W.

(** The result a collision sets: a king that took part loses, two kings
    draw. *)
Definition collisionResult (board : Board) (whiteMove blackMove : Move) : option Result :=
  let whitePiece := cellAt board (squareToCoords (from whiteMove)) in
  let blackPiece := cellAt board (squareToCoords (from blackMove)) in
  if String.eqb (to whiteMove) (to blackMove) then
    let r1 := if hasType whitePiece "K" then Some blackWins else None in
    let r2 := if hasType blackPiece "K" then Some whiteWins else r1 in
    if hasType whitePiece "K" && hasType blackPiece "K" then Some draw else r2
  else None.

(** The en-passant target of the round: reset, then white's double advance,
    then black's, into the one field the game has. *)
Definition newEnPassantTarget (board : Board) (whiteMove blackMove : Move) : option string :=
  let whitePiecePos := squareToCoords (from whiteMove) in
  let blackPiecePos := squareToCoords (from blackMove) in
  let whitePiece := cellAt board whitePiecePos in
  let blackPiece := cellAt board blackPiecePos in
  let e0 : option string := None in
  let e1 := if isDoubleAdvance whitePiece whitePiecePos (squareToCoords (to whiteMove))
            then Some (coordsToSquare (mkCoords (rank whitePiecePos - 1) (file whitePiecePos)))
            else e0 in
  if isDoubleAdvance blackPiece blackPiecePos (squareToCoords (to blackMove))
  then Some (coordsToSquare (mkCoords (rank blackPiecePos + 1) (file blackPiecePos)))
  else e1.

Definition revokeKing (r : SideRights) : SideRights := mkRights false false.
Definition revokeKingSide (r : SideRights) : SideRights := mkRights false (queenSide r).
Definition revokeQueenSide (r : SideRights) : SideRights := mkRights (kingSide r) false.

Definition newKingsMoved (board : Board) (whiteMove blackMove : Move) (km : PerColor bool)
  : PerColor bool :=
  let whitePiece := cellAt board (squareToCoords (from whiteMove)) in
  let blackPiece := cellAt board (squareToCoords (from blackMove)) in
  mkPerColor (if hasType whitePiece "K" then true else white km)
             (if hasType blackPiece "K" then true else black km).

Definition rookMovedFrom (piece : Cell) (move : Move) (a h : string) (rm : RooksMoved)
  : RooksMoved :=
  if hasType piece "R" then
    if String.eqb (from move) a then mkRooksMoved true (rookH rm)
    else if String.eqb (from move) h then mkRooksMoved (rookA rm) true
    else rm
  else rm.

Definition newRooksMoved (board : Board) (whiteMove blackMove : Move) (rm : PerColor RooksMoved)
  : PerColor RooksMoved :=
  let whitePiece := cellAt board (squareToCoords (from whiteMove)) in
  let blackPiece := cellAt board (squareToCoords (from blackMove)) in
  mkPerColor (rookMovedFrom whitePiece whiteMove "a1" "h1" (white rm))
             (rookMovedFrom blackPiece blackMove "a8" "h8" (black rm)).

(** Rights after the round: a king's move revokes both sides, a rook's move
    from its home square that side, and a move onto a8/h8 (a1/h1) holding a
    rook the opponent's side. *)
Definition ownRights (piece : Cell) (move : Move) (a h : string) (r : SideRights) : SideRights :=
  let r1 := if hasType piece "K" then revokeKing r else r in
  if hasType piece "R" then
    if String.eqb (from move) a then revokeQueenSide r1
    else if String.eqb (from move) h then revokeKingSide r1
    else r1
  else r1.

Definition capturedRookRights (board : Board) (move : Move) (a h : string) (r : SideRights)
  : SideRights :=
  let dest := cellAt board (squareToCoords (to move)) in
  if truthy dest && isChar (cellChar 1 dest) "R" then
    let r1 := if String.eqb (to move) a then revokeQueenSide r else r in
    if String.eqb (to move) h then revokeKingSide r1 else r1
  else r.

Definition newCastlingRights (board : Board) (whiteMove blackMove : Move)
                             (cr : PerColor SideRights) : PerColor SideRights :=
  let whitePiece := cellAt board (squareToCoords (from whiteMove)) in
  let blackPiece := cellAt board (squareToCoords (from blackMove)) in
  let w1 := ownRights whitePiece whiteMove "a1" "h1" (white cr) in
  let b1 := ownRights blackPiece blackMove "a8" "h8" (black cr) in
  let b2 := capturedRookRights board whiteMove "a8" "h8" b1 in
  let w2 := capturedRookRights board blackMove "a1" "h1" w1 in
  mkPerColor w2 b2.

Definition orElse (r : option Result) (next : option Result) : option Result :=
  match r with Some _ => r | None => next end.

(** [if (!gameResult) { ... missing kings ... }] *)
Definition missingKingResult (newBoard : Board) : option Result :=
  let whiteKingExists := doesKingExist newBoard W in
  let blackKingExists := doesKingExist newBoard B in
  if negb whiteKingExists && negb blackKingExists then Some draw
  else if negb whiteKingExists then Some blackWins
  else if negb blackKingExists then Some whiteWins
  else None.

(** [if (!gameResult) { ... checkmate ... }]: the three branches in the
    order of the source. *)
Definition checkmateResult (newBoard : Board) (inCheckWhite inCheckBlack : bool)
                           (gameState : GameState) : option Result :=
  if inCheckWhite && isCheckmate newBoard W gameState then Some blackWins
  else if inCheckBlack && isCheckmate newBoard B gameState then Some whiteWins
  else if inCheckWhite && inCheckBlack
          && isCheckmate newBoard W gameState && isCheckmate newBoard B gameState
  then Some draw
  else None.

(** [if (!gameResult) { ... stalemate ... }] *)
Definition stalemateResult (newBoard : Board) (inCheckWhite inCheckBlack : bool)
                           (gameState : GameState) : option Result :=
  let whiteStalemated := doesKingExist newBoard W && negb inCheckWhite
                         && isStalemate newBoard W gameState in
  let blackStalemated := doesKingExist newBoard B && negb inCheckBlack
                         && isStalemate newBoard B gameState in
  if whiteStalemated && blackStalemated then Some draw
  else if whiteStalemated then Some draw
  else if blackStalemated then Some draw
  else None.

(** The terminal evaluation of a resolved round. *)
Definition terminalResult (collision : option Result) (newBoard : Board)
                          (gameState : GameState) : option Result :=
  let inCheckWhite := isInCheck newBoard (Some W) in
  let inCheckBlack := isInCheck newBoard (Some B) in
  orElse collision
    (orElse (missingKingResult newBoard)
       (orElse (checkmateResult newBoard inCheckWhite inCheckBlack gameState)
               (stalemateResult newBoard inCheckWhite inCheckBlack gameState))).

Definition historyOf (move : Move) (piece : Cell) : HistoryMove :=
  mkHistoryMove (from move) (to move) piece (promotion move).

(** What [processMoves] returns: [{ position, inCheck, gameResult }]. *)
Record RoundResult := mkRoundResult {
  r_position : Position;
  r_inCheck : PerColor bool;
  r_gameResult : option Result
}.

(** [processMoves] on the two pending moves.  The checkmate and stalemate
    searches see the rights and the en-passant target already updated for
    the round. *)
Definition processRound (game : Game) (whiteMove blackMove : Move) : Game :=
  let board := positionToBoard (position game) in
  let whitePiece := cellAt board (squareToCoords (from whiteMove)) in
  let blackPiece := cellAt board (squareToCoords (from blackMove)) in
  let newBoard := resolveBoard board whiteMove blackMove in
  let target := newEnPassantTarget board whiteMove blackMove in
  let rights := newCastlingRights board whiteMove blackMove (castlingRights game) in
  let result := terminalResult (collisionResult board whiteMove blackMove) newBoard
                               (mkGameState rights target) in
  {| position := boardToPosition newBoard;
     whiteId := whiteId game;
     blackId := blackId game;
     pendingMoves := pendingMoves game;
     lastMovedPieces := mkPerColor (promotedPiece W whiteMove whitePiece)
                                   (promotedPiece B blackMove blackPiece);
     lastMoves := mkPerColor (Some whiteMove) (Some blackMove);
     inCheck := mkPerColor (isInCheck newBoard (Some W)) (isInCheck newBoard (Some B));
     castlingRights := rights;
     enPassantTarget := target;
     moveHistory := moveHistory game
                    ++ [mkPerColor (historyOf whiteMove whitePiece) (historyOf blackMove blackPiece)];
     timers := if isSome result then setActive (timers game) false false else timers game;
     timerRunning := if isSome result then false else timerRunning game;
     gameStarted := gameStarted game;
     kingsMoved := newKingsMoved board whiteMove blackMove (kingsMoved game);
     rooksMoved := newRooksMoved board whiteMove blackMove (rooksMoved game);
     gameResult := result |}.

Definition roundResultOf (game : Game) : RoundResult :=
  mkRoundResult (position game) (inCheck game) (gameResult game).

(** [processMoves(game)]; with a pending move missing the source fails on
    [whiteMove.from], which is [None] here.  Both callers test the two
    pending moves first. *)
Definition processMoves (game : Game) : option (Game * RoundResult) :=
  match white (pendingMoves game), black (pendingMoves game) with
  | Some whiteMove, Some blackMove =>
      let game' := processRound game whiteMove blackMove in
      Some (game', roundResultOf game')
  | _, _ => None
  end.

(** ** server: the submitMove and promotePawn handlers *)

Record GameSnapshot := mkSnapshot {
  s_inCheck : PerColor bool;
  s_lastMovedPieces : PerColor Cell;
  s_lastMoves : PerColor (option Move);
  s_timers : Timers;
  s_castlingRights : PerColor SideRights;
  s_enPassantTarget : option string;
  s_gameStarted : bool;
  s_gameResult : option Result
}.

Inductive Payload :=
| PText (s : string)
| PFlag (b : bool)
| PSquare (square : string)
| PPromotion (square pieceType : string)
| PTimers (t : Timers)
| PPosition (p : Position)
| PState (s : GameSnapshot).

(** [socket.emit] reaches the submitting socket, [io.to(gameId).emit] the
    whole room. *)
Inductive Emission :=
| ToSocket (event : string) (payload : Payload)
| ToRoom (event : string) (payload : Payload).

Definition snapshot (game : Game) (result : option Result) : GameSnapshot :=
  mkSnapshot (inCheck game) (lastMovedPieces game) (lastMoves game) (timers game)
             (castlingRights game) (enPassantTarget game) (gameStarted game) result.

Definition rejected (msg : string) : list Emission := [ToSocket "error" (PText msg)].

(** [socket.id === game.whiteId ? 'white' : socket.id === game.blackId ? 'black' : null] *)
Definition colorNameOf (game : Game) (socketId : string) : option ColorName :=
  if cellEq (Some socketId) (whiteId game) then Some White
  else if cellEq (Some socketId) (blackId game) then Some Black
  else None.

Definition colorChar (cn : ColorName) : ascii :=
  match cn with White => W | Black => B end.

(** The tail shared by both handlers: with both moves pending the round is
    resolved, the pending moves are reset, both clocks are switched on and
    the new board and state go to the room. *)
Definition resolveIfBoth (now : Z) (game : Game) : Game * list Emission :=
  if isSome (white (pendingMoves game)) && isSome (black (pendingMoves game)) then
    match processMoves game with
    | Some (game1, result) =>
        let game2 := withPending game1 (mkPerColor None None) in
        let game3 := withTimers game2 (setLastUpdate (setActive (timers game2) true true) now)
                                (timerRunning game2) in
        (game3, [ToRoom "boardState" (PPosition (position game3));
                 ToRoom "gameState" (PState (snapshot game3 (r_gameResult result)))])
    | None => (game, [])
    end
  else (game, []).

(** The search of the repeat rule: another piece of the color (a string
    different from the moving piece) with a move [isLegalMove] accepts. *)
Definition hasOtherValidMoves (board : Board) (color : ascii) (piece : Cell)
                              (gameState : GameState) : bool :=
  existsb (fun fromC =>
             let checkPiece := cellAt board fromC in
             truthy checkPiece && isChar (cellChar 0 checkPiece) color
             && negb (cellEq checkPiece piece)
             && existsb (fun toC =>
                           match checkPiece with
                           | Some p => isLegalMove board (coordsToSquare fromC)
                                                   (coordsToSquare toC) (basicPiece p) gameState
                           | None => false
                           end) allCoords) allCoords.

(** The repeat rule: moving the piece moved last is refused unless it is
    the king of a color in check, or the search finds no other piece with a
    move. *)
Definition repeatRefused (game : Game) (board : Board) (cn : ColorName) (piece : Cell) : bool :=
  if cellEq piece (ofColor cn (lastMovedPieces game)) then
    let kingExceptionApplies := isChar (cellChar 1 piece) "K" && ofColor cn (inCheck game) in
    let kingExtraMoveApplies := isChar (cellChar 1 piece) "K" && ofColor cn (inCheck game) in
    let other := if negb kingExceptionApplies && negb kingExtraMoveApplies
                 then hasOtherValidMoves board (colorChar cn) piece (gameStateOf game)
                 else false in
    negb (kingExceptionApplies || kingExtraMoveApplies || negb other)
  else false.

Definition isPawnPromotion (cn : ColorName) (piece : Cell) (move : Move) : bool :=
  isChar (cellChar 1 piece) "P"
  && match cn with
     | White => isChar (charAt 1 (to move)) "8"
     | Black => isChar (charAt 1 (to move)) "1"
     end.

(** [socket.on('submitMove')] for a room that exists; [socketId] is the
    sender, [now] is [Date.now()]. *)
Definition submitMove (socketId : string) (now : Z) (game : Game) (move : Move)
  : Game * list Emission :=
  match colorNameOf game socketId with
  | None => (game, rejected "You are not a player in this game")
  | Some colorName =>
      let started := if gameStarted game then [] else [ToRoom "gameStarted" (PFlag true)] in
      let game := withStarted game true in
      let color := colorChar colorName in
      let board := positionToBoard (position game) in
      let fromCoords := squareToCoords (from move) in
      if negb (truthy (cellAt board fromCoords)) then
        (game, started ++ rejected "No piece at starting position")
      else
        let piece := cellAt board fromCoords in
        if negb (truthy piece) || negb (isChar (cellChar 0 piece) color) then
          (game, started ++ rejected "Not your piece")
        else if repeatRefused game board colorName piece then
          (game, started ++ rejected "Cannot move the same piece twice in a row")
        else if negb (isLegalMove board (from move) (to move)
                                  (basicPiece (match piece with Some p => p | None => "" end))
                                  (gameStateOf game)) then
          (game, started ++ rejected "Illegal move")
        else if ofColor colorName (inCheck game)
                && isInCheck (tempMove board fromCoords (squareToCoords (to move)) piece)
                             (Some color) then
          (game, started ++ rejected
             "Your king is in check! You must make a move that resolves the check.")
        else if isPawnPromotion colorName piece move then
          (withPending game (setColor colorName (Some move) (pendingMoves game)),
           started ++ [ToSocket "promotionNeeded" (PSquare (to move))])
        else
          let game1 := withPending game (setColor colorName (Some move) (pendingMoves game)) in
          let game2 := checkTimerStatus game1 in
          let '(game3, out) := resolveIfBoth now game2 in
          (game3, started ++ [ToSocket "moveAccepted" (PFlag true);
                              ToRoom "timerUpdate" (PTimers (timers game2))] ++ out)
  end.

Definition isPromotionType (pieceType : string) : bool :=
  existsb (String.eqb pieceType) ["Q"; "R"; "N"; "B"].

(** [socket.on('promotePawn')] for a room that exists: the choice is
    written into the sender's pending move, then the round is resolved if
    both moves are pending. *)
Definition promotePawn (socketId : string) (now : Z) (game : Game)
                       (square pieceType : string) : Game * list Emission :=
  match colorNameOf game socketId with
  | None => (game, rejected "You are not a player in this game")
  | Some colorName =>
      let color := colorChar colorName in
      if negb (isPromotionType pieceType) then
        (game, rejected "Invalid promotion piece type")
      else
        match ofColor colorName (pendingMoves game) with
        | None => (game, rejected "No pending move requiring promotion")
        | Some pendingMove =>
            if negb (String.eqb (to pendingMove) square) then
              (game, rejected "Square mismatch for promotion")
            else
              let board := positionToBoard (position game) in
              let piece := cellAt board (squareToCoords (from pendingMove)) in
              if negb (truthy piece) || negb (isChar (cellChar 0 piece) color)
                 || negb (isChar (cellChar 1 piece) "P") then
                (game, rejected "No pawn found for promotion")
              else if match colorName with
                      | White => negb (isChar (charAt 1 square) "8")
                      | Black => negb (isChar (charAt 1 square) "1")
                      end then
                (game, rejected "Pawn is not moving to the promotion rank")
              else
                let promotedId := String color (append pieceType (cellSuffix piece)) in
                let chosen := mkMove (from pendingMove) (to pendingMove)
                                     (Some pieceType) (Some promotedId) in
                let game1 := withPending game (setColor colorName (Some chosen)
                                                        (pendingMoves game)) in
                let game2 := checkTimerStatus game1 in
                let '(game3, out) := resolveIfBoth now game2 in
                (game3, [ToRoom "timerUpdate" (PTimers (timers game2));
                         ToSocket "promotionConfirmed" (PPromotion square pieceType)] ++ out)
        end
  end.

(** ** server: the joinGame, updateSettings and disconnect handlers *)

(** An entry of [games]: the game and whether its timer interval is
    installed.  The interval's callback (the clock tick) works on
    fractions of seconds and is not part of the model. *)
Record Room := mkRoom { roomOf : Game; timerInterval : bool }.

(** The [data] of joinGame: a room name, or an object whose [timeControl]
    has gone through [parseInt] ([None] is [NaN]). *)
Inductive JoinData :=
| JoinName
| JoinObject (parsedTimeControl : option Z).

(** [timeControl = 300] for a name, [parseInt(data.timeControl) || 300]
    for an object: [NaN] and [0] are falsy. *)
Definition joinTimeControl (data : JoinData) : Z :=
  match data with
  | JoinName => 300
  | JoinObject (Some t) => if t =? 0 then 300 else t
  | JoinObject None => 300
  end.

Definition colorNameString (cn : ColorName) : string :=
  match cn with White => "white" | Black => "black" end.

(** The state sent to a socket that joins. *)
Record JoinSnapshot := mkJoinSnapshot {
  j_inCheck : PerColor bool;
  j_lastMovedPiece : Cell;
  j_lastMoves : PerColor (option Move);
  j_timers : Timers;
  j_castlingRights : PerColor SideRights;
  j_enPassantTarget : option string;
  j_gameStarted : bool
}.

Inductive LobbyPayload :=
| LText (s : string)
| LFlag (b : bool)
| LPosition (p : Position)
| LState (s : JoinSnapshot)
| LSettings (timeControl0 : Z) (t : Timers).

Inductive LobbyEmission :=
| LToSocket (event : string) (payload : LobbyPayload)
| LToRoom (event : string) (payload : LobbyPayload).

Definition withIds (game : Game) (w b : option string) : Game :=
  {| position := position game; whiteId := w; blackId := b;
     pendingMoves := pendingMoves game; lastMovedPieces := lastMovedPieces game;
     lastMoves := lastMoves game; inCheck := inCheck game;
     castlingRights := castlingRights game; enPassantTarget := enPassantTarget game;
     moveHistory := moveHistory game; timers := timers game;
     timerRunning := timerRunning game;
     gameStarted := gameStarted game; kingsMoved := kingsMoved game;
     rooksMoved := rooksMoved game; gameResult := gameResult game |}.

(** The part of joinGame after a seat has been assigned. *)
Definition seated (now : Z) (cn : ColorName) (room : Room) : Room * list LobbyEmission :=
  let game := roomOf room in
  let hello := [LToSocket "playerColor" (LText (colorNameString cn));
                LToSocket "boardState" (LPosition (position game));
                LToSocket "gameState"
                  (LState (mkJoinSnapshot (inCheck game) (ofColor cn (lastMovedPieces game))
                                          (lastMoves game) (timers game) (castlingRights game)
                                          (enPassantTarget game) (gameStarted game)))] in
  if truthy (whiteId game) && truthy (blackId game) then
    (mkRoom (withTimers game (setActive (setLastUpdate (timers game) now) true true) true) true,
     hello ++ [LToRoom "gameReady" (LFlag true)])
  else (room, hello).

(** [socket.on('joinGame')] on the entry of [games] for the room named in
    [data]; a missing entry is created.  The first free seat is white's. *)
Definition joinGame (socketId : string) (now : Z) (data : JoinData) (entry : option Room)
  : Room * list LobbyEmission :=
  let room := match entry with
              | Some r => r
              | None => mkRoom (createGameState (joinTimeControl data) now) false
              end in
  let game := roomOf room in
  if negb (truthy (whiteId game)) then
    seated now White (mkRoom (withIds game (Some socketId) (blackId game)) (timerInterval room))
  else if negb (truthy (blackId game)) then
    seated now Black (mkRoom (withIds game (whiteId game) (Some socketId)) (timerInterval room))
  else (room, [LToSocket "error" (LText "Room full")]).

(** [socket.on('updateSettings')]; [timeControl] is [settings.timeControl]:
    absent ([None]), or what [parseInt] makes of it ([Some None] is
    [NaN]). *)
Definition updateSettings (entry : option Room) (timeControl0 : option (option Z))
  : option Room * list LobbyEmission :=
  match entry with
  | None => (None, [LToSocket "error" (LText "Game not found")])
  | Some room =>
      let game := roomOf room in
      if gameStarted game then
        (entry, [LToSocket "error" (LText "Cannot change settings after game has started")])
      else
        match timeControl0 with
        | None => (entry, [])
        | Some None => (entry, [LToSocket "error" (LText "Invalid time control value")])
        | Some (Some t) =>
            if (t <? 0) && negb (t =? 0) then
              (entry, [LToSocket "error" (LText "Invalid time control value")])
            else
              let timers1 := mkTimers t t t (lastUpdate (timers game))
                                      (whiteActive (timers game)) (blackActive (timers game)) in
              (Some (mkRoom (withTimers game timers1 (timerRunning game)) (timerInterval room)),
               [LToRoom "settingsUpdated" (LSettings t timers1)])
        end
  end.

(** The body of the loop of [socket.on('disconnect')] for one entry of
    [games]: the seats held by the socket are freed; an entry without
    players is deleted ([None]). *)
Definition disconnect (socketId : string) (room : Room) : option Room * list LobbyEmission :=
  let game := roomOf room in
  let leftWhite := cellEq (whiteId game) (Some socketId) in
  let game1 := if leftWhite then withIds game None (blackId game) else game in
  let out1 := if leftWhite then [LToRoom "playerDisconnected" (LText "white")] else [] in
  let leftBlack := cellEq (blackId game1) (Some socketId) in
  let game2 := if leftBlack then withIds game1 (whiteId game1) None else game1 in
  let out2 := if leftBlack then [LToRoom "playerDisconnected" (LText "black")] else [] in
  if negb (truthy (whiteId game2)) && negb (truthy (blackId game2))
  then (None, out1 ++ out2)
  else (Some (mkRoom game2 (timerInterval room)), out1 ++ out2).

(** ** client: the attack probe behind the move pre-check *)

Module Client.

Definition inBounds (r f : Z) : bool := (0 <=? r) && (r <? 8) && (0 <=? f) && (f <? 8).

(** [piece && piece[0] === attackerColor && piece[1] === t] for one of the
    [types]. *)
Definition attackerOf (attackerColor : ascii) (types : list ascii) (piece : Cell) : bool :=
  truthy piece && isChar (cellChar 0 piece) attackerColor
  && existsb (isChar (cellChar 1 piece)) types.

Definition knightMoves : list (Z * Z) :=
  [(-2, -1); (-2, 1); (-1, -2); (-1, 2); (1, -2); (1, 2); (2, -1); (2, 1)].

Definition kingMoves : list (Z * Z) :=
  [(-1, -1); (-1, 0); (-1, 1); (0, -1); (0, 1); (1, -1); (1, 0); (1, 1)].

Definition rookDirs : list (Z * Z) := [(-1, 0); (1, 0); (0, -1); (0, 1)].

Definition bishopDirs : list (Z * Z) := [(-1, -1); (-1, 1); (1, -1); (1, 1)].

(** The loops over [knightMoves] and [kingMoves]. *)
Definition stepAttack (boardArray : Board) (attackerColor : ascii) (type : ascii)
                      (coords : Coords) (moves : list (Z * Z)) : bool :=
  existsb (fun move =>
             let r := rank coords + fst move in
             let f := file coords + snd move in
             inBounds r f && attackerOf attackerColor [type] (getCell boardArray r f)) moves.

(** One ray: [while (in bounds) { if (piece) { if (attacker) return true;
    break; } r += dir.rank; f += dir.file; }].  An exhausted iteration
    budget counts as no attacker. *)
Fixpoint rayAttack (boardArray : Board) (attackerColor : ascii) (types : list ascii)
                   (dr df : Z) (fuel : nat) (r f : Z) : bool :=
  match fuel with
  | O => false
  | S k =>
      if inBounds r f then
        let piece := getCell boardArray r f in
        if truthy piece then
          isChar (cellChar 0 piece) attackerColor && existsb (isChar (cellChar 1 piece)) types
        else rayAttack boardArray attackerColor types dr df k (r + dr) (f + df)
      else false
  end.

(** The client's [isSquareUnderAttack(boardArray, square, attackerColor)]:
    pawns, knights, kings, then the rays of rook and queen and of bishop
    and queen. *)
Definition isSquareUnderAttack (boardArray : Board) (square : string) (attackerColor : ascii)
  : bool :=
  let coords := squareToCoords square in
  let pawnDir := if Ascii.eqb attackerColor W then -1 else 1 in
  let pawnRank := rank coords - pawnDir in
  let pawnAttack :=
    (0 <=? pawnRank) && (pawnRank <? 8)
    && (((0 <=? file coords - 1)
         && attackerOf attackerColor ["P"%char] (getCell boardArray pawnRank (file coords - 1)))
        || ((file coords + 1 <? 8)
            && attackerOf attackerColor ["P"%char]
                          (getCell boardArray pawnRank (file coords + 1)))) in
  pawnAttack
  || stepAttack boardArray attackerColor "N" coords knightMoves
  || stepAttack boardArray attackerColor "K" coords kingMoves
  || existsb (fun dir => rayAttack boardArray attackerColor ["R"%char; "Q"%char]
                                   (fst dir) (snd dir) 8
                                   (rank coords + fst dir) (file coords + snd dir)) rookDirs
  || existsb (fun dir => rayAttack boardArray attackerColor ["B"%char; "Q"%char]
                                   (fst dir) (snd dir) 8
                                   (rank coords + fst dir) (file coords + snd dir)) bishopDirs.

(** The client's [wouldKingBeInCheck(sourceSquare, targetSquare)] on the
    position its board shows: the move is played on a copy, the king is
    looked up (a moving king is taken to stand on the target) and its
    square is probed. *)
Definition wouldKingBeInCheck (position : Position) (sourceSquare targetSquare : string) : bool :=
  let boardArray := positionToBoard position in
  match pieceAt position sourceSquare with
  | None => false
  | Some piece =>
      if negb (truthyStr piece) then false
      else
        let pieceColor := charAt 0 piece in
        let pieceType := charAt 1 piece in
        let tempBoard := tempMove boardArray (squareToCoords sourceSquare)
                                  (squareToCoords targetSquare) (Some piece) in
        let kingSquare := if isChar pieceType "K" then Some targetSquare
                          else findKing tempBoard pieceColor in
        match kingSquare with
        | None => false
        | Some square =>
            if negb (truthyStr square) then false
            else isSquareUnderAttack tempBoard square (opponentOf pieceColor)
        end
  end.

End Client.

(** * Statements: predicates, requests and concrete rooms *)

(** ** Well-formed squares, boards and positions *)

(** Coordinates of one of the 64 squares. *)
Definition onBoard (c : Coords) : bool :=
  (0 <=? rank c) && (rank c <? 8) && (0 <=? file c) && (file c <? 8).

(** Eight rows of eight cells. *)
Definition shaped (b : Board) : Prop :=
  List.length b = 8%nat /\ Forall (fun row => List.length row = 8%nat) b.

(** Pieces carry their color in the first character. *)
Definition coloured (p : string) : bool := isChar (charAt 0 p) W || isChar (charAt 0 p) B.

Definition wfPosition (pos : Position) : bool := forallb (fun e => coloured (snd e)) pos.

Definition cellOk (c : Cell) : Prop :=
  match c with None => True | Some p => coloured p = true end.

Definition wfBoard (b : Board) : Prop := Forall (Forall cellOk) b.

(** Cells as [boardToPosition] keeps them: [null] or a truthy string. *)
Definition cleanCell (c : Cell) : Prop := c = None \/ truthy c = true.
Definition cleanBoard (b : Board) : Prop := Forall (Forall cleanCell) b.

(** ** Bookkeeping and emissions *)

(** The bookkeeping behind the rights: a right that still stands belongs
    to a king and a rook recorded as unmoved. *)
Definition consistentSide (r : SideRights) (kingMoved : bool) (rm : RooksMoved) : bool :=
  implb (kingSide r) (negb kingMoved && negb (rookH rm))
  && implb (queenSide r) (negb kingMoved && negb (rookA rm)).

Definition rightsConsistent (game : Game) : bool :=
  consistentSide (white (castlingRights game)) (white (kingsMoved game))
                 (white (rooksMoved game))
  && consistentSide (black (castlingRights game)) (black (kingsMoved game))
                    (black (rooksMoved game)).

(** The emissions contain an ["error"] to the submitting socket. *)
Definition isRejection (out : list Emission) : bool :=
  existsb (fun e => match e with
                    | ToSocket event _ => String.eqb event "error"
                    | ToRoom _ _ => false
                    end) out.

(** What [submitMove] tells the room before it validates. *)
Definition startedNotice (game : Game) : list Emission :=
  if gameStarted game then [] else [ToRoom "gameStarted" (PFlag true)].

Definition roundsResolved (game : Game) : nat := List.length (moveHistory game).

(** Exception (b) of the repeat rule as the specification words it: no
    piece of the color other than [piece] has a legal move after which the
    color is out of check. *)
Definition noOtherEscape (board : Board) (color : ascii) (piece : Cell)
                         (gameState : GameState) : bool :=
  negb (existsb (fun fromC =>
                   negb (cellEq (cellAt board fromC) piece)
                   && existsb (fun toC => escapesCheck board color gameState fromC toC)
                              allCoords) allCoords).

(** ** Requests against a room *)

(** The requests a room receives for a game. *)
Inductive Request :=
| SubmitMove (socketId : string) (now : Z) (move : Move)
| PromotePawn (socketId : string) (now : Z) (square pieceType : string).

Definition handle (game : Game) (req : Request) : Game * list Emission :=
  match req with
  | SubmitMove socketId now move => submitMove socketId now game move
  | PromotePawn socketId now square pieceType => promotePawn socketId now game square pieceType
  end.

Definition serve (game : Game) (reqs : list Request) : Game :=
  fold_left (fun g req => fst (handle g req)) reqs game.

(** Moves name squares of the board. *)
Definition wellAddressed (req : Request) : bool :=
  match req with
  | SubmitMove _ _ move => validSquare (from move) && validSquare (to move)
  | PromotePawn _ _ _ _ => true
  end.

(** What a round resolution writes and the repeat and check tests read. *)
Record RoundState := mkRoundState {
  rs_position : Position;
  rs_inCheck : PerColor bool;
  rs_castlingRights : PerColor SideRights;
  rs_enPassantTarget : option string;
  rs_lastMovedPieces : PerColor Cell;
  rs_moveHistory : list (PerColor HistoryMove);
  rs_gameResult : option Result
}.

Definition roundState (game : Game) : RoundState :=
  mkRoundState (position game) (inCheck game) (castlingRights game) (enPassantTarget game)
               (lastMovedPieces game) (moveHistory game) (gameResult game).

(** The part of a game that a request leaves alone while one color has no
    pending move. *)
Definition waitingFor (cn : ColorName) (before after : Game) : Prop :=
  roundState after = roundState before /\ ofColor cn (pendingMoves after) = None.

(** ** Concrete rooms *)

Definition whiteSocket : string := "white-socket".
Definition blackSocket : string := "black-socket".

(** A room with both players seated in the middle of a game: five-minute
    clocks, both running; the moved-flags agree with the rights. *)
Definition roomGame (pos : Position) (pending : PerColor (option Move))
                    (lastMoved : PerColor Cell) (checks : PerColor bool)
                    (rights : PerColor SideRights) (target : option string)
                    (result : option Result) : Game :=
  {| position := pos;
     whiteId := Some whiteSocket;
     blackId := Some blackSocket;
     pendingMoves := pending;
     lastMovedPieces := lastMoved;
     lastMoves := mkPerColor None None;
     inCheck := checks;
     castlingRights := rights;
     enPassantTarget := target;
     moveHistory := [];
     timers := mkTimers 300 300 300 0 true true;
     timerRunning := true;
     gameStarted := true;
     kingsMoved := mkPerColor (negb (kingSide (white rights) || queenSide (white rights)))
                              (negb (kingSide (black rights) || queenSide (black rights)));
     rooksMoved := mkPerColor (mkRooksMoved (negb (queenSide (white rights)))
                                            (negb (kingSide (white rights))))
                              (mkRooksMoved (negb (queenSide (black rights)))
                                            (negb (kingSide (black rights))));
     gameResult := result |}.

Definition nobody {A : Type} : PerColor (option A) := mkPerColor None None.
Definition noChecks : PerColor bool := mkPerColor false false.
Definition noRights : PerColor SideRights := mkPerColor (mkRights false false) (mkRights false false).

(** The game of a room once both sockets have joined: the identifiers are
    set and the clocks are running. *)
Definition joinedGame (timeControl0 now : Z) : Game :=
  let g := createGameState timeControl0 now in
  {| position := position g; whiteId := Some whiteSocket; blackId := Some blackSocket;
     pendingMoves := pendingMoves g; lastMovedPieces := lastMovedPieces g;
     lastMoves := lastMoves g; inCheck := inCheck g; castlingRights := castlingRights g;
     enPassantTarget := enPassantTarget g; moveHistory := moveHistory g;
     timers := timers g; timerRunning := true; gameStarted := gameStarted g;
     kingsMoved := kingsMoved g; rooksMoved := rooksMoved g; gameResult := gameResult g |}.

(** White's a-pawn stands on a7 with a8 free; black has a pawn move. *)
Definition promotionGame : Game :=
  roomGame [("e1", "wK"); ("a7", "wPa"); ("e8", "bK"); ("h7", "bPh")]
           nobody nobody noChecks noRights None None.

(** The state after white has submitted a7-a8 and been asked for the
    promotion piece. *)
Definition awaitingPromotion : Game :=
  fst (submitMove whiteSocket 1 promotionGame (plainMove "a7" "a8")).

(** White's rook goes d5-d8 and black's c5-c1: two back-rank mates at
    once (the pawn on d4 keeps white's rook from returning to d1). *)
Definition doubleMateGame : Game :=
  roomGame [("g1", "wK"); ("f2", "wPf"); ("g2", "wPg"); ("h2", "wPh"); ("d4", "wPd");
            ("d5", "wR1");
            ("g8", "bK"); ("f7", "bPf"); ("g7", "bPg"); ("h7", "bPh"); ("c5", "bR1")]
           nobody nobody noChecks noRights None None.

Definition doubleMateRound : Game :=
  fst (submitMove blackSocket 2
         (fst (submitMove whiteSocket 1 doubleMateGame (plainMove "d5" "d8")))
         (plainMove "c5" "c1")).

(** White's e-pawn on e5 aims at f6, where a black knight stands; the
    knight leaves for g8 in the same round. *)
Definition swerveGame : Game :=
  roomGame [("e1", "wK"); ("e5", "wPe"); ("e8", "bK"); ("f6", "bN2")]
           (mkPerColor (Some (plainMove "e5" "f6")) (Some (plainMove "f6" "g8")))
           nobody noChecks noRights None None.

(** White may castle king-side; a black knight on h3 can jump to g1. *)
Definition castlingCollisionGame : Game :=
  roomGame [("e1", "wK"); ("h1", "wR2"); ("h3", "bN1"); ("e8", "bK")]
           nobody nobody noChecks
           (mkPerColor (mkRights true true) (mkRights false false)) None None.

Definition castlingCollisionRound : Game :=
  fst (submitMove blackSocket 2
         (fst (submitMove whiteSocket 1 castlingCollisionGame (plainMove "e1" "g1")))
         (plainMove "h3" "g1")).

(** White can play e2-e4 next to black's pawn on d4; black can play a7-a5
    next to white's pawn on b5. *)
Definition doubleAdvanceGame : Game :=
  roomGame [("e1", "wK"); ("e2", "wPe"); ("b5", "wPb");
            ("d4", "bPd"); ("a7", "bPa"); ("b7", "bPb"); ("e8", "bK")]
           nobody nobody noChecks noRights None None.

Definition doubleAdvanceRound : Game :=
  fst (submitMove blackSocket 2
         (fst (submitMove whiteSocket 1 doubleAdvanceGame (plainMove "e2" "e4")))
         (plainMove "a7" "a5")).

(** Both advances pending, with a stale target h3 from an earlier round. *)
Definition doubleAdvancePending : Game :=
  roomGame (position doubleAdvanceGame)
           (mkPerColor (Some (plainMove "e2" "e4")) (Some (plainMove "a7" "a5")))
           nobody noChecks noRights (Some "h3") None.

(** White's advance alone: black answers b7-b6.  The stale target stays. *)
Definition loneAdvancePending : Game :=
  roomGame (position doubleAdvanceGame)
           (mkPerColor (Some (plainMove "e2" "e4")) (Some (plainMove "b7" "b6")))
           nobody noChecks noRights (Some "h3") None.

(** No double advance at all: the kings step aside, e1-d1 and e8-d8. *)
Definition noAdvancePending : Game :=
  roomGame (position doubleAdvanceGame)
           (mkPerColor (Some (plainMove "e1" "d1")) (Some (plainMove "e8" "d8")))
           nobody noChecks noRights (Some "h3") None.

(** Before the round: white has its king on e1 and a knight on b1; black
    holds the d- and f-files with rooks and has a third rook on a5. *)
Definition pinnedDownGame : Game :=
  roomGame [("e1", "wK"); ("b1", "wN1");
            ("d8", "bR1"); ("f8", "bR2"); ("a5", "bRa"); ("h8", "bK")]
           nobody nobody noChecks noRights None None.

(** The round b1-c3 / a5-e5: the rook now checks along the e-file and the
    knight, the piece white moved last, is the only piece that can help
    (c3-e2 or c3-e4). *)
Definition pinnedDownRound : Game :=
  fst (submitMove blackSocket 2
         (fst (submitMove whiteSocket 1 pinnedDownGame (plainMove "b1" "c3")))
         (plainMove "a5" "e5")).

(** White may castle king-side; a black rook on the open g-file looks at
    g1, nothing looks at e1 or f1. *)
Definition castleIntoAttackGame : Game :=
  roomGame [("e1", "wK"); ("h1", "wR2"); ("g8", "bR1"); ("e8", "bK")]
           nobody nobody noChecks
           (mkPerColor (mkRights true true) (mkRights false false)) None None.

Definition castleIntoAttackBoard : Board := positionToBoard (position castleIntoAttackGame).

(** White may castle king-side; a black pawn on g2 stands diagonally next
    to f1, the square the king passes over. *)
Definition castleAcrossPawnGame : Game :=
  roomGame [("e1", "wK"); ("h1", "wR2"); ("g2", "bPg"); ("e8", "bK")]
           nobody nobody noChecks
           (mkPerColor (mkRights true true) (mkRights false false)) None None.

Definition castleAcrossPawnBoard : Board := positionToBoard (position castleAcrossPawnGame).

(** White's queen goes c1-c7 while black's pawn steps h4-h3: black is
    stalemated (king a8, pawn blocked on h3). *)
Definition stalemateGame : Game :=
  roomGame [("e1", "wK"); ("c1", "wQ"); ("h2", "wPh"); ("a8", "bK"); ("h4", "bPh")]
           nobody nobody noChecks noRights None None.

Definition stalemateRound : Game :=
  fst (submitMove blackSocket 2
         (fst (submitMove whiteSocket 1 stalemateGame (plainMove "c1" "c7")))
         (plainMove "h4" "h3")).

(** The players go on: e1-e2 and a8-b8. *)
Definition afterDraw : Game :=
  fst (submitMove blackSocket 4
         (fst (submitMove whiteSocket 3 stalemateRound (plainMove "e1" "e2")))
         (plainMove "a8" "b8")).

(** Black's rook reaches e1 while white pushes its a-pawn: a back-rank
    mate. *)
Definition backRankGame : Game :=
  roomGame [("g1", "wK"); ("f2", "wPf"); ("g2", "wPg"); ("h2", "wPh"); ("a2", "wPa");
            ("e8", "bR1"); ("g8", "bK")]
           nobody nobody noChecks noRights None None.

(** Both moves of the mating round pending. *)
Definition backRankPending : Game :=
  roomGame (position backRankGame)
           (mkPerColor (Some (plainMove "a2" "a3")) (Some (plainMove "e8" "e1")))
           nobody noChecks noRights None None.

(** What the players try after the mate. *)
Definition afterMateRequests : list Request :=
  [SubmitMove whiteSocket 3 (plainMove "g1" "h1");
   SubmitMove blackSocket 4 (plainMove "g8" "h8");
   SubmitMove whiteSocket 5 (plainMove "a3" "a4");
   PromotePawn whiteSocket 6 "a8" "Q";
   SubmitMove whiteSocket 7 (plainMove "f2" "f3")].

(** White's rook on e2 shields the king on e1 from the rook on e8. *)
Definition shieldGame : Game :=
  roomGame [("e1", "wK"); ("e2", "wR1"); ("e8", "bR1"); ("h8", "bK")]
           nobody nobody noChecks noRights None None.

(** The same position with black's h8-g8 already pending. *)
Definition shieldAnswered : Game :=
  roomGame (position shieldGame)
           (mkPerColor None (Some (plainMove "h8" "g8")))
           nobody noChecks noRights None None.

(** ** Proper positions, kings and paths *)

(** No key occurs twice. *)
Fixpoint distinctKeys (keys : list string) : bool :=
  match keys with
  | [] => true
  | k :: rest => negb (existsb (String.eqb k) rest) && distinctKeys rest
  end.

(** A position as the code builds it: one entry per key, keys that name
    squares, truthy pieces. *)
Definition properPosition (pos : Position) : bool :=
  distinctKeys (map fst pos)
  && forallb (fun e => validSquare (fst e) && truthyStr (snd e)) pos.

(** The cell holds the king of [color]. *)
Definition isKingOf (color : jsChar) (cell : Cell) : bool :=
  truthy cell && jsCharEq (cellChar 0 cell) color && isChar (cellChar 1 cell) "K".

(** The squares strictly between two squares of a rank, a file or a
    diagonal, walking from the first towards the second. *)
Definition squaresBetween (fromC toC : Coords) : list Coords :=
  let rankDiff := rank toC - rank fromC in
  let fileDiff := file toC - file fromC in
  let steps := Z.to_nat (Z.max (Z.abs rankDiff) (Z.abs fileDiff)) in
  map (fun k => mkCoords (rank fromC + (Z.of_nat k + 1) * Z.sgn rankDiff)
                         (file fromC + (Z.of_nat k + 1) * Z.sgn fileDiff))
      (seq 0 (steps - 1)).

(** Every square strictly between the two is empty. *)
Definition pathFree (board : Board) (fromC toC : Coords) : bool :=
  forallb (fun c => negb (truthy (cellAt board c))) (squaresBetween fromC toC).

(** The destination holds a piece of the mover's color. *)
Definition ownPieceAt (board : Board) (toC : Coords) (color : ascii) : bool :=
  truthy (cellAt board toC) && jsCharEq (cellChar 0 (cellAt board toC)) (Some color).

(** ** Rounds, pending moves, clocks and seats *)

(** The squares a round may write: the sources and destinations, the
    squares behind the destinations (en-passant removal), and on the ranks
    of the sources the rook files of castling. *)
Definition roundFootprint (whiteMove blackMove : Move) : list Coords :=
  let whiteFrom := squareToCoords (from whiteMove) in
  let whiteTo := squareToCoords (to whiteMove) in
  let blackFrom := squareToCoords (from blackMove) in
  let blackTo := squareToCoords (to blackMove) in
  [whiteFrom; whiteTo; blackFrom; blackTo;
   mkCoords (rank whiteTo + 1) (file whiteTo); mkCoords (rank blackTo - 1) (file blackTo)]
  ++ map (mkCoords (rank whiteFrom)) [0; 3; 5; 7]
  ++ map (mkCoords (rank blackFrom)) [0; 3; 5; 7].

(** The bookkeeping of rounds: what [processMoves] writes apart from the
    clocks. *)
Record RoundBook := mkRoundBook {
  rb_state : RoundState;
  rb_lastMoves : PerColor (option Move);
  rb_kingsMoved : PerColor bool;
  rb_rooksMoved : PerColor RooksMoved
}.

Definition roundBook (game : Game) : RoundBook :=
  mkRoundBook (roundState game) (lastMoves game) (kingsMoved game) (rooksMoved game).

(** Every right of [r] stands in [r0] as well. *)
Definition standsIn (r r0 : SideRights) : bool :=
  implb (kingSide r) (kingSide r0) && implb (queenSide r) (queenSide r0).

(** The emissions contain a ["boardState"] to the room. *)
Definition announcesBoard (out : list Emission) : bool :=
  existsb (fun e => match e with
                    | ToRoom event _ => String.eqb event "boardState"
                    | ToSocket _ _ => false
                    end) out.

(** The stored check flags are those of the stored position. *)
Definition flagsFollowPosition (game : Game) : Prop :=
  inCheck game = mkPerColor (isInCheck (positionToBoard (position game)) (Some W))
                            (isInCheck (positionToBoard (position game)) (Some B)).

(** What [submitMove] has validated when it stores a move: the source
    holds a piece of the sender's color and [isLegalMove] accepts the
    move on the stored position. *)
Definition legalFor (game : Game) (cn : ColorName) (move : Move) : bool :=
  let board := positionToBoard (position game) in
  let piece := cellAt board (squareToCoords (from move)) in
  truthy piece && isChar (cellChar 0 piece) (colorChar cn)
  && isLegalMove board (from move) (to move)
                 (basicPiece (match piece with Some p => p | None => "" end))
                 (gameStateOf game).

(** Each pending move is a validated one. *)
Definition pendingLegal (game : Game) : bool :=
  match white (pendingMoves game) with Some m => legalFor game White m | None => true end
  && match black (pendingMoves game) with Some m => legalFor game Black m | None => true end.

(** Where a pending move comes from: it has just been validated, or it
    replaces a pending move between the same squares. *)
Definition moveOrigin (game : Game) (cn : ColorName) (move : Move) : Prop :=
  legalFor game cn move = true
  \/ exists pendingMove, ofColor cn (pendingMoves game) = Some pendingMove
                         /\ from move = from pendingMove /\ to move = to pendingMove.

(** [timers.whiteActive] / [timers.blackActive] by color. *)
Definition activeOf (cn : ColorName) (t : Timers) : bool :=
  match cn with White => whiteActive t | Black => blackActive t end.

(** The opponent of a color. *)
Definition otherColor (cn : ColorName) : ColorName :=
  match cn with White => Black | Black => White end.

(** A knight on d4 and a bishop on c8 both aim at f5. *)
Definition collisionPending : Game :=
  roomGame [("e1", "wK"); ("d4", "wN1"); ("e8", "bK"); ("c8", "bB1")]
           (mkPerColor (Some (plainMove "d4" "f5")) (Some (plainMove "c8" "f5")))
           nobody noChecks noRights None None.

(** [game.whiteId] / [game.blackId] by color. *)
Definition idOf (cn : ColorName) (game : Game) : option string :=
  match cn with White => whiteId game | Black => blackId game end.

(** ** The geometry of attacks *)

(** How a piece of color [a] and type [t] on [fromC] attacks an occupied
    square [toC]: the geometry of its move and, for the sliding pieces, a
    free path. *)
Definition attackShape (board : Board) (a : ascii) (t : jsChar) (fromC toC : Coords) : bool :=
  let rankDiff := rank toC - rank fromC in
  let fileDiff := file toC - file fromC in
  let straight := (rankDiff =? 0) || (fileDiff =? 0) in
  let diagonal := Z.abs rankDiff =? Z.abs fileDiff in
  if isChar t "P" then
    (Z.abs fileDiff =? 1) && (rankDiff =? (if Ascii.eqb a W then -1 else 1))
  else if isChar t "R" then straight && pathFree board fromC toC
  else if isChar t "N" then knightLegal fromC toC
  else if isChar t "B" then diagonal && pathFree board fromC toC
  else if isChar t "Q" then (diagonal || straight) && pathFree board fromC toC
  else if isChar t "K" then (Z.abs rankDiff <=? 1) && (Z.abs fileDiff <=? 1)
  else false.

(** The piece on [fromC], if it is the attacker's, attacks the occupied
    square [toC]. *)
Definition attackedFrom (board : Board) (a : ascii) (toC fromC : Coords) : bool :=
  match cellAt board fromC with
  | Some p => truthyStr p && isChar (charAt 0 p) a && attackShape board a (charAt 1 p) fromC toC
  | None => false
  end.




(** * Properties *)

(** ** Squares and coordinates *)

Lemma validSquare_cases (s : string) :
  validSquare s = true -> In s allSquares.
Proof.
  unfold validSquare. rewrite existsb_exists.
  intros [x [Hin Heq]]. apply String.eqb_eq in Heq. now subst.
Qed.

Lemma onBoard_cases (c : Coords) : onBoard c = true -> In c allCoords.
Proof.
  destruct c as [r f]. unfold onBoard. cbn [rank file]. intros H.
  repeat rewrite andb_true_iff in H. destruct H as [[[H1 H2] H3] H4].
  apply Z.leb_le in H1, H3. apply Z.ltb_lt in H2, H4.
  assert (Hr : r = 0 \/ r = 1 \/ r = 2 \/ r = 3 \/ r = 4 \/ r = 5 \/ r = 6 \/ r = 7) by lia.
  assert (Hf : f = 0 \/ f = 1 \/ f = 2 \/ f = 3 \/ f = 4 \/ f = 5 \/ f = 6 \/ f = 7) by lia.
  unfold allCoords. apply in_flat_map. exists r. split.
  - unfold range8. cbn. intuition.
  - apply in_map_iff. exists f. split; [reflexivity|]. unfold range8. cbn. intuition.
Qed.

Lemma allCoords_onBoard (c : Coords) : In c allCoords -> onBoard c = true.
Proof.
  intros H. cbv [allCoords range8 flat_map map app] in H.
  repeat (destruct H as [H | H]; [subst c; reflexivity|]). contradiction.
Qed.

Lemma coords_of_square (c : Coords) :
  onBoard c = true -> squareToCoords (coordsToSquare c) = c.
Proof.
  intros H. apply onBoard_cases in H. cbv [allCoords range8 flat_map map app] in H.
  repeat (destruct H as [H | H]; [subst c; reflexivity|]). contradiction.
Qed.

Lemma square_of_coords (s : string) :
  validSquare s = true -> coordsToSquare (squareToCoords s) = s.
Proof.
  intros H. apply validSquare_cases in H.
  cbv [allSquares allCoords range8 flat_map map app] in H.
  repeat (destruct H as [H | H]; [subst s; reflexivity|]). contradiction.
Qed.

Lemma validSquare_onBoard (s : string) :
  validSquare s = true -> onBoard (squareToCoords s) = true.
Proof.
  intros H. apply validSquare_cases in H.
  cbv [allSquares allCoords range8 flat_map map app] in H.
  repeat (destruct H as [H | H]; [subst s; reflexivity|]). contradiction.
Qed.

Lemma coordsToSquare_valid (c : Coords) :
  onBoard c = true -> validSquare (coordsToSquare c) = true.
Proof.
  intros H. apply onBoard_cases in H. cbv [allCoords range8 flat_map map app] in H.
  repeat (destruct H as [H | H]; [subst c; reflexivity|]). contradiction.
Qed.

Lemma squareToCoords_inj (s t : string) :
  validSquare s = true -> validSquare t = true ->
  squareToCoords s = squareToCoords t -> s = t.
Proof.
  intros Hs Ht H. rewrite <- (square_of_coords s Hs), <- (square_of_coords t Ht).
  now rewrite H.
Qed.

Lemma sameCoords_eq (a b : Coords) : sameCoords a b = true <-> a = b.
Proof.
  destruct a as [r f], b as [r' f']. unfold sameCoords. cbn [rank file].
  rewrite andb_true_iff, !Z.eqb_eq. split.
  - intros [-> ->]. reflexivity.
  - intros H. inversion H. auto.
Qed.

(** ** Boards as 8x8 arrays *)

Lemma updNth_length {A : Type} (n : nat) (v : A) (l : list A) :
  List.length (updNth n v l) = List.length l.
Proof.
  revert n. induction l as [|h t IH]; intros [|n]; cbn; auto.
Qed.

Lemma updNth_same {A : Type} (n : nat) (v : A) (l : list A) :
  (n < List.length l)%nat -> nth_error (updNth n v l) n = Some v.
Proof.
  revert n. induction l as [|h t IH]; intros [|n] H; cbn in *; try lia; auto.
  apply IH. lia.
Qed.

Lemma updNth_other {A : Type} (n m : nat) (v : A) (l : list A) :
  n <> m -> nth_error (updNth n v l) m = nth_error l m.
Proof.
  revert n m. induction l as [|h t IH]; intros [|n] [|m] H; cbn; auto; try contradiction.
Qed.

Lemma updNth_In {A : Type} (n : nat) (v : A) (l : list A) (x : A) :
  In x (updNth n v l) -> x = v \/ In x l.
Proof.
  revert n. induction l as [|h t IH]; intros [|n] H; cbn in *; auto.
  - destruct H; auto.
  - destruct H as [H | H]; auto. apply IH in H. destruct H; auto.
Qed.

Lemma updNth_cleared (n : nat) (row : list Cell) :
  match nth_error (updNth n None row) n with Some c => c | None => None end = None.
Proof.
  revert n. induction row as [|h t IH]; intros [|n]; cbn; auto.
Qed.

Lemma setCell_shaped (b : Board) (r f : Z) (v : Cell) :
  shaped b -> shaped (setCell b r f v).
Proof.
  intros [Hl Hr]. unfold setCell.
  destruct ((0 <=? r) && (0 <=? f)); [|split; assumption].
  destruct (nth_error b (Z.to_nat r)) as [row|] eqn:E; [|split; assumption].
  split.
  - now rewrite updNth_length.
  - rewrite Forall_forall in *. intros x Hx. apply updNth_In in Hx.
    destruct Hx as [-> | Hx]; [|auto].
    rewrite updNth_length. apply Hr. eapply nth_error_In; eauto.
Qed.

Lemma putAt_shaped (b : Board) (c : Coords) (v : Cell) : shaped b -> shaped (putAt b c v).
Proof. apply setCell_shaped. Qed.

Lemma getCell_setCell_same (b : Board) (r f : Z) (v : Cell) :
  shaped b -> onBoard (mkCoords r f) = true -> getCell (setCell b r f v) r f = v.
Proof.
  intros [Hl Hr] H. unfold onBoard in H. cbn [rank file] in H.
  repeat rewrite andb_true_iff in H. destruct H as [[[H1 H2] H3] H4].
  unfold getCell, setCell. rewrite H1, H3. cbn [andb].
  apply Z.leb_le in H1, H3. apply Z.ltb_lt in H2, H4.
  destruct (nth_error b (Z.to_nat r)) as [row|] eqn:E.
  - rewrite updNth_same by lia.
    rewrite updNth_same; [reflexivity|].
    rewrite Forall_forall in Hr. rewrite (Hr row); [lia|]. eapply nth_error_In; eauto.
  - apply nth_error_None in E. lia.
Qed.

Lemma getCell_setCell_other (b : Board) (r f r' f' : Z) (v : Cell) :
  (r, f) <> (r', f') -> getCell (setCell b r f v) r' f' = getCell b r' f'.
Proof.
  intros Hne. unfold getCell, setCell.
  destruct ((0 <=? r') && (0 <=? f')) eqn:E'; [|reflexivity].
  destruct ((0 <=? r) && (0 <=? f)) eqn:E; [|reflexivity].
  apply andb_true_iff in E, E'. destruct E as [E1 E2], E' as [E1' E2'].
  apply Z.leb_le in E1, E2, E1', E2'.
  destruct (nth_error b (Z.to_nat r)) as [row|] eqn:Er; [|reflexivity].
  destruct (Z.eq_dec r r') as [->|Hr].
  - rewrite Er. rewrite updNth_same by (apply nth_error_Some; congruence).
    rewrite updNth_other; [reflexivity|].
    intros Hc. apply Z2Nat.inj in Hc; try lia. congruence.
  - rewrite updNth_other; [reflexivity|].
    intros Hc. apply Z2Nat.inj in Hc; lia.
Qed.

(** Writing [null] never fills a cell. *)
Lemma getCell_cleared (b : Board) (r f r' f' : Z) :
  getCell b r' f' = None -> getCell (setCell b r f None) r' f' = None.
Proof.
  intros H. destruct (Z.eq_dec r r') as [->|Hr].
  - destruct (Z.eq_dec f f') as [->|Hf].
    + unfold getCell, setCell.
      destruct ((0 <=? r') && (0 <=? f')) eqn:E; [|reflexivity].
      destruct (nth_error b (Z.to_nat r')) as [row|] eqn:Er.
      * rewrite updNth_same by (apply nth_error_Some; congruence).
        apply updNth_cleared.
      * now rewrite Er.
    + rewrite getCell_setCell_other; [exact H|congruence].
  - rewrite getCell_setCell_other; [exact H|congruence].
Qed.

Lemma cellAt_putAt_same (b : Board) (c : Coords) (v : Cell) :
  shaped b -> onBoard c = true -> cellAt (putAt b c v) c = v.
Proof.
  destruct c as [r f]. intros Hs Hc. unfold cellAt, putAt. cbn [rank file].
  now apply getCell_setCell_same.
Qed.

Lemma cellAt_putAt_other (b : Board) (c c' : Coords) (v : Cell) :
  c <> c' -> cellAt (putAt b c v) c' = cellAt b c'.
Proof.
  destruct c as [r f], c' as [r' f']. intros Hne. unfold cellAt, putAt. cbn [rank file].
  apply getCell_setCell_other. intros H. inversion H. subst. now apply Hne.
Qed.

Lemma cellAt_off_board (b : Board) (c : Coords) :
  shaped b -> onBoard c = false -> cellAt b c = None.
Proof.
  intros [Hl Hr] Hc. destruct c as [r f]. unfold cellAt, getCell, onBoard in *. cbn [rank file] in *.
  destruct (0 <=? r) eqn:E1; [|reflexivity].
  destruct (0 <=? f) eqn:E2; [|reflexivity]. cbn [andb] in *.
  apply Z.leb_le in E1, E2.
  destruct (nth_error b (Z.to_nat r)) as [row|] eqn:Er; [|reflexivity].
  destruct (nth_error row (Z.to_nat f)) as [x|] eqn:Ef; [|reflexivity].
  exfalso.
  assert (Hrl : (Z.to_nat r < List.length b)%nat) by (apply nth_error_Some; congruence).
  assert (Hfl : (Z.to_nat f < List.length row)%nat) by (apply nth_error_Some; congruence).
  rewrite Forall_forall in Hr. rewrite (Hr row) in Hfl by (eapply nth_error_In; eauto).
  rewrite Hl in Hrl.
  assert ((r <? 8) = true) by (apply Z.ltb_lt; lia).
  assert ((f <? 8) = true) by (apply Z.ltb_lt; lia).
  rewrite H, H0 in Hc. discriminate.
Qed.

Lemma board_ext (b1 b2 : Board) :
  shaped b1 -> shaped b2 ->
  (forall c, onBoard c = true -> cellAt b1 c = cellAt b2 c) -> b1 = b2.
Proof.
  intros [Hl1 Hr1] [Hl2 Hr2] H.
  apply nth_error_ext. intros i.
  destruct (Nat.lt_ge_cases i 8) as [Hi|Hi].
  2:{ rewrite (proj2 (nth_error_None b1 i)) by lia. now rewrite (proj2 (nth_error_None b2 i)) by lia. }
  destruct (nth_error b1 i) as [r1|] eqn:E1; [|apply nth_error_None in E1; lia].
  destruct (nth_error b2 i) as [r2|] eqn:E2; [|apply nth_error_None in E2; lia].
  f_equal. rewrite Forall_forall in Hr1, Hr2.
  assert (L1 : List.length r1 = 8%nat) by (apply Hr1; eapply nth_error_In; eauto).
  assert (L2 : List.length r2 = 8%nat) by (apply Hr2; eapply nth_error_In; eauto).
  apply nth_error_ext. intros j.
  destruct (Nat.lt_ge_cases j 8) as [Hj|Hj].
  2:{ rewrite (proj2 (nth_error_None r1 j)) by lia. now rewrite (proj2 (nth_error_None r2 j)) by lia. }
  specialize (H (mkCoords (Z.of_nat i) (Z.of_nat j))).
  unfold cellAt, getCell, onBoard in H. cbn [rank file] in H.
  rewrite !Nat2Z.id in H. rewrite E1, E2 in H.
  assert (Hc : (0 <=? Z.of_nat i) && (Z.of_nat i <? 8) && (0 <=? Z.of_nat j) && (Z.of_nat j <? 8) = true).
  { repeat (apply andb_true_iff; split); try apply Z.leb_le; try apply Z.ltb_lt; lia. }
  specialize (H Hc).
  assert (Hp : (0 <=? Z.of_nat i) && (0 <=? Z.of_nat j) = true).
  { apply andb_true_iff; split; apply Z.leb_le; lia. }
  rewrite Hp in H.
  destruct (nth_error r1 j) as [x|] eqn:F1; [|apply nth_error_None in F1; lia].
  destruct (nth_error r2 j) as [y|] eqn:F2; [|apply nth_error_None in F2; lia].
  now subst.
Qed.

Lemma cellEq_refl (c : Cell) : cellEq c c = true.
Proof. destruct c; cbn; [apply String.eqb_refl|reflexivity]. Qed.

Lemma emptyBoard_shaped : shaped emptyBoard.
Proof.
  split; [reflexivity|]. unfold emptyBoard. cbn. repeat constructor.
Qed.

Lemma fold_putAt_shaped (pos : Position) (b : Board) :
  shaped b ->
  shaped (fold_left (fun board '(square, piece) =>
                       putAt board (squareToCoords square) (Some piece)) pos b).
Proof.
  revert b. induction pos as [|[k v] rest IH]; intros b Hb; cbn; auto.
  apply IH. now apply putAt_shaped.
Qed.

Lemma positionToBoard_shaped (pos : Position) : shaped (positionToBoard pos).
Proof. apply fold_putAt_shaped, emptyBoard_shaped. Qed.

(** ** Positions and boards *)

Lemma pieceAt_entries (b : Board) (sq : string) (cs : list Coords) :
  validSquare sq = true ->
  (forall c, In c cs -> onBoard c = true) ->
  pieceAt (flat_map (fun c => match cellAt b c with
                              | Some p => if truthyStr p then [(coordsToSquare c, p)] else []
                              | None => []
                              end) cs) sq
  = if existsb (sameCoords (squareToCoords sq)) cs && truthy (cellAt b (squareToCoords sq))
    then cellAt b (squareToCoords sq) else None.
Proof.
  intros Hv. induction cs as [|c rest IH]; intros Hcs; [reflexivity|].
  cbn [flat_map existsb].
  assert (Hrest : forall c', In c' rest -> onBoard c' = true) by (intros; apply Hcs; now right).
  specialize (IH Hrest).
  assert (Hc : onBoard c = true) by (apply Hcs; now left).
  destruct (sameCoords (squareToCoords sq) c) eqn:Es.
  - apply sameCoords_eq in Es. subst c. cbn [orb andb].
    destruct (cellAt b (squareToCoords sq)) as [p|] eqn:Ep; cbn [truthy].
    + destruct (truthyStr p) eqn:Et.
      * cbn [app pieceAt]. rewrite square_of_coords by assumption.
        now rewrite String.eqb_refl.
      * cbn [app]. rewrite IH. cbn [truthy]. rewrite Et.
        now rewrite andb_false_r.
    + cbn [app]. rewrite IH. cbn [truthy]. now rewrite andb_false_r.
  - cbn [orb].
    assert (Hne : String.eqb (coordsToSquare c) sq = false).
    { apply String.eqb_neq. intros Heq.
      assert (sameCoords (squareToCoords sq) c = true).
      { apply sameCoords_eq. rewrite <- Heq. now apply coords_of_square. }
      congruence. }
    destruct (cellAt b c) as [p|]; [|exact IH].
    destruct (truthyStr p); [|exact IH].
    cbn [app pieceAt]. rewrite Hne. exact IH.
Qed.

(** Reading a square of [boardToPosition board] gives the truthy cell of
    the board. *)
Lemma pieceAt_boardToPosition (b : Board) (sq : string) :
  validSquare sq = true ->
  pieceAt (boardToPosition b) sq
  = if truthy (cellAt b (squareToCoords sq)) then cellAt b (squareToCoords sq) else None.
Proof.
  intros Hv. unfold boardToPosition.
  rewrite pieceAt_entries; auto using allCoords_onBoard.
  assert (H : existsb (sameCoords (squareToCoords sq)) allCoords = true).
  { apply existsb_exists. exists (squareToCoords sq). split.
    - apply onBoard_cases. now apply validSquare_onBoard.
    - now apply sameCoords_eq. }
  now rewrite H.
Qed.

Lemma coloured_truthy (p : string) : coloured p = true -> truthyStr p = true.
Proof. destruct p; [discriminate|reflexivity]. Qed.

Lemma setCell_wf (b : Board) (r f : Z) (v : Cell) :
  wfBoard b -> cellOk v -> wfBoard (setCell b r f v).
Proof.
  intros Hb Hv. unfold setCell.
  destruct ((0 <=? r) && (0 <=? f)); [|assumption].
  destruct (nth_error b (Z.to_nat r)) as [row|] eqn:E; [|assumption].
  unfold wfBoard in *. rewrite Forall_forall in *. intros x Hx.
  apply updNth_In in Hx. destruct Hx as [-> | Hx]; [|auto].
  assert (Hrow : Forall cellOk row) by (apply Hb; eapply nth_error_In; eauto).
  rewrite Forall_forall in *. intros y Hy.
  apply updNth_In in Hy. destruct Hy as [-> | Hy]; auto.
Qed.

Lemma getCell_wf (b : Board) (r f : Z) : wfBoard b -> cellOk (getCell b r f).
Proof.
  intros Hb. unfold getCell.
  destruct ((0 <=? r) && (0 <=? f)); [|exact I].
  destruct (nth_error b (Z.to_nat r)) as [row|] eqn:E; [|exact I].
  destruct (nth_error row (Z.to_nat f)) as [c|] eqn:E'; [|exact I].
  unfold wfBoard in Hb. rewrite Forall_forall in Hb.
  assert (Hrow : Forall cellOk row) by (apply Hb; eapply nth_error_In; eauto).
  rewrite Forall_forall in Hrow. apply Hrow. eapply nth_error_In; eauto.
Qed.

Lemma fold_putAt_wf (pos : Position) (b : Board) :
  wfPosition pos = true -> wfBoard b ->
  wfBoard (fold_left (fun board '(square, piece) =>
                        putAt board (squareToCoords square) (Some piece)) pos b).
Proof.
  revert b. induction pos as [|[k v] rest IH]; intros b Hp Hb; cbn; auto.
  cbn in Hp. apply andb_true_iff in Hp. destruct Hp as [Hv Hrest].
  apply IH; [assumption|]. now apply setCell_wf.
Qed.

Lemma positionToBoard_wf (pos : Position) :
  wfPosition pos = true -> wfBoard (positionToBoard pos).
Proof.
  intros H. apply fold_putAt_wf; [assumption|].
  unfold emptyBoard. cbn. repeat constructor.
Qed.

Lemma setCell_clean (b : Board) (r f : Z) (v : Cell) :
  cleanBoard b -> cleanCell v -> cleanBoard (setCell b r f v).
Proof.
  intros Hb Hv. unfold setCell.
  destruct ((0 <=? r) && (0 <=? f)); [|assumption].
  destruct (nth_error b (Z.to_nat r)) as [row|] eqn:E; [|assumption].
  unfold cleanBoard in *. rewrite Forall_forall in *. intros x Hx.
  apply updNth_In in Hx. destruct Hx as [-> | Hx]; [|auto].
  assert (Hrow : Forall cleanCell row) by (apply Hb; eapply nth_error_In; eauto).
  rewrite Forall_forall in *. intros y Hy.
  apply updNth_In in Hy. destruct Hy as [-> | Hy]; auto.
Qed.

Lemma getCell_clean (b : Board) (r f : Z) : cleanBoard b -> cleanCell (getCell b r f).
Proof.
  intros Hb. unfold getCell.
  destruct ((0 <=? r) && (0 <=? f)); [|now left].
  destruct (nth_error b (Z.to_nat r)) as [row|] eqn:E; [|now left].
  destruct (nth_error row (Z.to_nat f)) as [c|] eqn:E'; [|now left].
  unfold cleanBoard in Hb. rewrite Forall_forall in Hb.
  assert (Hrow : Forall cleanCell row) by (apply Hb; eapply nth_error_In; eauto).
  rewrite Forall_forall in Hrow. apply Hrow. eapply nth_error_In; eauto.
Qed.

Lemma wfBoard_clean (b : Board) : wfBoard b -> cleanBoard b.
Proof.
  unfold wfBoard, cleanBoard. intros H.
  eapply Forall_impl; [|exact H]. intros row Hrow.
  eapply Forall_impl; [|exact Hrow]. intros [p|] Hp; [right|now left].
  now apply coloured_truthy.
Qed.

Lemma cellAt_rebuilt (b acc : Board) (c : Coords) (cs : list Coords) :
  shaped acc ->
  (forall c', In c' cs -> onBoard c' = true) ->
  cellAt (fold_left (fun board '(square, piece) =>
                       putAt board (squareToCoords square) (Some piece))
                    (flat_map (fun c => match cellAt b c with
                                        | Some p => if truthyStr p then [(coordsToSquare c, p)] else []
                                        | None => []
                                        end) cs) acc) c
  = if existsb (sameCoords c) cs && truthy (cellAt b c) then cellAt b c else cellAt acc c.
Proof.
  revert acc. induction cs as [|c0 rest IH]; intros acc Hacc Hcs; [reflexivity|].
  cbn [flat_map existsb]. rewrite fold_left_app.
  assert (Hrest : forall c', In c' rest -> onBoard c' = true) by (intros; apply Hcs; now right).
  assert (Hc0 : onBoard c0 = true) by (apply Hcs; now left).
  destruct (cellAt b c0) as [p|] eqn:Ep.
  - destruct (truthyStr p) eqn:Et.
    + cbn [fold_left]. rewrite coords_of_square by assumption.
      rewrite IH by (auto using putAt_shaped).
      destruct (sameCoords c c0) eqn:Es.
      * apply sameCoords_eq in Es. subst c0. rewrite Ep. cbn [truthy orb andb]. rewrite Et.
        rewrite cellAt_putAt_same by assumption.
        now destruct (existsb (sameCoords c) rest && true).
      * cbn [orb]. rewrite cellAt_putAt_other; [reflexivity|].
        intros ->. rewrite (proj2 (sameCoords_eq c c) eq_refl) in Es. discriminate.
    + cbn [fold_left]. rewrite IH by assumption.
      destruct (sameCoords c c0) eqn:Es; [|reflexivity].
      apply sameCoords_eq in Es. subst c0. rewrite Ep. cbn [truthy]. rewrite Et.
      now rewrite !andb_false_r.
  - cbn [fold_left]. rewrite IH by assumption.
    destruct (sameCoords c c0) eqn:Es; [|reflexivity].
    apply sameCoords_eq in Es. subst c0. rewrite Ep. cbn [truthy].
    now rewrite !andb_false_r.
Qed.

Lemma positionToBoard_boardToPosition (b : Board) :
  shaped b -> cleanBoard b -> positionToBoard (boardToPosition b) = b.
Proof.
  intros Hs Hc. apply board_ext; [apply positionToBoard_shaped|exact Hs|].
  intros c Hon. unfold positionToBoard, boardToPosition.
  rewrite cellAt_rebuilt; [|apply emptyBoard_shaped|apply allCoords_onBoard].
  assert (Hex : existsb (sameCoords c) allCoords = true).
  { apply existsb_exists. exists c. split; [now apply onBoard_cases|now apply sameCoords_eq]. }
  rewrite Hex. cbn [andb].
  destruct (getCell_clean b (rank c) (file c) Hc) as [Hn|Ht]; fold (cellAt b c) in *.
  - rewrite Hn. cbn [truthy]. apply onBoard_cases in Hon.
    cbv [allCoords range8 flat_map map app] in Hon.
    repeat (destruct Hon as [Hon | Hon]; [subst c; reflexivity|]). contradiction.
  - now rewrite Ht.
Qed.

(** ** Legality: the attack probe and the path loops *)

(** Under [dummyGameState] the castling branch answers [false] on its
    rights tests, before it looks at check or attacked squares. *)
Lemma castlingLegal_dummy (probe : Board -> string -> ascii -> bool) (board : Board)
      (color : jsChar) (fromC toC : Coords) :
  castlingLegal probe board color fromC toC dummyGameState = false.
Proof.
  unfold castlingLegal.
  destruct (isChar color W); cbn [ofColor dummyGameState gs_castlingRights white black
                                  kingSide queenSide negb];
    destruct (0 <? file toC - file fromC); reflexivity.
Qed.

(** Hence the legality seen by the attack probe does not depend on how the
    recursion is closed: [isSquareUnderAttack] calls [isLegalMove] itself. *)
Lemma isLegalMove_probe_any (p1 p2 : Board -> string -> ascii -> bool) (board : Board)
      (f t piece : string) :
  isLegalMove_with p1 board f t piece dummyGameState
  = isLegalMove_with p2 board f t piece dummyGameState.
Proof.
  unfold isLegalMove_with, kingLegal. now rewrite !castlingLegal_dummy.
Qed.

Lemma isSquareUnderAttack_unfold (board : Board) (square : string) (attackerColor : ascii) :
  isSquareUnderAttack board square attackerColor
  = existsb (fun c =>
               let piece := cellAt board c in
               truthy piece && isChar (cellChar 0 piece) attackerColor
               && match piece with
                  | Some p => isLegalMove board (coordsToSquare c) square (basicPiece p)
                                          dummyGameState
                  | None => false
                  end) allCoords.
Proof.
  unfold isSquareUnderAttack, isLegalMove.
  induction allCoords as [|c rest IH]; [reflexivity|].
  cbn [existsb]. rewrite IH. f_equal.
  destruct (cellAt board c) as [p|]; [|reflexivity].
  now rewrite (isLegalMove_probe_any _ isSquareUnderAttack).
Qed.

(** The path loops end by their own exit test: from a square of the board
    towards another along a rank, a file or a diagonal, eight iterations
    are never used up. *)
Lemma pathClear_terminates (stop : Z -> Z -> bool) (board : Board) (rStep fStep : Z)
      (n : nat) (fuel : nat) (r f : Z) :
  stop (r + Z.of_nat n * rStep) (f + Z.of_nat n * fStep) = true ->
  (n < fuel)%nat ->
  pathClear stop board rStep fStep fuel r f <> None.
Proof.
  revert fuel r f. induction n as [|n IH]; intros fuel r f Hstop Hfuel.
  - destruct fuel as [|k]; [lia|]. cbn [pathClear].
    replace (r + Z.of_nat 0 * rStep) with r in Hstop by lia.
    replace (f + Z.of_nat 0 * fStep) with f in Hstop by lia.
    rewrite Hstop. discriminate.
  - destruct fuel as [|k]; [lia|]. cbn [pathClear].
    destruct (stop r f); [discriminate|].
    destruct (truthy (getCell board r f)); [discriminate|].
    apply IH; [|lia].
    replace (r + rStep + Z.of_nat n * rStep) with (r + Z.of_nat (S n) * rStep) by lia.
    replace (f + fStep + Z.of_nat n * fStep) with (f + Z.of_nat (S n) * fStep) by lia.
    exact Hstop.
Qed.

Lemma sliding_loops_terminate (board : Board) (fromC toC : Coords) :
  onBoard fromC = true -> onBoard toC = true ->
  let rankDiff := rank toC - rank fromC in
  let fileDiff := file toC - file fromC in
  rankDiff = 0 \/ fileDiff = 0 \/ Z.abs rankDiff = Z.abs fileDiff ->
  pathClear (fun r f => (r =? rank toC) && (f =? file toC)) board
            (Z.sgn rankDiff) (Z.sgn fileDiff) 8
            (rank fromC + Z.sgn rankDiff) (file fromC + Z.sgn fileDiff) <> None
  /\ (Z.abs rankDiff = Z.abs fileDiff ->
      pathClear (fun r f => (r =? rank toC) || (f =? file toC)) board
                (Z.sgn rankDiff) (Z.sgn fileDiff) 8
                (rank fromC + Z.sgn rankDiff) (file fromC + Z.sgn fileDiff) <> None).
Proof.
  intros Hf Ht rankDiff fileDiff Hgeo.
  unfold onBoard in Hf, Ht. repeat rewrite andb_true_iff in Hf, Ht.
  destruct Hf as [[[Hf1 Hf2] Hf3] Hf4], Ht as [[[Ht1 Ht2] Ht3] Ht4].
  apply Z.leb_le in Hf1, Hf3, Ht1, Ht3. apply Z.ltb_lt in Hf2, Hf4, Ht2, Ht4.
  set (m := Z.max (Z.abs rankDiff) (Z.abs fileDiff)).
  set (n := Z.to_nat (m - 1)).
  assert (Hn : (n < 8)%nat) by (unfold n, m, rankDiff, fileDiff; lia).
  assert (Hr : rank fromC + Z.sgn rankDiff + Z.of_nat n * Z.sgn rankDiff = rank toC).
  { unfold n, m. fold rankDiff.
    destruct (Z.sgn_spec rankDiff) as [[H1 H2]|[[H1 H2]|[H1 H2]]];
      destruct (Z.sgn_spec fileDiff) as [[H3 H4]|[[H3 H4]|[H3 H4]]];
      rewrite H2; unfold rankDiff, fileDiff in *; lia. }
  assert (Hfl : file fromC + Z.sgn fileDiff + Z.of_nat n * Z.sgn fileDiff = file toC).
  { unfold n, m. fold fileDiff.
    destruct (Z.sgn_spec rankDiff) as [[H1 H2]|[[H1 H2]|[H1 H2]]];
      destruct (Z.sgn_spec fileDiff) as [[H3 H4]|[[H3 H4]|[H3 H4]]];
      rewrite H4; unfold rankDiff, fileDiff in *; lia. }
  split; [|intros _].
  - apply (pathClear_terminates _ _ _ _ n); [|exact Hn].
    rewrite Hr, Hfl, !Z.eqb_refl. reflexivity.
  - apply (pathClear_terminates _ _ _ _ n); [|exact Hn].
    rewrite Hr, Hfl, !Z.eqb_refl. reflexivity.
Qed.

Lemma charAt0_basicPiece (p : string) : charAt 0 (basicPiece p) = charAt 0 p.
Proof. destruct p; reflexivity. Qed.

(** A legal move never ends on a piece of the mover's color. *)
Lemma legal_destination (probe : Board -> string -> ascii -> bool) (board : Board)
      (f t piece : string) (gs : GameState) :
  isLegalMove_with probe board f t piece gs = true ->
  truthy (cellAt board (squareToCoords t))
  && jsCharEq (cellChar 0 (cellAt board (squareToCoords t))) (charAt 0 piece) = false.
Proof.
  unfold isLegalMove_with.
  destruct (truthy (cellAt board (squareToCoords t))
            && jsCharEq (cellChar 0 (cellAt board (squareToCoords t))) (charAt 0 piece));
    [discriminate|reflexivity].
Qed.

Lemma jsCharEq_true (a b : jsChar) : jsCharEq a b = true -> a = b.
Proof.
  destruct a, b; cbn; try discriminate; auto.
  intros H. apply Ascii.eqb_eq in H. now subst.
Qed.

(** On a well-formed board, a destination that does not hold the mover's
    color is empty or holds the other color. *)
Lemma destination_open (dest : Cell) (own other : ascii) (p : string) :
  cellOk dest ->
  charAt 0 p = Some own ->
  (own = W /\ other = B) \/ (own = B /\ other = W) ->
  truthy dest && jsCharEq (cellChar 0 dest) (charAt 0 (basicPiece p)) = false ->
  isNull dest || isChar (cellChar 0 dest) other = true.
Proof.
  intros Hok Hp Hcol Hd. rewrite charAt0_basicPiece, Hp in Hd.
  destruct dest as [d|]; [|reflexivity].
  cbn [cellOk] in Hok. cbn [isNull orb cellChar truthy] in *.
  rewrite (coloured_truthy d Hok) in Hd. cbn [andb] in Hd.
  unfold coloured in Hok. unfold isChar in *.
  destruct Hcol as [[-> ->] | [-> ->]].
  - rewrite Hd in Hok. exact Hok.
  - rewrite Hd in Hok. now rewrite orb_false_r in Hok.
Qed.

(** ** Lists, walks and piece names *)

Lemma forallb_map_ext {A B : Type} (f : B -> bool) (g : A -> B) (h : A -> bool)
      (l : list A) :
  (forall x, f (g x) = h x) -> forallb f (map g l) = forallb h l.
Proof.
  intros H. induction l as [|x l IH]; [reflexivity|].
  cbn [map forallb]. now rewrite H, IH.
Qed.

Lemma pathClear_walk (stop : Z -> Z -> bool) (board : Board) (rStep fStep : Z) (n : nat) :
  forall (fuel : nat) (r f : Z),
  (n < fuel)%nat ->
  (forall k, (k < n)%nat -> stop (r + Z.of_nat k * rStep) (f + Z.of_nat k * fStep) = false) ->
  stop (r + Z.of_nat n * rStep) (f + Z.of_nat n * fStep) = true ->
  pathClear stop board rStep fStep fuel r f
  = Some (forallb (fun k => negb (truthy (getCell board (r + Z.of_nat k * rStep)
                                                   (f + Z.of_nat k * fStep))))
                  (seq 0 n)).
Proof.
  induction n as [|n IH]; intros fuel r f Hfuel Hgo Hstop.
  - destruct fuel as [|fuel]; [lia|]. cbn [pathClear seq forallb].
    replace (r + Z.of_nat 0 * rStep) with r in Hstop by lia.
    replace (f + Z.of_nat 0 * fStep) with f in Hstop by lia.
    now rewrite Hstop.
  - destruct fuel as [|fuel]; [lia|]. cbn [pathClear].
    pose proof (Hgo 0%nat ltac:(lia)) as H0.
    replace (r + Z.of_nat 0 * rStep) with r in H0 by lia.
    replace (f + Z.of_nat 0 * fStep) with f in H0 by lia.
    rewrite H0. cbn [seq forallb].
    replace (r + Z.of_nat 0 * rStep) with r by lia.
    replace (f + Z.of_nat 0 * fStep) with f by lia.
    destruct (truthy (getCell board r f)); cbn [negb andb]; [reflexivity|].
    rewrite (IH fuel (r + rStep) (f + fStep)).
    + f_equal. rewrite <- seq_shift. symmetry. apply forallb_map_ext. intros k.
      f_equal. f_equal. f_equal; lia.
    + lia.
    + intros k Hk. specialize (Hgo (S k) ltac:(lia)).
      replace (r + rStep + Z.of_nat k * rStep) with (r + Z.of_nat (S k) * rStep) by lia.
      replace (f + fStep + Z.of_nat k * fStep) with (f + Z.of_nat (S k) * fStep) by lia.
      exact Hgo.
    + replace (r + rStep + Z.of_nat n * rStep) with (r + Z.of_nat (S n) * rStep) by lia.
      replace (f + fStep + Z.of_nat n * fStep) with (f + Z.of_nat (S n) * fStep) by lia.
      exact Hstop.
Qed.

Lemma slide_loop_spec (board : Board) (fromC toC : Coords) :
  onBoard fromC = true -> onBoard toC = true ->
  let rankDiff := rank toC - rank fromC in
  let fileDiff := file toC - file fromC in
  rankDiff = 0 \/ fileDiff = 0 \/ Z.abs rankDiff = Z.abs fileDiff ->
  loopResult (pathClear (fun r f => (r =? rank toC) && (f =? file toC)) board
                        (Z.sgn rankDiff) (Z.sgn fileDiff) 8
                        (rank fromC + Z.sgn rankDiff) (file fromC + Z.sgn fileDiff))
  = pathFree board fromC toC
  /\ (Z.abs rankDiff = Z.abs fileDiff ->
      loopResult (pathClear (fun r f => (r =? rank toC) || (f =? file toC)) board
                            (Z.sgn rankDiff) (Z.sgn fileDiff) 8
                            (rank fromC + Z.sgn rankDiff) (file fromC + Z.sgn fileDiff))
      = pathFree board fromC toC).
Proof.
  intros Hf Ht rankDiff fileDiff Hgeo.
  unfold onBoard in Hf, Ht. repeat rewrite andb_true_iff in Hf, Ht.
  destruct Hf as [[[Hf1 Hf2] Hf3] Hf4], Ht as [[[Ht1 Ht2] Ht3] Ht4].
  apply Z.leb_le in Hf1, Hf3, Ht1, Ht3. apply Z.ltb_lt in Hf2, Hf4, Ht2, Ht4.
  set (m := Z.max (Z.abs rankDiff) (Z.abs fileDiff)).
  set (n := (Z.to_nat m - 1)%nat).
  assert (Hn : (n < 8)%nat) by (unfold n, m, rankDiff, fileDiff; lia).
  assert (Hfree : pathFree board fromC toC
                  = forallb (fun k => negb (truthy (getCell board
                       (rank fromC + Z.sgn rankDiff + Z.of_nat k * Z.sgn rankDiff)
                       (file fromC + Z.sgn fileDiff + Z.of_nat k * Z.sgn fileDiff))))
                            (seq 0 n)).
  { unfold pathFree, squaresBetween. fold rankDiff fileDiff m n.
    apply forallb_map_ext. intros k. unfold cellAt. cbn [rank file].
    f_equal. f_equal. f_equal; lia. }
  assert (Hend : rank fromC + Z.sgn rankDiff + Z.of_nat n * Z.sgn rankDiff = rank toC
                 /\ file fromC + Z.sgn fileDiff + Z.of_nat n * Z.sgn fileDiff = file toC).
  { unfold n, m.
    destruct (Z.sgn_spec rankDiff) as [[H1 H2]|[[H1 H2]|[H1 H2]]];
      destruct (Z.sgn_spec fileDiff) as [[H3 H4]|[[H3 H4]|[H3 H4]]];
      rewrite H2, H4; unfold rankDiff, fileDiff in *; lia. }
  destruct Hend as [Hr Hfl].
  assert (Hgo : forall k, (k < n)%nat ->
                rank fromC + Z.sgn rankDiff + Z.of_nat k * Z.sgn rankDiff <> rank toC
                \/ file fromC + Z.sgn fileDiff + Z.of_nat k * Z.sgn fileDiff <> file toC).
  { intros k Hk. unfold n, m in Hk.
    destruct (Z.sgn_spec rankDiff) as [[H1 H2]|[[H1 H2]|[H1 H2]]];
      destruct (Z.sgn_spec fileDiff) as [[H3 H4]|[[H3 H4]|[H3 H4]]];
      rewrite H2, H4; unfold rankDiff, fileDiff in *; lia. }
  assert (Hgo2 : Z.abs rankDiff = Z.abs fileDiff -> forall k, (k < n)%nat ->
                rank fromC + Z.sgn rankDiff + Z.of_nat k * Z.sgn rankDiff <> rank toC
                /\ file fromC + Z.sgn fileDiff + Z.of_nat k * Z.sgn fileDiff <> file toC).
  { intros Hd k Hk. unfold n, m in Hk.
    destruct (Z.sgn_spec rankDiff) as [[H1 H2]|[[H1 H2]|[H1 H2]]];
      destruct (Z.sgn_spec fileDiff) as [[H3 H4]|[[H3 H4]|[H3 H4]]];
      rewrite H2, H4; unfold rankDiff, fileDiff in *; lia. }
  split; [|intros Hd].
  - rewrite (pathClear_walk _ board _ _ n); [exact (eq_sym Hfree)|exact Hn| |].
    + intros k Hk. apply andb_false_iff.
      destruct (Hgo k Hk) as [H|H]; [left|right]; now apply Z.eqb_neq.
    + rewrite Hr, Hfl, !Z.eqb_refl. reflexivity.
  - rewrite (pathClear_walk _ board _ _ n); [exact (eq_sym Hfree)|exact Hn| |].
    + intros k Hk. apply orb_false_iff.
      destruct (Hgo2 Hd k Hk) as [H H']. split; now apply Z.eqb_neq.
    + rewrite Hr, Hfl, !Z.eqb_refl. reflexivity.
Qed.

Lemma existsb_ext_in {A : Type} (f g : A -> bool) (l : list A) :
  (forall x, In x l -> f x = g x) -> existsb f l = existsb g l.
Proof.
  induction l as [|a l IH]; intros H; [reflexivity|].
  cbn [existsb]. rewrite (H a (or_introl eq_refl)), IH; [reflexivity|].
  intros x Hx. apply H. now right.
Qed.

Lemma charAt1_basicPiece (p : string) : charAt 1 (basicPiece p) = charAt 1 p.
Proof. destruct p as [|x [|y rest]]; reflexivity. Qed.

(** ** Round resolution: the board of the round *)

Lemma handleCastling_shaped (b : Board) (color : ascii) (move : Move) :
  shaped b -> shaped (handleCastling b color move).
Proof.
  intros H. unfold handleCastling.
  repeat first [apply setCell_shaped | apply putAt_shaped]. exact H.
Qed.

Lemma afterCastling_shaped (b : Board) (wm bm : Move) :
  shaped b -> shaped (afterCastling b wm bm).
Proof.
  intros H. unfold afterCastling.
  repeat match goal with
         | |- shaped (if ?c then _ else _) => destruct c
         | |- shaped (handleCastling _ _ _) => apply handleCastling_shaped
         end; exact H.
Qed.

Lemma afterEnPassant_shaped (b nb : Board) (wm bm : Move) :
  shaped nb -> shaped (afterEnPassant b nb wm bm).
Proof.
  intros H. unfold afterEnPassant.
  repeat match goal with
         | |- shaped (if ?c then _ else _) => destruct c
         | |- shaped (setCell _ _ _ _) => apply setCell_shaped
         end; exact H.
Qed.

Lemma afterVacate_shaped (b nb : Board) (wm bm : Move) :
  shaped nb -> shaped (afterVacate b nb wm bm).
Proof.
  intros H. unfold afterVacate.
  repeat match goal with
         | |- shaped (if ?c then _ else _) => destruct c
         | |- shaped (putAt _ _ _) => apply putAt_shaped
         end; exact H.
Qed.

Lemma resolveBoard_shaped (b : Board) (wm bm : Move) :
  shaped b -> shaped (resolveBoard b wm bm).
Proof.
  intros H.
  assert (H3 : shaped (afterVacate b (afterEnPassant b (afterCastling b wm bm) wm bm) wm bm)).
  { apply afterVacate_shaped, afterEnPassant_shaped, afterCastling_shaped, H. }
  unfold resolveBoard. destruct (String.eqb (to wm) (to bm)); [exact H3|].
  unfold placeMove.
  repeat match goal with
         | |- shaped (if ?c then _ else _) => destruct c
         | |- shaped (putAt _ _ _) => apply putAt_shaped
         end; exact H3.
Qed.

Lemma promotedPiece_clean (color : ascii) (move : Move) (piece : Cell) :
  cleanCell piece -> cleanCell (promotedPiece color move piece).
Proof.
  intros Hp. unfold promotedPiece.
  destruct (truthy (promotion move)); [|exact Hp].
  destruct (truthy (promotedPieceId move)) eqn:E; right; [exact E|reflexivity].
Qed.

Lemma handleCastling_clean (b : Board) (color : ascii) (move : Move) :
  cleanBoard b -> cleanBoard (handleCastling b color move).
Proof.
  intros H. unfold handleCastling.
  apply setCell_clean; [apply setCell_clean; [|now left]|].
  - apply setCell_clean; [apply setCell_clean; [exact H|now left]|now right].
  - apply getCell_clean. apply setCell_clean; [apply setCell_clean; [exact H|now left]|now right].
Qed.

Lemma resolveBoard_clean (b : Board) (wm bm : Move) :
  cleanBoard b -> cleanBoard (resolveBoard b wm bm).
Proof.
  intros H.
  assert (H1 : cleanBoard (afterCastling b wm bm)).
  { unfold afterCastling.
    repeat match goal with
           | |- cleanBoard (if ?c then _ else _) => destruct c
           | |- cleanBoard (handleCastling _ _ _) => apply handleCastling_clean
           end; exact H. }
  assert (H2 : cleanBoard (afterEnPassant b (afterCastling b wm bm) wm bm)).
  { unfold afterEnPassant.
    repeat match goal with
           | |- cleanBoard (if ?c then _ else _) => destruct c
           | |- cleanBoard (setCell _ _ _ None) => apply setCell_clean; [|now left]
           end; exact H1. }
  assert (H3 : cleanBoard (afterVacate b (afterEnPassant b (afterCastling b wm bm) wm bm) wm bm)).
  { unfold afterVacate, putAt.
    repeat match goal with
           | |- cleanBoard (if ?c then _ else _) => destruct c
           | |- cleanBoard (setCell _ _ _ None) => apply setCell_clean; [|now left]
           end; exact H2. }
  unfold resolveBoard. destruct (String.eqb (to wm) (to bm)); [exact H3|].
  unfold placeMove, putAt.
  repeat match goal with
         | |- cleanBoard (if ?c then _ else _) => destruct c
         | |- cleanBoard (setCell _ _ _ (promotedPiece _ _ _)) =>
             apply setCell_clean; [|apply promotedPiece_clean, getCell_clean, H]
         end; exact H3.
Qed.

Lemma placeMove_lands (board nb : Board) (toC : Coords) (landing otherPiece : Cell)
      (otherMove : Move) (otherColor : ascii) :
  isNull (cellAt board toC) || isChar (cellChar 0 (cellAt board toC)) otherColor = true ->
  placeMove board nb toC landing otherPiece otherMove otherColor = putAt nb toC landing.
Proof.
  intros H. unfold placeMove. rewrite H.
  now destruct (cellEq (cellAt board toC) otherPiece
                && negb (String.eqb (from otherMove) (to otherMove))).
Qed.

Lemma promotedPiece_truthy (color : ascii) (move : Move) (p : string) :
  coloured p = true -> truthy (promotedPiece color move (Some p)) = true.
Proof.
  intros Hp. unfold promotedPiece.
  destruct (truthy (promotion move)).
  - destruct (truthy (promotedPieceId move)) eqn:E; [exact E|reflexivity].
  - now apply coloured_truthy.
Qed.

(** With distinct destinations and two legal moves, both placements of
    [processMoves] take place, whatever stood on the destinations. *)
Lemma resolveBoard_lands (game : Game) (whiteMove blackMove : Move) (wp bp : string) :
  let board := positionToBoard (position game) in
  wfPosition (position game) = true ->
  validSquare (to whiteMove) = true -> validSquare (to blackMove) = true ->
  cellAt board (squareToCoords (from whiteMove)) = Some wp -> charAt 0 wp = Some W ->
  cellAt board (squareToCoords (from blackMove)) = Some bp -> charAt 0 bp = Some B ->
  isLegalMove board (from whiteMove) (to whiteMove) (basicPiece wp) (gameStateOf game) = true ->
  isLegalMove board (from blackMove) (to blackMove) (basicPiece bp) (gameStateOf game) = true ->
  to whiteMove <> to blackMove ->
  cellAt (resolveBoard board whiteMove blackMove) (squareToCoords (to whiteMove))
  = promotedPiece W whiteMove (Some wp)
  /\ cellAt (resolveBoard board whiteMove blackMove) (squareToCoords (to blackMove))
     = promotedPiece B blackMove (Some bp).
Proof.
  intros board Hwf Hvw Hvb Hw Hcw Hb Hcb Hlw Hlb Hne.
  assert (Hshape : shaped board) by apply positionToBoard_shaped.
  assert (Hok : wfBoard board) by now apply positionToBoard_wf.
  assert (Hdiff : squareToCoords (to whiteMove) <> squareToCoords (to blackMove)).
  { intros Heq. apply Hne. now apply squareToCoords_inj. }
  unfold resolveBoard. fold board.
  assert (Es : String.eqb (to whiteMove) (to blackMove) = false) by now apply String.eqb_neq.
  rewrite Es, Hw, Hb.
  set (b3 := afterVacate board (afterEnPassant board (afterCastling board whiteMove blackMove)
                                              whiteMove blackMove) whiteMove blackMove).
  assert (Hb3 : shaped b3).
  { unfold b3. apply afterVacate_shaped, afterEnPassant_shaped, afterCastling_shaped, Hshape. }
  rewrite (placeMove_lands board b3 (squareToCoords (to whiteMove))).
  2:{ apply (destination_open _ W B wp); auto.
      - apply getCell_wf, Hok.
      - apply (legal_destination _ _ _ _ _ _ Hlw). }
  rewrite placeMove_lands.
  2:{ apply (destination_open _ B W bp); auto.
      - apply getCell_wf, Hok.
      - apply (legal_destination _ _ _ _ _ _ Hlb). }
  split.
  - rewrite cellAt_putAt_other by congruence.
    apply cellAt_putAt_same; [exact Hb3|now apply validSquare_onBoard].
  - apply cellAt_putAt_same; [now apply putAt_shaped|now apply validSquare_onBoard].
Qed.

Lemma afterEnPassant_cleared (b nb : Board) (wm bm : Move) (c : Coords) :
  cellAt nb c = None -> cellAt (afterEnPassant b nb wm bm) c = None.
Proof.
  intros H. unfold afterEnPassant, cellAt in *.
  repeat match goal with
         | |- getCell (if ?x then _ else _) _ _ = None => destruct x
         | |- getCell (setCell _ _ _ None) _ _ = None => apply getCell_cleared
         end; exact H.
Qed.

(** Without castling, a collision leaves the three squares involved empty:
    both source squares and the shared destination. *)
Lemma collision_without_castling (game : Game) (whiteMove blackMove : Move) (wp bp : string) :
  let board := positionToBoard (position game) in
  let whiteFrom := squareToCoords (from whiteMove) in
  let blackFrom := squareToCoords (from blackMove) in
  wfPosition (position game) = true ->
  validSquare (from whiteMove) = true -> validSquare (from blackMove) = true ->
  cellAt board whiteFrom = Some wp -> charAt 0 wp = Some W ->
  cellAt board blackFrom = Some bp -> charAt 0 bp = Some B ->
  isLegalMove board (from whiteMove) (to whiteMove) (basicPiece wp) (gameStateOf game) = true ->
  isLegalMove board (from blackMove) (to blackMove) (basicPiece bp) (gameStateOf game) = true ->
  to whiteMove = to blackMove ->
  isCastlingMove (Some wp) whiteFrom (squareToCoords (to whiteMove)) = false ->
  isCastlingMove (Some bp) blackFrom (squareToCoords (to blackMove)) = false ->
  let newBoard := resolveBoard board whiteMove blackMove in
  cellAt newBoard whiteFrom = None
  /\ cellAt newBoard blackFrom = None
  /\ cellAt newBoard (squareToCoords (to whiteMove)) = None.
Proof.
  intros board whiteFrom blackFrom Hwf Hvw Hvb Hw Hcw Hb Hcb Hlw Hlb Hto Hnw Hnb newBoard.
  assert (Hshape : shaped board) by apply positionToBoard_shaped.
  assert (Hok : wfBoard board) by now apply positionToBoard_wf.
  assert (Hdest : cellAt board (squareToCoords (to whiteMove)) = None).
  { pose proof (legal_destination _ _ _ _ _ _ Hlw) as Dw.
    pose proof (legal_destination _ _ _ _ _ _ Hlb) as Db.
    rewrite <- Hto in Db. rewrite charAt0_basicPiece in Dw, Db. rewrite Hcw in Dw. rewrite Hcb in Db.
    pose proof (getCell_wf board (rank (squareToCoords (to whiteMove)))
                           (file (squareToCoords (to whiteMove))) Hok) as Hcell.
    fold (cellAt board (squareToCoords (to whiteMove))) in Hcell.
    destruct (cellAt board (squareToCoords (to whiteMove))) as [d|]; [|reflexivity].
    cbn [cellOk truthy cellChar] in *. rewrite (coloured_truthy d Hcell) in Dw, Db.
    cbn [andb] in Dw, Db. unfold coloured, isChar in Hcell. rewrite Dw, Db in Hcell.
    discriminate. }
  unfold newBoard, resolveBoard, afterCastling, afterVacate.
  fold board whiteFrom blackFrom.
  rewrite <- Hto in Hnb |- *.
  rewrite String.eqb_refl, Hw, Hb, Hnw, Hnb, !cellEq_refl.
  set (e := afterEnPassant board board whiteMove blackMove).
  assert (He : shaped e) by (apply afterEnPassant_shaped, Hshape).
  split; [|split].
  - destruct (sameCoords blackFrom whiteFrom) eqn:Es.
    + apply sameCoords_eq in Es. rewrite Es.
      apply cellAt_putAt_same; [now apply putAt_shaped|now apply validSquare_onBoard].
    + rewrite cellAt_putAt_other.
      * apply cellAt_putAt_same; [exact He|now apply validSquare_onBoard].
      * intros Heq. rewrite Heq in Es.
        rewrite (proj2 (sameCoords_eq whiteFrom whiteFrom) eq_refl) in Es. discriminate.
  - apply cellAt_putAt_same; [now apply putAt_shaped|now apply validSquare_onBoard].
  - unfold putAt, cellAt. apply getCell_cleared, getCell_cleared.
    apply afterEnPassant_cleared. exact Hdest.
Qed.

(** ** Round resolution: rights and results *)

Lemma consistentSide_round (board : Board) (piece : Cell) (move other : Move)
      (a h : string) (r : SideRights) (km : bool) (rm : RooksMoved) :
  consistentSide r km rm = true ->
  consistentSide (capturedRookRights board other a h (ownRights piece move a h r))
                 (if hasType piece "K" then true else km)
                 (rookMovedFrom piece move a h rm) = true.
Proof.
  unfold consistentSide, capturedRookRights, ownRights, rookMovedFrom,
         revokeKing, revokeKingSide, revokeQueenSide.
  destruct r as [ks qs], rm as [ra rh].
  destruct (hasType piece "K"), (hasType piece "R"),
           (String.eqb (from move) a), (String.eqb (from move) h),
           (truthy (cellAt board (squareToCoords (to other)))
            && isChar (cellChar 1 (cellAt board (squareToCoords (to other)))) "R"),
           (String.eqb (to other) a), (String.eqb (to other) h),
           ks, qs, km, ra, rh; cbn; intros H; try reflexivity; try discriminate H.
Qed.

Lemma createGameState_consistent (timeControl0 now : Z) :
  rightsConsistent (createGameState timeControl0 now) = true.
Proof. reflexivity. Qed.

Lemma processRound_consistent (game : Game) (whiteMove blackMove : Move) :
  rightsConsistent game = true ->
  rightsConsistent (processRound game whiteMove blackMove) = true.
Proof.
  unfold rightsConsistent. intros H. apply andb_true_iff in H. destruct H as [Hw Hb].
  cbn [processRound castlingRights kingsMoved rooksMoved newCastlingRights newKingsMoved
       newRooksMoved white black].
  apply andb_true_iff. split; now apply consistentSide_round.
Qed.

(** The third branch of the checkmate arbitration needs both colors
    checkmated, and then the first branch has already answered. *)
Lemma checkmateResult_never_draw (newBoard : Board) (w b : bool) (gs : GameState) :
  checkmateResult newBoard w b gs <> Some draw.
Proof.
  unfold checkmateResult.
  destruct w, b, (isCheckmate newBoard W gs), (isCheckmate newBoard B gs);
    cbn; discriminate.
Qed.

(** With exactly one color checkmated the other color wins, whether or not
    the winner is in check itself. *)
Lemma single_checkmate_wins (newBoard : Board) (winnerInCheck : bool) (gs : GameState) :
  (isCheckmate newBoard W gs = true -> isCheckmate newBoard B gs = false ->
   checkmateResult newBoard true winnerInCheck gs = Some blackWins)
  /\ (isCheckmate newBoard B gs = true -> isCheckmate newBoard W gs = false ->
      checkmateResult newBoard winnerInCheck true gs = Some whiteWins).
Proof.
  unfold checkmateResult. split; intros -> ->.
  - reflexivity.
  - now rewrite andb_false_r.
Qed.

(** ** The handlers *)

Lemma isRejection_app (l1 l2 : list Emission) :
  isRejection (l1 ++ l2) = isRejection l1 || isRejection l2.
Proof. unfold isRejection. apply existsb_app. Qed.

Lemma isRejection_startedNotice (game : Game) : isRejection (startedNotice game) = false.
Proof. unfold startedNotice. now destruct (gameStarted game). Qed.

Lemma resolveIfBoth_no_rejection (now : Z) (game : Game) :
  isRejection (snd (resolveIfBoth now game)) = false.
Proof.
  unfold resolveIfBoth.
  destruct (isSome (white (pendingMoves game)) && isSome (black (pendingMoves game)));
    [|reflexivity].
  destruct (processMoves game) as [[g r]|]; reflexivity.
Qed.

Lemma roundState_withStarted (game : Game) (s : bool) :
  roundState (withStarted game s) = roundState game.
Proof. reflexivity. Qed.

Lemma roundState_withPending (game : Game) (p : PerColor (option Move)) :
  roundState (withPending game p) = roundState game.
Proof. reflexivity. Qed.

Lemma roundState_checkTimerStatus (game : Game) :
  roundState (checkTimerStatus game) = roundState game.
Proof.
  unfold checkTimerStatus.
  repeat match goal with |- context [if ?c then _ else _] => destruct c end; reflexivity.
Qed.

Lemma pendingMoves_checkTimerStatus (game : Game) :
  pendingMoves (checkTimerStatus game) = pendingMoves game.
Proof.
  unfold checkTimerStatus.
  repeat match goal with |- context [if ?c then _ else _] => destruct c end; reflexivity.
Qed.

(** With a pending move missing, the handlers' tail resolves nothing. *)
Lemma resolveIfBoth_waits (now : Z) (game : Game) (cn : ColorName) :
  ofColor cn (pendingMoves game) = None -> resolveIfBoth now game = (game, []).
Proof.
  intros H. unfold resolveIfBoth.
  destruct cn; cbn [ofColor] in H; rewrite H; cbn [isSome andb];
    [reflexivity|now rewrite andb_false_r].
Qed.

Lemma ofColor_setColor_other {A : Type} (cn other : ColorName) (v : A) (p : PerColor A) :
  cn <> other -> ofColor cn (setColor other v p) = ofColor cn p.
Proof. destruct cn, other; intros H; try reflexivity; now contradiction H. Qed.

Lemma isCheckmate_no_escape (board : Board) (color : ascii) (gs : GameState)
      (fromC toC : Coords) :
  isCheckmate board color gs = true ->
  onBoard fromC = true -> onBoard toC = true ->
  escapesCheck board color gs fromC toC = false.
Proof.
  unfold isCheckmate. intros H Hf Ht.
  destruct (negb (isInCheck board (Some color))); [discriminate|].
  apply negb_true_iff in H.
  destruct (escapesCheck board color gs fromC toC) eqn:E; [|reflexivity].
  assert (Hex : existsb (fun fromC => existsb (fun toC => escapesCheck board color gs fromC toC)
                                              allCoords) allCoords = true).
  { apply existsb_exists. exists fromC. split; [now apply onBoard_cases|].
    apply existsb_exists. exists toC. split; [now apply onBoard_cases|exact E]. }
  congruence.
Qed.

(** A checkmated color has no submission left: whatever passes the other
    tests fails the still-in-check test. *)
Lemma mated_submission_rejected (socketId : string) (now : Z) (game : Game) (move : Move)
      (cn : ColorName) :
  colorNameOf game socketId = Some cn ->
  ofColor cn (inCheck game) = true ->
  isCheckmate (positionToBoard (position game)) (colorChar cn) (gameStateOf game) = true ->
  validSquare (from move) = true -> validSquare (to move) = true ->
  exists msg,
    submitMove socketId now game move
    = (withStarted game true, startedNotice game ++ rejected msg).
Proof.
  intros Hcn Hflag Hmate Hvf Hvt.
  unfold submitMove. rewrite Hcn. fold (startedNotice game).
  cbn [position withStarted].
  set (board := positionToBoard (position game)) in *.
  set (fromC := squareToCoords (from move)).
  set (toC := squareToCoords (to move)).
  destruct (truthy (cellAt board fromC)) eqn:E2a; cbn [negb orb]; [|eexists; reflexivity].
  destruct (isChar (cellChar 0 (cellAt board fromC)) (colorChar cn)) eqn:E2b; cbn [negb];
    [|eexists; reflexivity].
  match goal with
  | |- context [if ?c then (_, startedNotice game ++ rejected _) else _] =>
      destruct c; [eexists; reflexivity|]
  end.
  match goal with
  | |- context [if negb ?c then (_, startedNotice game ++ rejected _) else _] =>
      destruct c eqn:E4; cbn [negb]; [|eexists; reflexivity]
  end.
  match goal with
  | |- context [if ?c then (_, startedNotice game ++ rejected _) else _] =>
      destruct c eqn:E5; [eexists; reflexivity|]
  end.
  exfalso.
  unfold gameStateOf in E4, Hmate.
  cbn [withStarted inCheck castlingRights enPassantTarget] in E4, E5.
  rewrite Hflag in E5. cbn [andb] in E5.
  pose proof (isCheckmate_no_escape board (colorChar cn) _ fromC toC Hmate
                (validSquare_onBoard _ Hvf) (validSquare_onBoard _ Hvt)) as Hno.
  unfold escapesCheck in Hno. rewrite E2a, E2b in Hno. cbn [andb] in Hno.
  unfold fromC, toC in Hno. rewrite !square_of_coords in Hno by assumption.
  fold fromC toC in Hno.
  destruct (cellAt board fromC) as [p|]; [|discriminate E2a].
  cbn [basicPiece] in E4. rewrite E4, E5 in Hno. discriminate Hno.
Qed.

Lemma other_submission_waits (socketId : string) (now : Z) (game : Game) (move : Move)
      (cn other : ColorName) :
  colorNameOf game socketId = Some other -> other <> cn ->
  ofColor cn (pendingMoves game) = None ->
  waitingFor cn game (fst (submitMove socketId now game move)).
Proof.
  intros Hcn Hne Hpend. unfold submitMove. rewrite Hcn.
  repeat match goal with
         | |- context [if ?c then (withStarted game true, _) else _] =>
             destruct c; [split; [reflexivity|exact Hpend]|]
         end.
  assert (Hkeep : ofColor cn (setColor other (Some move) (pendingMoves (withStarted game true)))
                  = None).
  { rewrite ofColor_setColor_other by congruence. exact Hpend. }
  destruct (isPawnPromotion other _ move).
  - split; [reflexivity|exact Hkeep].
  - rewrite (resolveIfBoth_waits now _ cn).
    + cbn [fst]. split.
      * now rewrite roundState_checkTimerStatus.
      * rewrite pendingMoves_checkTimerStatus. exact Hkeep.
    + rewrite pendingMoves_checkTimerStatus. exact Hkeep.
Qed.

Lemma promotion_waits (socketId : string) (now : Z) (game : Game)
      (square pieceType : string) (cn : ColorName) :
  ofColor cn (pendingMoves game) = None ->
  waitingFor cn game (fst (promotePawn socketId now game square pieceType)).
Proof.
  intros Hpend. unfold promotePawn.
  destruct (colorNameOf game socketId) as [sender|]; [|split; [reflexivity|exact Hpend]].
  destruct (negb (isPromotionType pieceType)); [split; [reflexivity|exact Hpend]|].
  destruct (ofColor sender (pendingMoves game)) as [pendingMove|] eqn:Es;
    [|split; [reflexivity|exact Hpend]].
  assert (Hne : sender <> cn) by (intros ->; congruence).
  repeat match goal with
         | |- context [if ?c then (game, rejected _) else _] =>
             destruct c; [split; [reflexivity|exact Hpend]|]
         end.
  match goal with
  | |- context [setColor sender (Some ?m) (pendingMoves game)] =>
      assert (Hkeep : ofColor cn (setColor sender (Some m) (pendingMoves game)) = None)
        by (rewrite ofColor_setColor_other by congruence; exact Hpend)
  end.
  rewrite (resolveIfBoth_waits now _ cn).
  - cbn [fst]. split.
    + now rewrite roundState_checkTimerStatus.
    + rewrite pendingMoves_checkTimerStatus. exact Hkeep.
  - rewrite pendingMoves_checkTimerStatus. exact Hkeep.
Qed.

(** One request against a game in which [cn] is checkmated. *)
Lemma mated_game_step (game : Game) (cn : ColorName) (req : Request) :
  ofColor cn (inCheck game) = true ->
  isCheckmate (positionToBoard (position game)) (colorChar cn) (gameStateOf game) = true ->
  ofColor cn (pendingMoves game) = None ->
  wellAddressed req = true ->
  waitingFor cn game (fst (handle game req)).
Proof.
  intros Hflag Hmate Hpend Hreq. destruct req as [socketId now move|socketId now square pt].
  - cbn [handle]. cbn [wellAddressed] in Hreq. apply andb_true_iff in Hreq.
    destruct Hreq as [Hvf Hvt].
    destruct (colorNameOf game socketId) as [sender|] eqn:Es.
    + destruct sender, cn;
        try (apply (other_submission_waits _ _ _ _ _ _ Es); [discriminate|exact Hpend]);
        (destruct (mated_submission_rejected socketId now game move _ Es Hflag Hmate Hvf Hvt)
           as [msg ->]; split; [reflexivity|exact Hpend]).
    + unfold submitMove. rewrite Es. split; [reflexivity|exact Hpend].
  - cbn [handle]. now apply promotion_waits.
Qed.

Lemma mated_game_serve (cn : ColorName) (reqs : list Request) (game : Game) :
  ofColor cn (inCheck game) = true ->
  isCheckmate (positionToBoard (position game)) (colorChar cn) (gameStateOf game) = true ->
  ofColor cn (pendingMoves game) = None ->
  forallb wellAddressed reqs = true ->
  waitingFor cn game (serve game reqs).
Proof.
  revert game. induction reqs as [|req rest IH]; intros game Hflag Hmate Hpend Hreqs.
  - split; [reflexivity|exact Hpend].
  - cbn [forallb] in Hreqs. apply andb_true_iff in Hreqs. destruct Hreqs as [Hreq Hrest].
    destruct (mated_game_step game cn req Hflag Hmate Hpend Hreq) as [Hsame Hnone].
    cbn [serve fold_left]. fold (serve (fst (handle game req)) rest).
    set (next := fst (handle game req)) in *.
    assert (Hfields : position next = position game /\ inCheck next = inCheck game
                      /\ castlingRights next = castlingRights game
                      /\ enPassantTarget next = enPassantTarget game).
    { unfold roundState in Hsame. inversion Hsame. auto. }
    destruct Hfields as [Hp [Hc [Hr He]]].
    destruct (IH next) as [Hsame' Hnone'].
    + now rewrite Hc.
    + unfold gameStateOf. now rewrite Hp, Hr, He.
    + exact Hnone.
    + exact Hrest.
    + split; [congruence|exact Hnone'].
Qed.

(** A round that leaves a color checkmated produces a game in which the
    handlers see that checkmate. *)
Lemma round_ending_in_checkmate (now : Z) (game : Game) (whiteMove blackMove : Move)
      (cn : ColorName) :
  wfPosition (position game) = true ->
  white (pendingMoves game) = Some whiteMove ->
  black (pendingMoves game) = Some blackMove ->
  let newBoard := resolveBoard (positionToBoard (position game)) whiteMove blackMove in
  let ended := fst (resolveIfBoth now game) in
  isInCheck newBoard (Some (colorChar cn)) = true ->
  isCheckmate newBoard (colorChar cn) (gameStateOf ended) = true ->
  ofColor cn (inCheck ended) = true
  /\ isCheckmate (positionToBoard (position ended)) (colorChar cn) (gameStateOf ended) = true
  /\ ofColor cn (pendingMoves ended) = None
  /\ gameResult ended <> None.
Proof.
  intros Hwf Hw Hb newBoard ended Hcheck Hmate.
  assert (Hround : positionToBoard (boardToPosition newBoard) = newBoard).
  { apply positionToBoard_boardToPosition.
    - apply resolveBoard_shaped, positionToBoard_shaped.
    - apply resolveBoard_clean, wfBoard_clean, positionToBoard_wf, Hwf. }
  unfold ended, resolveIfBoth, processMoves in *. rewrite Hw, Hb in *.
  cbn [isSome andb fst] in *. unfold gameStateOf in *.
  cbn [withTimers withPending position inCheck pendingMoves processRound
       castlingRights enPassantTarget gameResult] in *.
  fold newBoard in Hmate |- *. rewrite Hround.
  split; [destruct cn; exact Hcheck|].
  split; [exact Hmate|].
  split; [destruct cn; reflexivity|].
  unfold terminalResult.
  destruct (collisionResult _ whiteMove blackMove); [discriminate|]. cbn [orElse].
  destruct (missingKingResult newBoard); [discriminate|]. cbn [orElse].
  unfold checkmateResult.
  destruct cn; cbn [colorChar] in Hcheck, Hmate.
  - rewrite Hcheck, Hmate. discriminate.
  - rewrite Hcheck, Hmate.
    destruct (isInCheck newBoard (Some W) && isCheckmate newBoard W _); discriminate.
Qed.

(** ** C1: a round resolved while a promotion choice is awaited *)

(** C1.  White submits a7-a8 and is asked for a promotion piece; the move
    is stored without a choice.  Black's ordinary move then arrives first:
    [submitMove] finds both pending moves set and calls [processMoves], so
    the round is resolved with the pawn still a pawn on a8.  In the other
    order (black first, then white's a7-a8) the handler does wait. *)
Theorem promotion_choice_not_awaited :
  snd (submitMove whiteSocket 1 promotionGame (plainMove "a7" "a8"))
  = [ToSocket "promotionNeeded" (PSquare "a8")]
  /\ white (pendingMoves awaitingPromotion) = Some (mkMove "a7" "a8" None None)
  /\ roundsResolved awaitingPromotion = 0%nat
  /\ (let after := fst (submitMove blackSocket 2 awaitingPromotion (plainMove "h7" "h6")) in
      roundsResolved after = 1%nat
      /\ pieceAt (position after) "a8" = Some "wPa"
      /\ pendingMoves after = nobody)
  /\ (let blackFirst := fst (submitMove blackSocket 1 promotionGame (plainMove "h7" "h6")) in
      let after := fst (submitMove whiteSocket 2 blackFirst (plainMove "a7" "a8")) in
      roundsResolved after = 0%nat
      /\ pendingMoves after
         = mkPerColor (Some (plainMove "a7" "a8")) (Some (plainMove "h7" "h6"))).
Proof. vm_compute. repeat split; reflexivity. Qed.

(** ** C2: both colors checkmated in the same round *)

(** C2.  After d5-d8 and c5-c1 both kings exist, both colors are in check
    and [isCheckmate] holds for both, yet the stored result is
    [blackWins]: white's checkmate is tested first and the draw branch is
    never reached. *)
Theorem double_checkmate_is_black_win :
  let board := positionToBoard (position doubleMateRound) in
  doesKingExist board W = true /\ doesKingExist board B = true
  /\ inCheck doubleMateRound = mkPerColor true true
  /\ isCheckmate board W (gameStateOf doubleMateRound) = true
  /\ isCheckmate board B (gameStateOf doubleMateRound) = true
  /\ gameResult doubleMateRound = Some blackWins.
Proof. vm_compute. repeat split; reflexivity. Qed.

(** ** C3: the swerve rule *)

(** C3.  Two legal moves with distinct destinations, one of them aimed at
    the square the other side's moving piece leaves: after [processMoves]
    each moving piece (with its promotion, if any) stands on its own
    destination, so nothing was captured. *)
Theorem swerve_honours_both_destinations
        (game : Game) (whiteMove blackMove : Move) (wp bp : string) :
  let board := positionToBoard (position game) in
  wfPosition (position game) = true ->
  white (pendingMoves game) = Some whiteMove ->
  black (pendingMoves game) = Some blackMove ->
  validSquare (to whiteMove) = true -> validSquare (to blackMove) = true ->
  cellAt board (squareToCoords (from whiteMove)) = Some wp -> charAt 0 wp = Some W ->
  cellAt board (squareToCoords (from blackMove)) = Some bp -> charAt 0 bp = Some B ->
  isLegalMove board (from whiteMove) (to whiteMove) (basicPiece wp) (gameStateOf game) = true ->
  isLegalMove board (from blackMove) (to blackMove) (basicPiece bp) (gameStateOf game) = true ->
  to whiteMove <> to blackMove ->
  to whiteMove = from blackMove \/ to blackMove = from whiteMove ->
  exists game' result,
    processMoves game = Some (game', result)
    /\ pieceAt (position game') (to whiteMove) = promotedPiece W whiteMove (Some wp)
    /\ pieceAt (position game') (to blackMove) = promotedPiece B blackMove (Some bp).
Proof.
  intros board Hwf Hpw Hpb Hvw Hvb Hw Hcw Hb Hcb Hlw Hlb Hne _.
  unfold processMoves. rewrite Hpw, Hpb.
  eexists. eexists. split; [reflexivity|].
  cbn [position processRound].
  destruct (resolveBoard_lands game whiteMove blackMove wp bp
              Hwf Hvw Hvb Hw Hcw Hb Hcb Hlw Hlb Hne) as [Hlandw Hlandb].
  fold board in Hlandw, Hlandb.
  assert (Hokw : coloured wp = true).
  { unfold coloured, isChar. rewrite Hcw. reflexivity. }
  assert (Hokb : coloured bp = true).
  { unfold coloured, isChar. rewrite Hcb. reflexivity. }
  rewrite !pieceAt_boardToPosition by assumption.
  fold board. rewrite Hlandw, Hlandb.
  rewrite !promotedPiece_truthy by assumption. split; reflexivity.
Qed.

Lemma swerve_honours_both_destinations_witness :
  exists game' result,
    processMoves swerveGame = Some (game', result)
    /\ pieceAt (position game') "f6" = Some "wPe"
    /\ pieceAt (position game') "g8" = Some "bN2".
Proof.
  apply (swerve_honours_both_destinations
           swerveGame (plainMove "e5" "f6") (plainMove "f6" "g8") "wPe" "bN2");
    try (vm_compute; reflexivity).
  - vm_compute. discriminate.
  - left. reflexivity.
Defined.

(** ** C4: a collision on a castling destination *)

(** C4.  White castles e1-g1 while black's knight goes h3-g1.  Both moves
    are accepted, the destinations coincide and the result is [blackWins]
    ("white king eliminated in collision"), but [handleCastling] has
    already put the king on g1 and the rook on f1: the white king is still
    on the shared destination, and only the knight is gone. *)
Theorem castling_collision_keeps_king :
  let board := positionToBoard (position castlingCollisionGame) in
  isLegalMove board "e1" "g1" "wK" (gameStateOf castlingCollisionGame) = true
  /\ isLegalMove board "h3" "g1" "bN" (gameStateOf castlingCollisionGame) = true
  /\ roundsResolved castlingCollisionRound = 1%nat
  /\ position castlingCollisionRound = [("e8", "bK"); ("f1", "wR2"); ("g1", "wK")]
  /\ gameResult castlingCollisionRound = Some blackWins.
Proof. vm_compute. repeat split; reflexivity. Qed.

(** ** C5: one en-passant target per round *)

(** C5 fails as stated.  After e2-e4 and a7-a5 in the same round only
    black's target a6 is recorded: black's pawn on d4 cannot take the
    e-pawn en passant on e3, although that pawn has just passed e3.  The
    recorded target is not reserved for the opposing color either: black's
    own pawn may step b7-a6 onto it. *)
Lemma double_advance_keeps_one_target :
  let board := positionToBoard (position doubleAdvanceRound) in
  let gs := gameStateOf doubleAdvanceRound in
  pieceAt (position doubleAdvanceRound) "e4" = Some "wPe"
  /\ pieceAt (position doubleAdvanceRound) "a5" = Some "bPa"
  /\ enPassantTarget doubleAdvanceRound = Some "a6"
  /\ isLegalMove board "d4" "e3" "bP" gs = false
  /\ isLegalMove board "b5" "a6" "wP" gs = true
  /\ isLegalMove board "b7" "a6" "bP" gs = true.
Proof. vm_compute. repeat split; reflexivity. Qed.

(** C5, amended.  The game has a single en-passant target, and a round
    resolution rewrites it from the two moves of that round alone,
    whatever it held before: the square black's pawn passed over if black
    made a double pawn advance; otherwise the square white's pawn passed
    over if white made one; otherwise null.  So of two double advances in
    one round only black's is recorded, a lone advance of either color is
    recorded, and a target lasts until the next resolution. *)
Theorem en_passant_single_target (game : Game) (whiteMove blackMove : Move) :
  let board := positionToBoard (position game) in
  let whiteFrom := squareToCoords (from whiteMove) in
  let blackFrom := squareToCoords (from blackMove) in
  let whiteDouble := isDoubleAdvance (cellAt board whiteFrom) whiteFrom
                                     (squareToCoords (to whiteMove)) in
  let blackDouble := isDoubleAdvance (cellAt board blackFrom) blackFrom
                                     (squareToCoords (to blackMove)) in
  white (pendingMoves game) = Some whiteMove ->
  black (pendingMoves game) = Some blackMove ->
  exists game' result,
    processMoves game = Some (game', result)
    /\ enPassantTarget game'
       = if blackDouble
         then Some (coordsToSquare (mkCoords (rank blackFrom + 1) (file blackFrom)))
         else if whiteDouble
              then Some (coordsToSquare (mkCoords (rank whiteFrom - 1) (file whiteFrom)))
              else None.
Proof.
  intros board whiteFrom blackFrom whiteDouble blackDouble Hw Hb.
  unfold processMoves. rewrite Hw, Hb. eexists. eexists.
  split; [reflexivity|].
  cbn [enPassantTarget processRound]. unfold newEnPassantTarget.
  fold board whiteFrom blackFrom whiteDouble blackDouble.
  reflexivity.
Qed.

Lemma en_passant_single_target_witness :
  (exists game' result,
     processMoves doubleAdvancePending = Some (game', result)
     /\ enPassantTarget game' = Some "a6")
  /\ (exists game' result,
        processMoves loneAdvancePending = Some (game', result)
        /\ enPassantTarget game' = Some "e3")
  /\ (exists game' result,
        processMoves noAdvancePending = Some (game', result)
        /\ enPassantTarget game' = None).
Proof.
  split; [|split].
  - destruct (en_passant_single_target doubleAdvancePending
                (plainMove "e2" "e4") (plainMove "a7" "a5") eq_refl eq_refl)
      as [game' [result [Hrun Htarget]]].
    exists game', result. split; [exact Hrun|]. rewrite Htarget. reflexivity.
  - destruct (en_passant_single_target loneAdvancePending
                (plainMove "e2" "e4") (plainMove "b7" "b6") eq_refl eq_refl)
      as [game' [result [Hrun Htarget]]].
    exists game', result. split; [exact Hrun|]. rewrite Htarget. reflexivity.
  - destruct (en_passant_single_target noAdvancePending
                (plainMove "e1" "d1") (plainMove "e8" "d8") eq_refl eq_refl)
      as [game' [result [Hrun Htarget]]].
    exists game', result. split; [exact Hrun|]. rewrite Htarget. reflexivity.
Defined.

(** ** C6: the search of the repeat rule ignores check *)

(** C6.  After b1-c3 / a5-e5 white is in check and not checkmated, and the
    knight was moved last.  No other white piece has a move that leaves
    white out of check, so exception (b) of the specification holds; but the
    handler's search counts the king's steps to d1, d2, e2, f1, f2, which
    [isLegalMove] accepts, and refuses c3-e2 as a repeat.  Every other
    submission fails the still-in-check test: white has no acceptable
    move at all. *)
Theorem repeat_search_ignores_check :
  let board := positionToBoard (position pinnedDownRound) in
  let gs := gameStateOf pinnedDownRound in
  roundsResolved pinnedDownRound = 1%nat
  /\ gameResult pinnedDownRound = None
  /\ white (inCheck pinnedDownRound) = true
  /\ white (lastMovedPieces pinnedDownRound) = Some "wN1"
  /\ isCheckmate board W gs = false
  /\ isLegalMove board "c3" "e2" "wN" gs = true
  /\ isInCheck (tempMove board (squareToCoords "c3") (squareToCoords "e2") (Some "wN1"))
               (Some W) = false
  /\ noOtherEscape board W (Some "wN1") gs = true
  /\ hasOtherValidMoves board W (Some "wN1") gs = true
  /\ snd (submitMove whiteSocket 3 pinnedDownRound (plainMove "c3" "e2"))
     = rejected "Cannot move the same piece twice in a row"
  /\ forallb (fun f => forallb (fun t =>
                isRejection (snd (submitMove whiteSocket 3 pinnedDownRound (plainMove f t))))
              allSquares) allSquares = true.
Proof. vm_compute. repeat split; reflexivity. Qed.

(** ** C7: castling *)






(** ** C8: after a terminal result *)

(** C8.  The handlers never read [gameResult].  The round c1-c7 / h4-h3
    ends in a draw by stalemate, and [processMoves] stops the timers of the
    finished game.  Both players can still submit; their moves are
    accepted, a second round is resolved and the stored result is null
    again, while [timerRunning] stays false. *)
Theorem result_overwritten_after_draw :
  gameResult stalemateRound = Some draw
  /\ timerRunning stalemateRound = false
  /\ roundsResolved stalemateRound = 1%nat
  /\ isRejection (snd (submitMove whiteSocket 3 stalemateRound (plainMove "e1" "e2"))) = false
  /\ isRejection (snd (submitMove blackSocket 4
                         (fst (submitMove whiteSocket 3 stalemateRound (plainMove "e1" "e2")))
                         (plainMove "a8" "b8"))) = false
  /\ roundsResolved afterDraw = 2%nat
  /\ gameResult afterDraw = None
  /\ timerRunning afterDraw = false.
Proof. vm_compute. repeat split; reflexivity. Qed.

(** Only a checkmate closes the game, and not by a test of the result.
    When the round just resolved leaves a color in check and checkmated
    (the test [processMoves] makes on the new board), the game has a
    result, and no sequence of [submitMove] and [promotePawn] requests
    naming squares of the board resolves another round: every move of the
    checkmated color fails the still-in-check test, so the stored result,
    the move history and the position stay as they are. *)
Theorem checkmate_result_is_final
        (now : Z) (game : Game) (whiteMove blackMove : Move) (cn : ColorName)
        (reqs : list Request) :
  let newBoard := resolveBoard (positionToBoard (position game)) whiteMove blackMove in
  let ended := fst (resolveIfBoth now game) in
  wfPosition (position game) = true ->
  white (pendingMoves game) = Some whiteMove ->
  black (pendingMoves game) = Some blackMove ->
  isInCheck newBoard (Some (colorChar cn)) = true ->
  isCheckmate newBoard (colorChar cn) (gameStateOf ended) = true ->
  forallb wellAddressed reqs = true ->
  gameResult ended <> None
  /\ gameResult (serve ended reqs) = gameResult ended
  /\ moveHistory (serve ended reqs) = moveHistory ended
  /\ position (serve ended reqs) = position ended.
Proof.
  intros newBoard ended Hwf Hw Hb Hcheck Hmate Hreqs.
  destruct (round_ending_in_checkmate now game whiteMove blackMove cn Hwf Hw Hb Hcheck Hmate)
    as [Hflag [Hmate' [Hpend Hresult]]].
  fold ended in Hflag, Hmate', Hpend, Hresult.
  destruct (mated_game_serve cn reqs ended Hflag Hmate' Hpend Hreqs) as [Hsame _].
  unfold roundState in Hsame.
  injection Hsame as Hpos _ _ _ _ Hhist Hres.
  split; [exact Hresult|]. split; [exact Hres|]. split; [exact Hhist|exact Hpos].
Qed.

Lemma checkmate_result_is_final_witness :
  let ended := fst (resolveIfBoth 2 backRankPending) in
  gameResult ended = Some blackWins
  /\ gameResult ended <> None
  /\ gameResult (serve ended afterMateRequests) = gameResult ended
  /\ moveHistory (serve ended afterMateRequests) = moveHistory ended
  /\ position (serve ended afterMateRequests) = position ended.
Proof.
  intros ended. split; [vm_compute; reflexivity|].
  apply (checkmate_result_is_final 2 backRankPending (plainMove "a2" "a3")
           (plainMove "e8" "e1") White afterMateRequests);
    vm_compute; reflexivity.
Defined.

(** ** C9: what a rejected submission changes *)

(** C9 fails as stated.  In a room where nobody has moved yet white
    submits a move from the empty square e4: the move is rejected, but the
    game is now marked as started (and the room is told so). *)
Lemma rejected_submission_starts_game :
  let game := joinedGame 300 0 in
  let answer := submitMove whiteSocket 1 game (plainMove "e4" "e5") in
  gameStarted game = false
  /\ snd answer = [ToRoom "gameStarted" (PFlag true);
                   ToSocket "error" (PText "No piece at starting position")]
  /\ gameStarted (fst answer) = true
  /\ fst answer <> game.
Proof.
  vm_compute. repeat split; try reflexivity. intros H. discriminate H.
Qed.

(** C9, amended.  A rejected submission is answered by one ["error"] to
    the submitting socket.  A rejected [promotePawn] and a [submitMove]
    from a socket that is not a player leave the game as it was; a
    rejected [submitMove] of a player leaves every field as it was except
    [gameStarted], which [submitMove] sets before it validates (telling
    the room when the game had not started). *)
Theorem rejection_changes_only_gameStarted
        (socketId : string) (now : Z) (game : Game) (move : Move)
        (square pieceType : string) :
  (isRejection (snd (submitMove socketId now game move)) = true ->
   exists msg,
     match colorNameOf game socketId with
     | Some _ => submitMove socketId now game move
                 = (withStarted game true, startedNotice game ++ rejected msg)
     | None => submitMove socketId now game move = (game, rejected msg)
     end)
  /\ (isRejection (snd (promotePawn socketId now game square pieceType)) = true ->
      exists msg, promotePawn socketId now game square pieceType = (game, rejected msg)).
Proof.
  split.
  - unfold submitMove. fold (startedNotice game).
    destruct (colorNameOf game socketId) as [colorName|]; [|intros _; eexists; reflexivity].
    cbn [position withStarted].
    repeat match goal with
           | |- context [if ?c then (_, startedNotice game ++ rejected _) else _] =>
               destruct c; [intros _; eexists; reflexivity|]
           end.
    destruct (isPawnPromotion colorName _ move).
    + cbn [snd]. rewrite isRejection_app, isRejection_startedNotice. discriminate.
    + match goal with
      | |- context [resolveIfBoth now ?g] =>
          pose proof (resolveIfBoth_no_rejection now g) as Hres;
          destruct (resolveIfBoth now g) as [game3 out]
      end.
      cbn [snd] in *. rewrite !isRejection_app, isRejection_startedNotice, Hres.
      discriminate.
  - unfold promotePawn.
    destruct (colorNameOf game socketId) as [colorName|]; [|intros _; eexists; reflexivity].
    destruct (negb (isPromotionType pieceType)); [intros _; eexists; reflexivity|].
    destruct (ofColor colorName (pendingMoves game)) as [pendingMove|];
      [|intros _; eexists; reflexivity].
    repeat match goal with
           | |- context [if ?c then (game, rejected _) else _] =>
               destruct c; [intros _; eexists; reflexivity|]
           end.
    match goal with
    | |- context [resolveIfBoth now ?g] =>
        pose proof (resolveIfBoth_no_rejection now g) as Hres;
        destruct (resolveIfBoth now g) as [game3 out]
    end.
    cbn [snd] in *. rewrite !isRejection_app, Hres. discriminate.
Qed.

Lemma rejection_changes_only_gameStarted_witness :
  let game := joinedGame 300 0 in
  (exists msg, submitMove whiteSocket 1 game (plainMove "e4" "e5")
               = (withStarted game true, startedNotice game ++ rejected msg))
  /\ (exists msg, promotePawn whiteSocket 1 game "a8" "Q" = (game, rejected msg)).
Proof.
  intros game.
  destruct (rejection_changes_only_gameStarted whiteSocket 1 game (plainMove "e4" "e5")
              "a8" "Q") as [Hsubmit Hpromote].
  split.
  - apply Hsubmit. vm_compute. reflexivity.
  - apply Hpromote. vm_compute. reflexivity.
Defined.

(** ** C10: submissions of a color not flagged as in check *)

(** The round a resolution computes depends on the game only through its
    round state. *)
Lemma roundState_processRound (g g' : Game) (wm bm : Move) :
  roundState g' = roundState g ->
  roundState (processRound g' wm bm) = roundState (processRound g wm bm).
Proof.
  unfold roundState. intros H. injection H as Hp _ Hr _ _ Hh _.
  unfold processRound. cbn. now rewrite Hp, Hr, Hh.
Qed.

(** C10.  A player whose color is not flagged as in check submits a move
    of its own piece that [isLegalMove] accepts and that is not the piece
    it moved last: the submission is not rejected (it is acknowledged with
    ["moveAccepted"], or with ["promotionNeeded"] for a pawn reaching the
    last rank), whatever the move does to the player's own king, and the
    move is taken into the round.  While the opponent has no pending move,
    or when the move awaits a promotion choice, it is stored as the
    color's pending move and the board stays as it was; otherwise the
    round is resolved with this move against the opponent's pending move
    and the pending moves are reset. *)
Theorem unflagged_submission_accepted
        (socketId : string) (now : Z) (game : Game) (move : Move)
        (colorName : ColorName) (p : string) :
  let board := positionToBoard (position game) in
  colorNameOf game socketId = Some colorName ->
  ofColor colorName (inCheck game) = false ->
  cellAt board (squareToCoords (from move)) = Some p ->
  charAt 0 p = Some (colorChar colorName) ->
  cellEq (Some p) (ofColor colorName (lastMovedPieces game)) = false ->
  isLegalMove board (from move) (to move) (basicPiece p) (gameStateOf game) = true ->
  let out := snd (submitMove socketId now game move) in
  let after := fst (submitMove socketId now game move) in
  let stored := pendingMoves after = setColor colorName (Some move) (pendingMoves game)
                /\ roundState after = roundState game in
  isRejection out = false
  /\ (In (ToSocket "moveAccepted" (PFlag true)) out
      \/ In (ToSocket "promotionNeeded" (PSquare (to move))) out)
  /\ match ofColor (otherColor colorName) (pendingMoves game) with
     | None => stored
     | Some reply =>
         if isPawnPromotion colorName (Some p) move then stored
         else pendingMoves after = nobody
              /\ roundState after
                 = roundState (match colorName with
                               | White => processRound game move reply
                               | Black => processRound game reply move
                               end)
     end.
Proof.
  intros board Hcn Hflag Hp Hcol Hlast Hlegal.
  assert (Htruthy : truthy (Some p) = true).
  { destruct p; [discriminate Hcol|reflexivity]. }
  unfold submitMove. rewrite Hcn. fold (startedNotice game).
  cbn [position withStarted]. fold board. rewrite Hp, Htruthy.
  cbn [negb cellChar orb]. rewrite Hcol.
  assert (Hown : isChar (Some (colorChar colorName)) (colorChar colorName) = true).
  { unfold isChar, jsCharEq. apply Ascii.eqb_refl. }
  rewrite Hown. cbn [negb].
  unfold repeatRefused.
  unfold gameStateOf in *.
  cbn [withStarted lastMovedPieces inCheck castlingRights enPassantTarget pendingMoves].
  rewrite Hlast, Hlegal, Hflag. cbn [negb andb].
  set (pending := setColor colorName (Some move) (pendingMoves game)).
  set (game1 := withPending _ pending).
  assert (Hstored : pendingMoves game1 = pending /\ roundState game1 = roundState game)
    by (split; reflexivity).
  destruct (isPawnPromotion colorName (Some p) move).
  - cbn [snd fst]. rewrite isRejection_app, isRejection_startedNotice.
    split; [reflexivity|]. split; [right; apply in_or_app; right; now left|].
    now destruct (ofColor (otherColor colorName) (pendingMoves game)).
  - assert (Hpend2 : pendingMoves (checkTimerStatus game1) = pending)
      by (now rewrite pendingMoves_checkTimerStatus).
    assert (Hround2 : roundState (checkTimerStatus game1) = roundState game)
      by (now rewrite roundState_checkTimerStatus).
    pose proof (resolveIfBoth_no_rejection now (checkTimerStatus game1)) as Hres.
    destruct (ofColor (otherColor colorName) (pendingMoves game)) as [reply|] eqn:Eo.
    + assert (Hrun : resolveIfBoth now (checkTimerStatus game1)
                     = (fst (resolveIfBoth now (checkTimerStatus game1)),
                        snd (resolveIfBoth now (checkTimerStatus game1))))
        by (now destruct (resolveIfBoth now (checkTimerStatus game1))).
      rewrite Hrun. cbn [snd fst].
      rewrite !isRejection_app, isRejection_startedNotice, Hres.
      split; [reflexivity|]. split; [left; apply in_or_app; right; now left|].
      unfold resolveIfBoth, processMoves. rewrite Hpend2. unfold pending.
      destruct colorName; cbn [otherColor ofColor setColor white black] in *;
        rewrite Eo; cbn [isSome andb fst];
        (split; [reflexivity|]);
        cbn [withTimers withPending]; unfold roundState at 1;
        cbn [position inCheck castlingRights enPassantTarget lastMovedPieces moveHistory
             gameResult withTimers withPending];
        apply roundState_processRound; exact Hround2.
    + rewrite (resolveIfBoth_waits now _ (otherColor colorName)).
      * cbn [snd fst]. rewrite !isRejection_app, isRejection_startedNotice.
        split; [reflexivity|]. split; [left; apply in_or_app; right; now left|].
        split; [exact Hpend2|exact Hround2].
      * rewrite Hpend2. unfold pending.
        destruct colorName; cbn [otherColor ofColor setColor white black] in *; exact Eo.
Qed.

Lemma unflagged_submission_accepted_witness :
  let board := positionToBoard (position shieldGame) in
  let move := plainMove "e2" "a2" in
  let out := snd (submitMove whiteSocket 1 shieldGame move) in
  let after := fst (submitMove whiteSocket 1 shieldGame move) in
  let resolved := fst (submitMove whiteSocket 1 shieldAnswered move) in
  isInCheck board (Some W) = false
  /\ isInCheck (tempMove board (squareToCoords "e2") (squareToCoords "a2") (Some "wR1"))
               (Some W) = true
  /\ (isRejection out = false
      /\ (In (ToSocket "moveAccepted" (PFlag true)) out
          \/ In (ToSocket "promotionNeeded" (PSquare "a2")) out)
      /\ pendingMoves after = mkPerColor (Some move) None
      /\ roundState after = roundState shieldGame)
  /\ (pendingMoves resolved = nobody
      /\ roundState resolved
         = roundState (processRound shieldAnswered move (plainMove "h8" "g8"))
      /\ pieceAt (position (processRound shieldAnswered move (plainMove "h8" "g8"))) "a2"
         = Some "wR1"
      /\ white (inCheck (processRound shieldAnswered move (plainMove "h8" "g8"))) = true).
Proof.
  intros board move out after resolved.
  split; [vm_compute; reflexivity|].
  split; [vm_compute; reflexivity|].
  split.
  - destruct (unflagged_submission_accepted whiteSocket 1 shieldGame move White "wR1")
      as [Hout [Hack Hstored]]; try (vm_compute; reflexivity).
    split; [exact Hout|]. split; [exact Hack|]. exact Hstored.
  - destruct (unflagged_submission_accepted whiteSocket 1 shieldAnswered move White "wR1")
      as [_ [_ [Hpending Hround]]]; try (vm_compute; reflexivity).
    split; [exact Hpending|]. split; [exact Hround|].
    split; vm_compute; reflexivity.
Defined.

(** ** boardUtils: round trips *)

(** X1.  [squareToCoords] and [coordsToSquare] are inverse to each other
    between the 64 square names and the 64 coordinates of the board. *)
Theorem square_names_round_trip (s : string) (c : Coords) :
  (validSquare s = true ->
   onBoard (squareToCoords s) = true /\ coordsToSquare (squareToCoords s) = s)
  /\ (onBoard c = true ->
      validSquare (coordsToSquare c) = true /\ squareToCoords (coordsToSquare c) = c).
Proof.
  split; intros H.
  - split; [now apply validSquare_onBoard|now apply square_of_coords].
  - split; [now apply coordsToSquare_valid|now apply coords_of_square].
Qed.

Lemma square_names_round_trip_witness :
  (onBoard (squareToCoords "e4") = true /\ coordsToSquare (squareToCoords "e4") = "e4")
  /\ (validSquare (coordsToSquare (mkCoords 4 4)) = true
      /\ squareToCoords (coordsToSquare (mkCoords 4 4)) = mkCoords 4 4).
Proof.
  destruct (square_names_round_trip "e4" (mkCoords 4 4)) as [H1 H2].
  split; [apply H1|apply H2]; reflexivity.
Defined.

(** X2.  An 8x8 board whose cells are null or truthy strings is rebuilt
    exactly from its position: [positionToBoard (boardToPosition b) = b]. *)
Theorem board_position_round_trip (b : Board) :
  shaped b -> cleanBoard b -> positionToBoard (boardToPosition b) = b.
Proof. apply positionToBoard_boardToPosition. Qed.

Lemma board_position_round_trip_witness :
  positionToBoard (boardToPosition (positionToBoard getStartingPosition))
  = positionToBoard getStartingPosition.
Proof.
  apply board_position_round_trip.
  - apply positionToBoard_shaped.
  - apply wfBoard_clean, positionToBoard_wf. reflexivity.
Defined.

Lemma pieceAt_absent (pos : Position) (sq : string) :
  ~ In sq (map fst pos) -> pieceAt pos sq = None.
Proof.
  induction pos as [|[k v] rest IH]; intros H; [reflexivity|].
  cbn [pieceAt]. destruct (String.eqb k sq) eqn:E.
  - apply String.eqb_eq in E. subst. exfalso. apply H. now left.
  - apply IH. intros Hin. apply H. now right.
Qed.

Lemma distinctKeys_absent (k : string) (rest : list string) :
  existsb (String.eqb k) rest = false -> ~ In k rest.
Proof.
  intros H Hin. assert (existsb (String.eqb k) rest = true); [|congruence].
  apply existsb_exists. exists k. split; [exact Hin|apply String.eqb_refl].
Qed.

Lemma cellAt_fold_entries (pos : Position) (acc : Board) (sq : string) :
  properPosition pos = true -> shaped acc -> validSquare sq = true ->
  cellAt (fold_left (fun board '(square, piece) =>
                       putAt board (squareToCoords square) (Some piece)) pos acc)
         (squareToCoords sq)
  = match pieceAt pos sq with
    | Some v => Some v
    | None => cellAt acc (squareToCoords sq)
    end.
Proof.
  revert acc. induction pos as [|[k v] rest IH]; intros acc Hpos Hacc Hsq; [reflexivity|].
  unfold properPosition in Hpos. cbn [map fst snd distinctKeys forallb] in Hpos.
  repeat rewrite andb_true_iff in Hpos. destruct Hpos as [[Hnotin Hnd] [[Hk Hv] Hall]].
  apply negb_true_iff in Hnotin. apply distinctKeys_absent in Hnotin.
  cbn [fold_left pieceAt].
  rewrite IH; [|unfold properPosition; now rewrite Hnd, Hall|now apply putAt_shaped|assumption].
  destruct (String.eqb k sq) eqn:E.
  - apply String.eqb_eq in E. subst k.
    rewrite (pieceAt_absent rest sq Hnotin).
    apply cellAt_putAt_same; [assumption|now apply validSquare_onBoard].
  - destruct (pieceAt rest sq); [reflexivity|].
    apply cellAt_putAt_other. intros Heq.
    apply String.eqb_neq in E. apply E. now apply squareToCoords_inj.
Qed.

Lemma pieceAt_truthy (pos : Position) (sq v : string) :
  properPosition pos = true -> pieceAt pos sq = Some v -> truthyStr v = true.
Proof.
  unfold properPosition. intros Hpos. apply andb_true_iff in Hpos. destruct Hpos as [_ Hall].
  induction pos as [|[k w] rest IH]; [discriminate|].
  cbn [forallb fst snd] in Hall. repeat rewrite andb_true_iff in Hall.
  destruct Hall as [[Hk Hv] Hall]. cbn [pieceAt].
  destruct (String.eqb k sq); [intros H; injection H as <-; exact Hv|now apply IH].
Qed.

(** X3.  Converting a position to a board and back loses nothing: every
    square reads the same in [boardToPosition (positionToBoard pos)] as in
    [pos], when [pos] has one entry per key, keys that name squares and
    truthy pieces. *)
Theorem position_board_round_trip (pos : Position) (sq : string) :
  properPosition pos = true -> validSquare sq = true ->
  pieceAt (boardToPosition (positionToBoard pos)) sq = pieceAt pos sq.
Proof.
  intros Hpos Hsq. rewrite pieceAt_boardToPosition by assumption.
  unfold positionToBoard.
  rewrite cellAt_fold_entries; [|assumption|apply emptyBoard_shaped|assumption].
  destruct (pieceAt pos sq) as [v|] eqn:E.
  - cbn [truthy]. now rewrite (pieceAt_truthy pos sq v Hpos E).
  - assert (Hempty : cellAt emptyBoard (squareToCoords sq) = None).
    { pose proof (validSquare_onBoard sq Hsq) as Hon. apply onBoard_cases in Hon.
      cbv [allCoords range8 flat_map map app] in Hon.
      repeat (destruct Hon as [Hon | Hon]; [rewrite <- Hon; reflexivity|]). contradiction. }
    rewrite Hempty. reflexivity.
Qed.

Lemma position_board_round_trip_witness :
  pieceAt (boardToPosition (positionToBoard getStartingPosition)) "e2" = Some "wPe"
  /\ pieceAt (boardToPosition (positionToBoard getStartingPosition)) "e4" = None.
Proof.
  split.
  - rewrite (position_board_round_trip getStartingPosition "e2"); reflexivity.
  - rewrite (position_board_round_trip getStartingPosition "e4"); reflexivity.
Defined.

(** ** gameLogic: kings, check and the geometry of moves *)

(** What [findKing] finds. *)
Lemma findKing_cases (board : Board) (color : jsChar) :
  (forall sq, findKing board color = Some sq ->
              validSquare sq = true
              /\ isKingOf color (cellAt board (squareToCoords sq)) = true)
  /\ (findKing board color = None ->
      forall c, onBoard c = true -> isKingOf color (cellAt board c) = false).
Proof.
  assert (Hdef : findKing board color
                 = match find (fun c => isKingOf color (cellAt board c)) allCoords with
                   | Some c => Some (coordsToSquare c)
                   | None => None
                   end) by reflexivity.
  rewrite Hdef. clear Hdef.
  destruct (find (fun c => isKingOf color (cellAt board c)) allCoords) as [c|] eqn:E;
    cbv beta iota.
  - apply find_some in E. destruct E as [Hin Hking].
    pose proof (allCoords_onBoard c Hin) as Hon. split; [|discriminate].
    intros sq H. injection H as <-. split; [now apply coordsToSquare_valid|].
    now rewrite coords_of_square.
  - split; [discriminate|]. intros _ c Hon.
    apply (find_none _ _ E). now apply onBoard_cases.
Qed.

(** X4.  [findKing] answers with the name of a square of the board that
    holds the king of the color, and answers null only when no square of
    the board holds one. *)
Theorem findKing_spec (board : Board) (color : jsChar) :
  (forall sq, findKing board color = Some sq ->
              validSquare sq = true
              /\ isKingOf color (cellAt board (squareToCoords sq)) = true)
  /\ (findKing board color = None ->
      forall c, onBoard c = true -> isKingOf color (cellAt board c) = false).
Proof. exact (findKing_cases board color). Qed.

Lemma findKing_spec_witness :
  validSquare "e1" = true
  /\ isKingOf (Some W) (cellAt (positionToBoard getStartingPosition) (squareToCoords "e1")) = true.
Proof.
  destruct (findKing_spec (positionToBoard getStartingPosition) (Some W)) as [Hsome _].
  apply Hsome. reflexivity.
Defined.

(** X5.  A color is in check only if its king stands on a square of the
    board that the other color attacks; a color without a king is neither
    in check nor checkmated. *)
Theorem check_needs_attacked_king (board : Board) (color : ascii) (gs : GameState) :
  (isInCheck board (Some color) = true ->
   exists sq, validSquare sq = true
              /\ isKingOf (Some color) (cellAt board (squareToCoords sq)) = true
              /\ isSquareUnderAttack board sq (opponentOf (Some color)) = true)
  /\ (doesKingExist board color = false ->
      isInCheck board (Some color) = false /\ isCheckmate board color gs = false).
Proof.
  destruct (findKing_cases board (Some color)) as [Hsome _].
  unfold isInCheck, isInCheck_with, isCheckmate, doesKingExist.
  unfold isInCheck, isInCheck_with.
  destruct (findKing board (Some color)) as [sq|].
  - split; [|discriminate]. intros H.
    destruct (truthyStr sq); [|discriminate].
    destruct (Hsome sq eq_refl) as [Hv Hk]. exists sq. auto.
  - split; [discriminate|]. intros _. split; reflexivity.
Qed.

Lemma check_needs_attacked_king_witness :
  isInCheck (positionToBoard [("e1", "wK")]) (Some B) = false
  /\ isCheckmate (positionToBoard [("e1", "wK")]) B dummyGameState = false.
Proof.
  destruct (check_needs_attacked_king (positionToBoard [("e1", "wK")]) B dummyGameState)
    as [_ Hnone].
  apply Hnone. reflexivity.
Defined.

(** X6.  Rook, bishop and queen: between two squares of the board a move
    is legal exactly when the destination does not hold a piece of the
    mover's color, the two squares share a rank or file (rook), a diagonal
    (bishop) or either (queen), and every square strictly between them is
    empty. *)
Theorem sliding_move_spec (board : Board) (f t : string) (color : ascii) (gs : GameState) :
  let fromC := squareToCoords f in
  let toC := squareToCoords t in
  let rankDiff := rank toC - rank fromC in
  let fileDiff := file toC - file fromC in
  let straight := (rankDiff =? 0) || (fileDiff =? 0) in
  let diagonal := Z.abs rankDiff =? Z.abs fileDiff in
  validSquare f = true -> validSquare t = true ->
  isLegalMove board f t (String color "R") gs
  = negb (ownPieceAt board toC color) && straight && pathFree board fromC toC
  /\ isLegalMove board f t (String color "B") gs
     = negb (ownPieceAt board toC color) && diagonal && pathFree board fromC toC
  /\ isLegalMove board f t (String color "Q") gs
     = negb (ownPieceAt board toC color) && (diagonal || straight) && pathFree board fromC toC.
Proof.
  intros fromC toC rankDiff fileDiff straight diagonal Hf Ht.
  pose proof (validSquare_onBoard f Hf) as Hof.
  pose proof (validSquare_onBoard t Ht) as Hot.
  fold fromC in Hof. fold toC in Hot.
  unfold isLegalMove, isLegalMove_with, ownPieceAt.
  cbn [charAt String.get isChar jsCharEq Ascii.eqb Bool.eqb].
  fold fromC toC.
  destruct (truthy (cellAt board toC) && jsCharEq (cellChar 0 (cellAt board toC)) (Some color));
    [repeat split; reflexivity|].
  cbn [negb andb].
  unfold rookLegal, bishopLegal, queenLegal. fold rankDiff fileDiff straight diagonal.
  assert (Hs : negb (rankDiff =? 0) && negb (fileDiff =? 0) = negb straight).
  { unfold straight. now rewrite negb_orb. }
  rewrite Hs. clear Hs.
  pose proof (slide_loop_spec board fromC toC Hof Hot) as Hloop.
  cbv zeta in Hloop. fold rankDiff fileDiff in Hloop.
  split; [|split].
  - destruct straight eqn:E; cbn [negb andb]; [|reflexivity].
    unfold straight in E. apply orb_true_iff in E. rewrite !Z.eqb_eq in E.
    destruct Hloop as [Hloop _]; [tauto|exact Hloop].
  - destruct diagonal eqn:E; cbn [negb andb]; [|reflexivity].
    unfold diagonal in E. apply Z.eqb_eq in E.
    destruct Hloop as [_ Hloop]; [tauto|exact (Hloop E)].
  - destruct diagonal eqn:E; cbn [negb andb orb].
    + unfold diagonal in E. apply Z.eqb_eq in E.
      destruct Hloop as [Hloop _]; [tauto|exact Hloop].
    + destruct straight eqn:E'; cbn [negb andb]; [|reflexivity].
      unfold straight in E'. apply orb_true_iff in E'. rewrite !Z.eqb_eq in E'.
      destruct Hloop as [Hloop _]; [tauto|exact Hloop].
Qed.

Lemma sliding_move_spec_witness :
  let board := positionToBoard [("a1", "wR1"); ("a4", "bPa"); ("e1", "wK")] in
  isLegalMove board "a1" "a4" "wR" dummyGameState = true
  /\ isLegalMove board "a1" "a5" "wR" dummyGameState = false
  /\ isLegalMove board "a1" "e1" "wR" dummyGameState = false.
Proof.
  intros board.
  destruct (sliding_move_spec board "a1" "a4" W dummyGameState eq_refl eq_refl) as [H1 _].
  destruct (sliding_move_spec board "a1" "a5" W dummyGameState eq_refl eq_refl) as [H2 _].
  destruct (sliding_move_spec board "a1" "e1" W dummyGameState eq_refl eq_refl) as [H3 _].
  split; [|split].
  - etransitivity; [exact H1|]. vm_compute. reflexivity.
  - etransitivity; [exact H2|]. vm_compute. reflexivity.
  - etransitivity; [exact H3|]. vm_compute. reflexivity.
Defined.

(** X7.  A legal move goes to another square and never onto a piece of the
    mover's color: with the mover's own piece on the source square, a move
    whose destination is the source square is never legal. *)
Theorem legal_move_displaces (board : Board) (f t piece p : string) (gs : GameState) :
  cellAt board (squareToCoords f) = Some p ->
  truthyStr p = true ->
  charAt 0 p = charAt 0 piece ->
  isLegalMove board f t piece gs = true ->
  squareToCoords t <> squareToCoords f
  /\ (forall d, cellAt board (squareToCoords t) = Some d -> truthyStr d = true ->
                charAt 0 d <> charAt 0 piece).
Proof.
  intros Hp Ht Hc Hlegal. pose proof (legal_destination _ _ _ _ _ _ Hlegal) as Hd.
  split.
  - intros Heq. rewrite Heq, Hp in Hd. cbn [truthy cellChar] in Hd.
    rewrite Ht, Hc in Hd. cbn [andb] in Hd.
    destruct (charAt 0 piece) as [a|]; cbn [jsCharEq] in Hd; [|discriminate].
    now rewrite Ascii.eqb_refl in Hd.
  - intros d Hcell Hdt Heq. rewrite Hcell in Hd. cbn [truthy cellChar] in Hd.
    rewrite Hdt, Heq in Hd. cbn [andb] in Hd.
    destruct (charAt 0 piece) as [a|]; cbn [jsCharEq] in Hd; [|discriminate].
    now rewrite Ascii.eqb_refl in Hd.
Qed.

Lemma legal_move_displaces_witness :
  squareToCoords "e4" <> squareToCoords "e2".
Proof.
  apply (legal_move_displaces (positionToBoard getStartingPosition) "e2" "e4" "wP" "wPe"
                              dummyGameState); reflexivity.
Defined.

(** The shapes of a legal pawn move, read off the pawn branch of
    [isLegalMove]. *)
Lemma pawn_move_cases (board : Board) (f t : string) (color : ascii) (gs : GameState) :
  let fromC := squareToCoords f in
  let toC := squareToCoords t in
  let rankDiff := rank toC - rank fromC in
  let fileDiff := file toC - file fromC in
  let direction := if Ascii.eqb color W then -1 else 1 in
  let startRank := if Ascii.eqb color W then 6 else 1 in
  isLegalMove board f t (String color "P") gs = true ->
  (fileDiff = 0 /\ truthy (cellAt board toC) = false
   /\ (rankDiff = direction
       \/ (rankDiff = 2 * direction /\ rank fromC = startRank
           /\ truthy (getCell board (rank fromC + direction) (file fromC)) = false)))
  \/ (Z.abs fileDiff = 1 /\ rankDiff = direction
      /\ (truthy (cellAt board toC) = true
          \/ (truthy (cellAt board toC) = false
              /\ exists target, gs_enPassantTarget gs = Some target
                                /\ squareToCoords target = toC))).
Proof.
  intros fromC toC rankDiff fileDiff direction startRank.
  unfold isLegalMove, isLegalMove_with.
  cbn [charAt String.get isChar jsCharEq Ascii.eqb Bool.eqb].
  fold fromC toC.
  destruct (truthy (cellAt board toC) && jsCharEq (cellChar 0 (cellAt board toC)) (Some color));
    [discriminate|].
  unfold pawnLegal, isChar, jsCharEq. fold rankDiff fileDiff direction startRank.
  destruct (fileDiff =? 0) eqn:E0.
  - apply Z.eqb_eq in E0. cbn [andb].
    destruct (truthy (cellAt board toC)) eqn:Ed; cbn [negb andb].
    + rewrite E0. cbn. rewrite ?andb_false_r. discriminate.
    + destruct (rankDiff =? direction) eqn:E1.
      * apply Z.eqb_eq in E1. intros _. left. auto.
      * destruct ((rankDiff =? 2 * direction) && (rank fromC =? startRank)) eqn:E2.
        -- apply andb_true_iff in E2. destruct E2 as [E2 E3].
           apply Z.eqb_eq in E2, E3.
           destruct (truthy (getCell board (rank fromC + direction) (file fromC))) eqn:Em;
             cbn [negb].
           ++ rewrite E0. cbn. rewrite ?andb_false_r. discriminate.
           ++ intros _. left. split; [exact E0|]. split; [reflexivity|]. right. auto.
        -- rewrite E0. cbn. rewrite ?andb_false_r. discriminate.
  - cbn [andb].
    destruct ((Z.abs fileDiff =? 1) && (rankDiff =? direction)) eqn:E1;
      [|cbn [andb]; discriminate].
    apply andb_true_iff in E1. destruct E1 as [E1 E2]. apply Z.eqb_eq in E1, E2.
    cbn [andb]. intros H. right. split; [exact E1|]. split; [exact E2|].
    destruct (truthy (cellAt board toC)) eqn:Ed; [now left|].
    right. split; [reflexivity|]. cbn [negb andb] in H.
    destruct (gs_enPassantTarget gs) as [target|]; [|discriminate].
    destruct (truthy (Some target)); [|discriminate].
    exists target. split; [reflexivity|].
    apply andb_true_iff in H. destruct H as [H1 H2]. apply Z.eqb_eq in H1, H2.
    destruct (squareToCoords target) as [r' f'], toC as [r'' f'']. cbn [rank file] in *.
    now subst.
Qed.

(** X8.  Pawns only go forward (white towards rank 8, black towards
    rank 1).  A legal pawn move is a step straight ahead onto an empty
    square, a double step from the starting rank over an empty square onto
    an empty square, or a one-step diagonal onto an occupied square or
    onto the empty en-passant target. *)
Theorem pawn_move_shape (board : Board) (f t : string) (color : ascii) (gs : GameState) :
  let fromC := squareToCoords f in
  let toC := squareToCoords t in
  let rankDiff := rank toC - rank fromC in
  let fileDiff := file toC - file fromC in
  let direction := if Ascii.eqb color W then -1 else 1 in
  let startRank := if Ascii.eqb color W then 6 else 1 in
  isLegalMove board f t (String color "P") gs = true ->
  (fileDiff = 0 /\ truthy (cellAt board toC) = false
   /\ (rankDiff = direction
       \/ (rankDiff = 2 * direction /\ rank fromC = startRank
           /\ truthy (getCell board (rank fromC + direction) (file fromC)) = false)))
  \/ (Z.abs fileDiff = 1 /\ rankDiff = direction
      /\ (truthy (cellAt board toC) = true
          \/ (truthy (cellAt board toC) = false
              /\ exists target, gs_enPassantTarget gs = Some target
                                /\ squareToCoords target = toC))).
Proof. exact (pawn_move_cases board f t color gs). Qed.

Lemma pawn_move_shape_witness :
  let board := positionToBoard getStartingPosition in
  let fromC := squareToCoords "e2" in
  let toC := squareToCoords "e4" in
  (file toC - file fromC = 0 /\ truthy (cellAt board toC) = false
   /\ (rank toC - rank fromC = -1
       \/ (rank toC - rank fromC = 2 * -1 /\ rank fromC = 6
           /\ truthy (getCell board (rank fromC + -1) (file fromC)) = false)))
  \/ (Z.abs (file toC - file fromC) = 1 /\ rank toC - rank fromC = -1
      /\ (truthy (cellAt board toC) = true
          \/ (truthy (cellAt board toC) = false
              /\ exists target, gs_enPassantTarget dummyGameState = Some target
                                /\ squareToCoords target = toC))).
Proof.
  apply (pawn_move_shape (positionToBoard getStartingPosition) "e2" "e4" W dummyGameState).
  reflexivity.
Defined.

(** ** gameLogic: castling as executed and the frame of a round *)

Lemma coords_neq_pair (c : Coords) (r f : Z) :
  c <> mkCoords r f -> (r, f) <> (rank c, file c).
Proof. intros H Heq. apply H. destruct c. cbn in Heq. now inversion Heq. Qed.

Lemma cellAt_setCell_other (b : Board) (r f : Z) (v : Cell) (c : Coords) :
  c <> mkCoords r f -> cellAt (setCell b r f v) c = cellAt b c.
Proof. intros H. unfold cellAt. apply getCell_setCell_other. now apply coords_neq_pair. Qed.

Lemma handleCastling_other (b : Board) (color : ascii) (move : Move) (c : Coords) :
  let fromC := squareToCoords (from move) in
  c <> fromC -> c <> squareToCoords (to move) ->
  c <> mkCoords (rank fromC) 0 -> c <> mkCoords (rank fromC) 3 ->
  c <> mkCoords (rank fromC) 5 -> c <> mkCoords (rank fromC) 7 ->
  cellAt (handleCastling b color move) c = cellAt b c.
Proof.
  intros fromC H1 H2 H3 H4 H5 H6. unfold handleCastling. fold fromC.
  destruct (file fromC <? file (squareToCoords (to move)));
    rewrite !cellAt_setCell_other by assumption;
    rewrite !cellAt_putAt_other by (intros E; symmetry in E; contradiction);
    reflexivity.
Qed.

Ltac pair_differs :=
  let E := fresh "E" in intros E; injection E; intros; lia.

(** X9.  Castling as executed: with the king on the e-file of rank [r],
    [handleCastling] empties e, writes the king (as color + K) onto g and
    moves whatever stands on h to f when the king goes to g; it writes the
    king onto c and moves whatever stands on a to d when the king goes to
    c.  Every other square keeps its cell. *)
Theorem handleCastling_spec (board : Board) (color : ascii) (move : Move) (r : Z) :
  shaped board -> 0 <= r < 8 ->
  squareToCoords (from move) = mkCoords r 4 ->
  let nb := handleCastling board color move in
  (squareToCoords (to move) = mkCoords r 6 ->
   getCell nb r 4 = None /\ getCell nb r 6 = Some (String color "K")
   /\ getCell nb r 5 = getCell board r 7 /\ getCell nb r 7 = None
   /\ forall r' f', (r' <> r \/ (f' <> 4 /\ f' <> 5 /\ f' <> 6 /\ f' <> 7)) ->
                    getCell nb r' f' = getCell board r' f')
  /\ (squareToCoords (to move) = mkCoords r 2 ->
      getCell nb r 4 = None /\ getCell nb r 2 = Some (String color "K")
      /\ getCell nb r 3 = getCell board r 0 /\ getCell nb r 0 = None
      /\ forall r' f', (r' <> r \/ (f' <> 4 /\ f' <> 3 /\ f' <> 2 /\ f' <> 0)) ->
                       getCell nb r' f' = getCell board r' f').
Proof.
  intros Hs Hr Hf nb.
  assert (Hon : forall f, 0 <= f < 8 -> onBoard (mkCoords r f) = true).
  { intros f Hfl. unfold onBoard. cbn [rank file].
    repeat (apply andb_true_iff; split); try apply Z.leb_le; try apply Z.ltb_lt; lia. }
  split; intros Ht; unfold nb, handleCastling, putAt; rewrite Hf, Ht; cbn [rank file];
    [change (4 <? 6) with true|change (4 <? 2) with false]; cbv beta iota zeta;
    rewrite ?(getCell_setCell_other (setCell board r 4 None) r 6 r 7) by pair_differs;
    rewrite ?(getCell_setCell_other (setCell board r 4 None) r 2 r 0) by pair_differs;
    rewrite ?(getCell_setCell_other board r 4 r 7) by pair_differs;
    rewrite ?(getCell_setCell_other board r 4 r 0) by pair_differs;
    (split; [|split; [|split; [|split]]]);
    try (intros r' f' Hne);
    rewrite ?getCell_setCell_other by pair_differs;
    try reflexivity;
    (apply getCell_setCell_same; [repeat apply setCell_shaped; exact Hs|apply Hon; lia]).
Qed.

Lemma handleCastling_spec_witness :
  getCell (handleCastling castleIntoAttackBoard W (plainMove "e1" "g1")) 7 5 = Some "wR2".
Proof.
  destruct (handleCastling_spec castleIntoAttackBoard W (plainMove "e1" "g1") 7
              (positionToBoard_shaped _) ltac:(lia) eq_refl) as [Hking _].
  destruct (Hking eq_refl) as (_ & _ & Hrook & _).
  rewrite Hrook. reflexivity.
Defined.

Lemma afterCastling_other (b : Board) (wm bm : Move) (c : Coords) :
  ~ In c (roundFootprint wm bm) -> cellAt (afterCastling b wm bm) c = cellAt b c.
Proof.
  intros H. unfold roundFootprint in H. cbn [map app In] in H.
  unfold afterCastling.
  repeat match goal with
         | |- context [if ?x then _ else _] => destruct x
         end;
    rewrite ?handleCastling_other; try reflexivity;
    intros E; apply H; rewrite E; tauto.
Qed.

Lemma afterEnPassant_other (b nb : Board) (wm bm : Move) (c : Coords) :
  ~ In c (roundFootprint wm bm) -> cellAt (afterEnPassant b nb wm bm) c = cellAt nb c.
Proof.
  intros H. unfold roundFootprint in H. cbn [map app In] in H.
  unfold afterEnPassant.
  repeat match goal with
         | |- context [if ?x then _ else _] => destruct x
         end;
    rewrite ?cellAt_setCell_other; try reflexivity;
    intros E; apply H; rewrite E; tauto.
Qed.

Lemma afterVacate_other (b nb : Board) (wm bm : Move) (c : Coords) :
  ~ In c (roundFootprint wm bm) -> cellAt (afterVacate b nb wm bm) c = cellAt nb c.
Proof.
  intros H. unfold roundFootprint in H. cbn [map app In] in H.
  unfold afterVacate.
  repeat match goal with
         | |- context [if ?x then _ else _] => destruct x
         end;
    rewrite ?cellAt_putAt_other; try reflexivity;
    intros E; apply H; rewrite <- E; tauto.
Qed.

Lemma placeMove_other (board nb : Board) (toC : Coords) (landing otherPiece : Cell)
      (otherMove : Move) (otherColor : ascii) (c : Coords) :
  c <> toC ->
  cellAt (placeMove board nb toC landing otherPiece otherMove otherColor) c = cellAt nb c.
Proof.
  intros H. unfold placeMove.
  repeat match goal with
         | |- context [if ?x then _ else _] => destruct x
         end;
    rewrite ?cellAt_putAt_other; try reflexivity;
    intros E; apply H; now rewrite E.
Qed.

(** X10.  The frame of a round: a square outside the footprint of the two
    moves (sources, destinations, the squares behind the destinations and
    the rook files a, d, f, h on the ranks of the sources) keeps its cell
    through [resolveBoard], whatever the moves are. *)
Theorem round_leaves_other_squares (board : Board) (whiteMove blackMove : Move) (c : Coords) :
  ~ In c (roundFootprint whiteMove blackMove) ->
  cellAt (resolveBoard board whiteMove blackMove) c = cellAt board c.
Proof.
  intros H. unfold resolveBoard.
  assert (Hw : c <> squareToCoords (to whiteMove)).
  { intros E. apply H. unfold roundFootprint. cbn [map app In]. rewrite E. tauto. }
  assert (Hb : c <> squareToCoords (to blackMove)).
  { intros E. apply H. unfold roundFootprint. cbn [map app In]. rewrite E. tauto. }
  destruct (String.eqb (to whiteMove) (to blackMove));
    rewrite ?placeMove_other by assumption;
    rewrite afterVacate_other, afterEnPassant_other, afterCastling_other by exact H;
    reflexivity.
Qed.

Lemma round_leaves_other_squares_witness :
  cellAt (resolveBoard (positionToBoard getStartingPosition)
                       (plainMove "e2" "e4") (plainMove "g8" "f6")) (squareToCoords "d1")
  = Some "wQ".
Proof.
  rewrite (round_leaves_other_squares (positionToBoard getStartingPosition)
             (plainMove "e2" "e4") (plainMove "g8" "f6") (squareToCoords "d1")).
  - reflexivity.
  - vm_compute. intros H.
    repeat (destruct H as [H|H]; [discriminate H|]). exact H.
Defined.

(** ** gameLogic: verdicts *)

Lemma isCheckmate_in_check (board : Board) (color : ascii) (gs : GameState) :
  isCheckmate board color gs = true -> isInCheck board (Some color) = true.
Proof. unfold isCheckmate. destruct (isInCheck board (Some color)); [reflexivity|discriminate]. Qed.

Lemma isStalemate_not_in_check (board : Board) (color : ascii) (gs : GameState) :
  isStalemate board color gs = true -> isInCheck board (Some color) = false.
Proof. unfold isStalemate. destruct (isInCheck board (Some color)); [discriminate|reflexivity]. Qed.

(** X11.  The verdict of a round without collision, read backwards: a win
    means the loser's king is gone while the winner's is there, or both
    kings are there and the loser is checkmated (for a white win, white is
    not); a draw means both kings are gone, or both are there, nobody is
    checkmated and somebody is stalemated; no verdict means both kings are
    there and nobody is checkmated or stalemated. *)
Theorem verdict_sound (newBoard : Board) (gs : GameState) :
  let verdict := terminalResult None newBoard gs in
  let kings := (doesKingExist newBoard W, doesKingExist newBoard B) in
  (verdict = Some whiteWins ->
   kings = (true, false)
   \/ (kings = (true, true) /\ isCheckmate newBoard W gs = false
       /\ isCheckmate newBoard B gs = true))
  /\ (verdict = Some blackWins ->
      kings = (false, true) \/ (kings = (true, true) /\ isCheckmate newBoard W gs = true))
  /\ (verdict = Some draw ->
      kings = (false, false)
      \/ (kings = (true, true) /\ isCheckmate newBoard W gs = false
          /\ isCheckmate newBoard B gs = false
          /\ (isStalemate newBoard W gs = true \/ isStalemate newBoard B gs = true)))
  /\ (verdict = None ->
      kings = (true, true) /\ isCheckmate newBoard W gs = false
      /\ isCheckmate newBoard B gs = false /\ isStalemate newBoard W gs = false
      /\ isStalemate newBoard B gs = false).
Proof.
  cbn zeta. unfold terminalResult, orElse, missingKingResult, checkmateResult, stalemateResult.
  pose proof (isCheckmate_in_check newBoard W gs) as MW.
  pose proof (isCheckmate_in_check newBoard B gs) as MB.
  pose proof (isStalemate_not_in_check newBoard W gs) as SW.
  pose proof (isStalemate_not_in_check newBoard B gs) as SB.
  destruct (doesKingExist newBoard W), (doesKingExist newBoard B);
    destruct (isCheckmate newBoard W gs), (isCheckmate newBoard B gs);
    destruct (isStalemate newBoard W gs), (isStalemate newBoard B gs);
    destruct (isInCheck newBoard (Some W)), (isInCheck newBoard (Some B));
    cbn [negb andb orb];
    try (specialize (MW eq_refl); discriminate MW);
    try (specialize (MB eq_refl); discriminate MB);
    try (specialize (SW eq_refl); discriminate SW);
    try (specialize (SB eq_refl); discriminate SB);
    (split; [|split; [|split]]); intros H; try discriminate H; clear H; auto 10.
Qed.

Lemma jsCharEq_refl (a : jsChar) : jsCharEq a a = true.
Proof. destruct a as [c|]; [apply Ascii.eqb_refl|reflexivity]. Qed.

(** No piece escapes by staying where it is: the destination would hold a
    piece of the mover's color. *)
Lemma escapesCheck_same_square (board : Board) (color : ascii) (gs : GameState) (c : Coords) :
  onBoard c = true -> escapesCheck board color gs c c = false.
Proof.
  intros Hon. unfold escapesCheck.
  destruct (cellAt board c) as [p|] eqn:Ec; [|reflexivity].
  destruct (isLegalMove board (coordsToSquare c) (coordsToSquare c) (basicPiece p) gs) eqn:El;
    [|now rewrite andb_false_r].
  apply legal_destination in El. rewrite (coords_of_square c Hon), Ec in El.
  cbn [truthy cellChar] in *. rewrite charAt0_basicPiece, jsCharEq_refl, andb_true_r in El.
  now rewrite El.
Qed.

(** X12.  Checkmate and stalemate run the same search: the filter
    [fromC <> toC] of [isStalemate] removes nothing, because a move onto
    the mover's own square is never legal.  So a color without an escaping
    move is checkmated when in check and stalemated otherwise, and never
    both. *)
Theorem stalemate_search_is_checkmate_search (board : Board) (color : ascii) (gs : GameState) :
  let noEscape :=
    negb (existsb (fun fromC =>
                     existsb (fun toC => escapesCheck board color gs fromC toC) allCoords)
                  allCoords) in
  isCheckmate board color gs = isInCheck board (Some color) && noEscape
  /\ isStalemate board color gs = negb (isInCheck board (Some color)) && noEscape.
Proof.
  cbn zeta. unfold isCheckmate, isStalemate. split.
  - now destruct (isInCheck board (Some color)).
  - destruct (isInCheck board (Some color)); [reflexivity|]. cbn [negb andb]. f_equal.
    apply existsb_ext_in. intros fromC Hf. apply existsb_ext_in. intros toC Ht.
    destruct (sameCoords fromC toC) eqn:Es; [|reflexivity].
    apply sameCoords_eq in Es. subst toC. cbn [negb andb]. symmetry.
    apply escapesCheck_same_square. now apply allCoords_onBoard.
Qed.

(** ** Round resolution: landings, collisions and en passant *)

Lemma coords_differ (s t : string) :
  validSquare s = true -> validSquare t = true -> s <> t ->
  squareToCoords s <> squareToCoords t.
Proof. intros Hs Ht Hne E. apply Hne. now apply squareToCoords_inj. Qed.

Lemma afterVacate_sources (b nb : Board) (wm bm : Move) :
  shaped nb ->
  (onBoard (squareToCoords (from wm)) = true ->
   cellAt (afterVacate b nb wm bm) (squareToCoords (from wm)) = None)
  /\ (onBoard (squareToCoords (from bm)) = true ->
      cellAt (afterVacate b nb wm bm) (squareToCoords (from bm)) = None).
Proof.
  intros Hs. unfold afterVacate. rewrite !cellEq_refl. split; intros Hon.
  - unfold putAt, cellAt. apply getCell_cleared.
    apply (cellAt_putAt_same nb _ None Hs Hon).
  - apply cellAt_putAt_same; [now apply putAt_shaped|exact Hon].
Qed.

(** X13.  Two legal moves with different destinations both land, captures
    included: after [processMoves] each moving piece (or what the move's
    promotion fields make of it) stands on its destination, and each
    source square is empty unless the other piece has landed there. *)
Theorem both_moves_land_and_vacate
        (game : Game) (whiteMove blackMove : Move) (wp bp : string) :
  let board := positionToBoard (position game) in
  wfPosition (position game) = true ->
  white (pendingMoves game) = Some whiteMove ->
  black (pendingMoves game) = Some blackMove ->
  validSquare (from whiteMove) = true -> validSquare (from blackMove) = true ->
  validSquare (to whiteMove) = true -> validSquare (to blackMove) = true ->
  cellAt board (squareToCoords (from whiteMove)) = Some wp -> charAt 0 wp = Some W ->
  cellAt board (squareToCoords (from blackMove)) = Some bp -> charAt 0 bp = Some B ->
  isLegalMove board (from whiteMove) (to whiteMove) (basicPiece wp) (gameStateOf game) = true ->
  isLegalMove board (from blackMove) (to blackMove) (basicPiece bp) (gameStateOf game) = true ->
  to whiteMove <> to blackMove ->
  exists game' result,
    processMoves game = Some (game', result)
    /\ pieceAt (position game') (to whiteMove) = promotedPiece W whiteMove (Some wp)
    /\ pieceAt (position game') (to blackMove) = promotedPiece B blackMove (Some bp)
    /\ (from whiteMove <> to blackMove -> pieceAt (position game') (from whiteMove) = None)
    /\ (from blackMove <> to whiteMove -> pieceAt (position game') (from blackMove) = None).
Proof.
  intros board Hwf Hpw Hpb Hfw Hfb Hvw Hvb Hw Hcw Hb Hcb Hlw Hlb Hne.
  unfold processMoves. rewrite Hpw, Hpb.
  eexists. eexists. split; [reflexivity|].
  cbn [position processRound].
  destruct (resolveBoard_lands game whiteMove blackMove wp bp
              Hwf Hvw Hvb Hw Hcw Hb Hcb Hlw Hlb Hne) as [Hlandw Hlandb].
  fold board in Hlandw, Hlandb.
  assert (Hokw : coloured wp = true) by (unfold coloured, isChar; now rewrite Hcw).
  assert (Hokb : coloured bp = true) by (unfold coloured, isChar; now rewrite Hcb).
  assert (Hshape : shaped board) by apply positionToBoard_shaped.
  assert (Hstay : forall f t p, cellAt board (squareToCoords f) = Some p -> coloured p = true ->
                                isLegalMove board f t (basicPiece p) (gameStateOf game) = true ->
                                squareToCoords f <> squareToCoords t).
  { intros f t p Hcell Hcol Hlegal E. apply legal_destination in Hlegal.
    rewrite <- E, Hcell in Hlegal. cbn [truthy cellChar] in Hlegal.
    rewrite charAt0_basicPiece, jsCharEq_refl, andb_true_r in Hlegal.
    now rewrite (coloured_truthy p Hcol) in Hlegal. }
  assert (Hsrc : forall c, onBoard c = true ->
                           c <> squareToCoords (to whiteMove) ->
                           c <> squareToCoords (to blackMove) ->
                           cellAt (afterVacate board (afterEnPassant board
                                                        (afterCastling board whiteMove blackMove)
                                                        whiteMove blackMove)
                                               whiteMove blackMove) c = None ->
                           cellAt (resolveBoard board whiteMove blackMove) c = None).
  { intros c Hon H1 H2 H3. unfold resolveBoard.
    rewrite (proj2 (String.eqb_neq _ _) Hne).
    now rewrite !placeMove_other by assumption. }
  destruct (afterVacate_sources board (afterEnPassant board
                                         (afterCastling board whiteMove blackMove)
                                         whiteMove blackMove) whiteMove blackMove)
    as [Hvacw Hvacb].
  { apply afterEnPassant_shaped, afterCastling_shaped, Hshape. }
  rewrite !pieceAt_boardToPosition by assumption.
  fold board. rewrite Hlandw, Hlandb.
  rewrite !promotedPiece_truthy by assumption.
  split; [reflexivity|]. split; [reflexivity|]. split; intros Hother.
  - rewrite Hsrc; [reflexivity|now apply validSquare_onBoard| |
                   |apply Hvacw; now apply validSquare_onBoard].
    + now apply (Hstay _ _ wp).
    + now apply coords_differ.
  - rewrite Hsrc; [reflexivity|now apply validSquare_onBoard| |
                   |apply Hvacb; now apply validSquare_onBoard].
    + now apply coords_differ.
    + now apply (Hstay _ _ bp).
Qed.

Lemma both_moves_land_and_vacate_witness :
  exists game' result,
    processMoves doubleAdvancePending = Some (game', result)
    /\ pieceAt (position game') "e4" = Some "wPe"
    /\ pieceAt (position game') "a5" = Some "bPa"
    /\ ("e2" <> "a5" -> pieceAt (position game') "e2" = None)
    /\ ("a7" <> "e4" -> pieceAt (position game') "a7" = None).
Proof.
  apply (both_moves_land_and_vacate
           doubleAdvancePending (plainMove "e2" "e4") (plainMove "a7" "a5") "wPe" "bPa");
    try (vm_compute; reflexivity).
  vm_compute. discriminate.
Defined.

(** X14.  A collision without castling removes both pieces: when two
    legal moves share their destination and neither is a castling move,
    the position after [processMoves] has no piece on the destination nor
    on either source square; a king that took part loses the game, two
    kings draw. *)
Theorem collision_removes_both_pieces
        (game : Game) (whiteMove blackMove : Move) (wp bp : string) :
  let board := positionToBoard (position game) in
  let whiteFrom := squareToCoords (from whiteMove) in
  let blackFrom := squareToCoords (from blackMove) in
  wfPosition (position game) = true ->
  white (pendingMoves game) = Some whiteMove ->
  black (pendingMoves game) = Some blackMove ->
  validSquare (from whiteMove) = true -> validSquare (from blackMove) = true ->
  validSquare (to whiteMove) = true ->
  cellAt board whiteFrom = Some wp -> charAt 0 wp = Some W ->
  cellAt board blackFrom = Some bp -> charAt 0 bp = Some B ->
  isLegalMove board (from whiteMove) (to whiteMove) (basicPiece wp) (gameStateOf game) = true ->
  isLegalMove board (from blackMove) (to blackMove) (basicPiece bp) (gameStateOf game) = true ->
  to whiteMove = to blackMove ->
  isCastlingMove (Some wp) whiteFrom (squareToCoords (to whiteMove)) = false ->
  isCastlingMove (Some bp) blackFrom (squareToCoords (to blackMove)) = false ->
  exists game' result,
    processMoves game = Some (game', result)
    /\ pieceAt (position game') (to whiteMove) = None
    /\ pieceAt (position game') (from whiteMove) = None
    /\ pieceAt (position game') (from blackMove) = None
    /\ (hasType (Some wp) "K" = true -> hasType (Some bp) "K" = true ->
        gameResult game' = Some draw)
    /\ (hasType (Some wp) "K" = true -> hasType (Some bp) "K" = false ->
        gameResult game' = Some blackWins)
    /\ (hasType (Some wp) "K" = false -> hasType (Some bp) "K" = true ->
        gameResult game' = Some whiteWins).
Proof.
  intros board whiteFrom blackFrom Hwf Hpw Hpb Hfw Hfb Hvw Hw Hcw Hb Hcb Hlw Hlb Hto Hnw Hnb.
  unfold processMoves. rewrite Hpw, Hpb.
  eexists. eexists. split; [reflexivity|].
  cbn [position processRound gameResult].
  destruct (collision_without_castling game whiteMove blackMove wp bp
              Hwf Hfw Hfb Hw Hcw Hb Hcb Hlw Hlb Hto Hnw Hnb) as (H1 & H2 & H3).
  fold board whiteFrom blackFrom in H1, H2, H3.
  rewrite !pieceAt_boardToPosition by assumption.
  fold board whiteFrom blackFrom. rewrite H1, H2, H3. cbn [truthy].
  split; [reflexivity|]. split; [reflexivity|]. split; [reflexivity|].
  unfold terminalResult, collisionResult. fold board whiteFrom blackFrom.
  rewrite Hw, Hb, Hto, String.eqb_refl.
  repeat split; intros Kw Kb; rewrite Kw, Kb; reflexivity.
Qed.

Lemma collision_removes_both_pieces_witness :
  exists game' result,
    processMoves collisionPending = Some (game', result)
    /\ pieceAt (position game') "f5" = None
    /\ pieceAt (position game') "d4" = None
    /\ pieceAt (position game') "c8" = None
    /\ (hasType (Some "wN1") "K" = true -> hasType (Some "bB1") "K" = true ->
        gameResult game' = Some draw)
    /\ (hasType (Some "wN1") "K" = true -> hasType (Some "bB1") "K" = false ->
        gameResult game' = Some blackWins)
    /\ (hasType (Some "wN1") "K" = false -> hasType (Some "bB1") "K" = true ->
        gameResult game' = Some whiteWins).
Proof.
  apply (collision_removes_both_pieces
           collisionPending (plainMove "d4" "f5") (plainMove "c8" "f5") "wN1" "bB1");
    vm_compute; reflexivity.
Defined.

Lemma basicPiece_chars (p : string) (a b : ascii) :
  charAt 0 p = Some a -> charAt 1 p = Some b -> basicPiece p = String a (String b "").
Proof.
  destruct p as [|x [|y rest]]; cbn; intros H1 H2; try discriminate.
  injection H1 as ->. injection H2 as ->. unfold basicPiece. cbn. now destruct rest.
Qed.

(** X15.  En passant as executed.  A legal diagonal step of a white pawn
    onto an empty square is a step onto the en-passant target; when that
    square lies on the sixth rank, [processMoves] empties the square
    behind it, and the square stays empty through the round unless
    black's move ends there. *)
Theorem en_passant_removes_passed_pawn
        (board : Board) (whiteMove blackMove : Move) (gs : GameState) (p : string) :
  let whiteFrom := squareToCoords (from whiteMove) in
  let whiteTo := squareToCoords (to whiteMove) in
  let behind := mkCoords (rank whiteTo + 1) (file whiteTo) in
  shaped board -> validSquare (to whiteMove) = true ->
  cellAt board whiteFrom = Some p -> charAt 0 p = Some W -> charAt 1 p = Some "P"%char ->
  isLegalMove board (from whiteMove) (to whiteMove) (basicPiece p) gs = true ->
  file whiteTo <> file whiteFrom -> cellAt board whiteTo = None -> rank whiteTo = 2 ->
  squareToCoords (to blackMove) <> behind ->
  (exists target, gs_enPassantTarget gs = Some target /\ squareToCoords target = whiteTo)
  /\ cellAt (resolveBoard board whiteMove blackMove) behind = None.
Proof.
  intros whiteFrom whiteTo behind Hs Hv Hp Hc Ht Hlegal Hfile Hdest Hrank Hblack.
  rewrite (basicPiece_chars p W "P" Hc Ht) in Hlegal.
  pose proof (pawn_move_cases board _ _ W gs Hlegal) as Hshape.
  cbn zeta in Hshape. fold whiteFrom whiteTo in Hshape.
  destruct Hshape as [[H0 _]|(H1 & H2 & H3)]; [lia|].
  split.
  - destruct H3 as [H3|[_ H3]]; [rewrite Hdest in H3; discriminate H3|exact H3].
  - assert (Hon : onBoard behind = true).
    { pose proof (validSquare_onBoard _ Hv) as Hon. fold whiteTo in Hon.
      unfold onBoard, behind in *. cbn [rank file]. rewrite Hrank in *.
      repeat rewrite andb_true_iff in Hon. destruct Hon as [[_ H4] H5].
      now rewrite H4, H5. }
    assert (Hcleared : cellAt (afterEnPassant board (afterCastling board whiteMove blackMove)
                                              whiteMove blackMove) behind = None).
    { unfold afterEnPassant. fold whiteFrom whiteTo. rewrite Hp, Hdest.
      assert (Htrue : hasType (Some p) "P" && (Z.abs (file whiteFrom - file whiteTo) =? 1)
                      && (rank whiteTo =? 2) && isNull None = true).
      { unfold hasType. cbn [truthy cellChar isNull]. rewrite Ht.
        assert (Hp0 : truthyStr p = true).
        { destruct p; [discriminate Hc|reflexivity]. }
        rewrite Hp0, Hrank. cbn [isChar jsCharEq andb].
        replace (Z.abs (file whiteFrom - file whiteTo)) with 1 by lia.
        reflexivity. }
      rewrite Htrue.
      match goal with
      | |- cellAt (if ?c then _ else _) _ = None => destruct c
      end.
      - unfold cellAt. apply getCell_cleared.
        apply getCell_setCell_same; [apply afterCastling_shaped, Hs|exact Hon].
      - unfold cellAt, behind. cbn [rank file].
        apply getCell_setCell_same; [apply afterCastling_shaped, Hs|exact Hon]. }
    assert (Hvac : cellAt (afterVacate board
                             (afterEnPassant board (afterCastling board whiteMove blackMove)
                                             whiteMove blackMove) whiteMove blackMove) behind
                   = None).
    { unfold afterVacate. rewrite !cellEq_refl. unfold putAt, cellAt in *.
      now apply getCell_cleared, getCell_cleared. }
    unfold resolveBoard.
    destruct (String.eqb (to whiteMove) (to blackMove)); [exact Hvac|].
    rewrite !placeMove_other; [exact Hvac| |]; intros E;
      first [apply Hblack; symmetry; exact E
            |apply (f_equal rank) in E; unfold behind in E; cbn [rank] in E;
             fold whiteTo in E; lia].
Qed.

Lemma en_passant_removes_passed_pawn_witness :
  cellAt (resolveBoard (positionToBoard (position doubleAdvanceRound))
                       (plainMove "b5" "a6") (plainMove "e8" "d8")) (squareToCoords "a5")
  = None.
Proof.
  apply (en_passant_removes_passed_pawn
           (positionToBoard (position doubleAdvanceRound))
           (plainMove "b5" "a6") (plainMove "e8" "d8") (gameStateOf doubleAdvanceRound) "wPb");
    try apply positionToBoard_shaped; try (vm_compute; reflexivity); vm_compute; discriminate.
Defined.

(** ** The handlers: what a request does to the rounds *)

Lemma roundBook_fields (g g' : Game) :
  roundBook g' = roundBook g ->
  position g' = position g /\ inCheck g' = inCheck g
  /\ castlingRights g' = castlingRights g /\ enPassantTarget g' = enPassantTarget g
  /\ moveHistory g' = moveHistory g /\ gameResult g' = gameResult g
  /\ kingsMoved g' = kingsMoved g /\ rooksMoved g' = rooksMoved g.
Proof.
  unfold roundBook, roundState. intros H.
  injection H as Hp Hc Hr He _ Hh Hres _ Hk Hrm. auto 10.
Qed.

Lemma roundBook_processRound (g g' : Game) (wm bm : Move) :
  roundBook g' = roundBook g ->
  roundBook (processRound g' wm bm) = roundBook (processRound g wm bm).
Proof.
  intros H. destruct (roundBook_fields g g' H) as (Hp & _ & Hr & _ & Hh & _ & Hk & Hrm).
  unfold roundBook, roundState, processRound. cbn. now rewrite Hp, Hr, Hh, Hk, Hrm.
Qed.

Lemma roundBook_checkTimerStatus (game : Game) :
  roundBook (checkTimerStatus game) = roundBook game.
Proof.
  unfold checkTimerStatus.
  repeat match goal with |- context [if ?c then _ else _] => destruct c end; reflexivity.
Qed.

(** The tail of the handlers either leaves the game alone or resolves the
    round of the two pending moves. *)
Lemma resolveIfBoth_cases (now : Z) (game : Game) :
  resolveIfBoth now game = (game, [])
  \/ exists wm bm,
       white (pendingMoves game) = Some wm /\ black (pendingMoves game) = Some bm
       /\ roundBook (fst (resolveIfBoth now game)) = roundBook (processRound game wm bm)
       /\ announcesBoard (snd (resolveIfBoth now game)) = true.
Proof.
  unfold resolveIfBoth, processMoves.
  destruct (white (pendingMoves game)) as [wm|]; [|now left].
  destruct (black (pendingMoves game)) as [bm|]; [|now left].
  right. exists wm, bm. cbn [isSome andb fst snd]. auto.
Qed.

(** One request either keeps the bookkeeping of rounds or resolves one
    round on it. *)
Lemma handle_round (game : Game) (req : Request) :
  (roundBook (fst (handle game req)) = roundBook game
   /\ announcesBoard (snd (handle game req)) = false)
  \/ exists wm bm,
       roundBook (fst (handle game req)) = roundBook (processRound game wm bm)
       /\ announcesBoard (snd (handle game req)) = true.
Proof.
  destruct req as [socketId now move|socketId now square pt]; cbn [handle].
  - unfold submitMove.
    destruct (colorNameOf game socketId) as [cn|]; [|left; split; reflexivity].
    assert (Hst : forall l, announcesBoard ((if gameStarted game then []
                                             else [ToRoom "gameStarted" (PFlag true)]) ++ l)
                            = announcesBoard l).
    { intros l. now destruct (gameStarted game). }
    repeat match goal with
           | |- context [if ?c then (withStarted game true, _) else _] =>
               destruct c; [left; split; [reflexivity|cbn [snd]; now rewrite Hst]|]
           end.
    destruct (isPawnPromotion cn _ move); [left; split; [reflexivity|cbn [snd]; now rewrite Hst]|].
    match goal with
    | |- context [resolveIfBoth now ?g2] =>
        assert (Hbook : roundBook g2 = roundBook game)
          by (now rewrite roundBook_checkTimerStatus);
        destruct (resolveIfBoth_cases now g2) as [E|(wm & bm & _ & _ & E1 & E2)];
        [rewrite E; cbv beta iota; cbn [fst snd]; left; split; [exact Hbook|now rewrite Hst]
        |right; exists wm, bm; destruct (resolveIfBoth now g2) as [g3 out];
         cbn [fst snd] in *; split;
         [rewrite E1; now apply roundBook_processRound
         |rewrite Hst; cbn [announcesBoard existsb app String.eqb Ascii.eqb Bool.eqb orb] in *;
          exact E2]]
    end.
  - unfold promotePawn.
    destruct (colorNameOf game socketId) as [cn|]; [|left; split; reflexivity].
    destruct (negb (isPromotionType pt)); [left; split; reflexivity|].
    destruct (ofColor cn (pendingMoves game)) as [pendingMove|]; [|left; split; reflexivity].
    repeat match goal with
           | |- context [if ?c then (game, rejected _) else _] =>
               destruct c; [left; split; reflexivity|]
           end.
    match goal with
    | |- context [resolveIfBoth now ?g2] =>
        assert (Hbook : roundBook g2 = roundBook game)
          by (now rewrite roundBook_checkTimerStatus);
        destruct (resolveIfBoth_cases now g2) as [E|(wm & bm & _ & _ & E1 & E2)];
        [rewrite E; cbv beta iota; cbn [fst snd]; left; split; [exact Hbook|reflexivity]
        |right; exists wm, bm; destruct (resolveIfBoth now g2) as [g3 out];
         cbn [fst snd] in *; split;
         [rewrite E1; now apply roundBook_processRound
         |cbn [announcesBoard existsb app String.eqb Ascii.eqb Bool.eqb orb] in *;
          exact E2]]
    end.
Qed.

Lemma standsIn_refl (r : SideRights) : standsIn r r = true.
Proof. destruct r as [[|] [|]]; reflexivity. Qed.

Lemma standsIn_trans (r1 r2 r3 : SideRights) :
  standsIn r1 r2 = true -> standsIn r2 r3 = true -> standsIn r1 r3 = true.
Proof. destruct r1 as [[|] [|]], r2 as [[|] [|]], r3 as [[|] [|]]; cbn; congruence. Qed.

Lemma ownRights_standsIn (piece : Cell) (move : Move) (a h : string) (r : SideRights) :
  standsIn (ownRights piece move a h r) r = true.
Proof.
  unfold ownRights.
  repeat match goal with |- context [if ?c then _ else _] => destruct c end;
    destruct r as [[|] [|]]; reflexivity.
Qed.

Lemma capturedRookRights_standsIn (board : Board) (move : Move) (a h : string) (r : SideRights) :
  standsIn (capturedRookRights board move a h r) r = true.
Proof.
  unfold capturedRookRights.
  repeat match goal with |- context [if ?c then _ else _] => destruct c end;
    destruct r as [[|] [|]]; reflexivity.
Qed.

Lemma newCastlingRights_standsIn (board : Board) (wm bm : Move) (cr : PerColor SideRights) :
  standsIn (white (newCastlingRights board wm bm cr)) (white cr) = true
  /\ standsIn (black (newCastlingRights board wm bm cr)) (black cr) = true.
Proof.
  unfold newCastlingRights. cbn [white black].
  split; (eapply standsIn_trans; [apply capturedRookRights_standsIn|apply ownRights_standsIn]).
Qed.

(** X16.  Castling rights are never restored: after any sequence of
    submissions and promotion choices, a right that stands stood at the
    beginning. *)
Theorem rights_never_return (reqs : list Request) (game : Game) :
  standsIn (white (castlingRights (serve game reqs))) (white (castlingRights game)) = true
  /\ standsIn (black (castlingRights (serve game reqs))) (black (castlingRights game)) = true.
Proof.
  revert game. induction reqs as [|req rest IH]; intros game.
  - cbn. now rewrite !standsIn_refl.
  - cbn [serve fold_left]. fold (serve (fst (handle game req)) rest).
    destruct (IH (fst (handle game req))) as [Hw Hb].
    assert (Hstep : standsIn (white (castlingRights (fst (handle game req))))
                             (white (castlingRights game)) = true
                    /\ standsIn (black (castlingRights (fst (handle game req))))
                                (black (castlingRights game)) = true).
    { destruct (handle_round game req) as [[Hsame _]|(wm & bm & Hround & _)].
      - destruct (roundBook_fields _ _ Hsame) as (_ & _ & Hr & _). rewrite Hr.
        now rewrite !standsIn_refl.
      - destruct (roundBook_fields _ _ Hround) as (_ & _ & Hr & _). rewrite Hr.
        apply newCastlingRights_standsIn. }
    destruct Hstep as [Hw' Hb'].
    split; eapply standsIn_trans; eassumption.
Qed.

(** X17.  The bookkeeping behind the rights is an invariant of the
    handlers: if every standing right belongs to a king and a rook
    recorded as unmoved, this is still so after any sequence of
    requests. *)
Theorem rights_bookkeeping_kept (reqs : list Request) (game : Game) :
  rightsConsistent game = true -> rightsConsistent (serve game reqs) = true.
Proof.
  revert game. induction reqs as [|req rest IH]; intros game H; [exact H|].
  cbn [serve fold_left]. fold (serve (fst (handle game req)) rest). apply IH.
  assert (Hbook : forall g g', roundBook g' = roundBook g ->
                               rightsConsistent g' = rightsConsistent g).
  { intros g g' E. destruct (roundBook_fields _ _ E) as (_ & _ & Hr & _ & _ & _ & Hk & Hrm).
    unfold rightsConsistent. now rewrite Hr, Hk, Hrm. }
  destruct (handle_round game req) as [[Hsame _]|(wm & bm & Hround & _)].
  - now rewrite (Hbook _ _ Hsame).
  - rewrite (Hbook _ _ Hround). now apply processRound_consistent.
Qed.

Lemma rights_bookkeeping_kept_witness :
  rightsConsistent (serve (joinedGame 300 0)
                          [SubmitMove whiteSocket 1 (plainMove "e2" "e4");
                           SubmitMove blackSocket 2 (plainMove "e7" "e5");
                           SubmitMove whiteSocket 3 (plainMove "e1" "e2");
                           SubmitMove blackSocket 4 (plainMove "h8" "h7")]) = true.
Proof.
  apply rights_bookkeeping_kept. reflexivity.
Defined.

(** X18.  A round is resolved exactly when the board is announced: one
    request adds one entry to the move history if its emissions contain a
    boardState to the room, and none otherwise; earlier entries are
    kept. *)
Theorem round_resolved_iff_announced (game : Game) (req : Request) :
  let after := fst (handle game req) in
  let out := snd (handle game req) in
  exists entries,
    moveHistory after = moveHistory game ++ entries
    /\ List.length entries = if announcesBoard out then 1%nat else 0%nat.
Proof.
  cbn zeta.
  destruct (handle_round game req) as [[Hsame Hout]|(wm & bm & Hround & Hout)]; rewrite Hout.
  - destruct (roundBook_fields _ _ Hsame) as (_ & _ & _ & _ & Hh & _).
    exists []. now rewrite Hh, app_nil_r.
  - destruct (roundBook_fields _ _ Hround) as (_ & _ & _ & _ & Hh & _).
    rewrite Hh. cbn [processRound moveHistory]. eexists. split; reflexivity.
Qed.

Lemma processRound_flags (game : Game) (wm bm : Move) :
  cleanBoard (positionToBoard (position game)) ->
  flagsFollowPosition (processRound game wm bm)
  /\ cleanBoard (positionToBoard (position (processRound game wm bm))).
Proof.
  intros Hclean. unfold flagsFollowPosition. cbn [processRound position inCheck].
  rewrite positionToBoard_boardToPosition.
  - split; [reflexivity|now apply resolveBoard_clean].
  - apply resolveBoard_shaped, positionToBoard_shaped.
  - now apply resolveBoard_clean.
Qed.

Lemma flags_kept (reqs : list Request) (game : Game) :
  cleanBoard (positionToBoard (position game)) ->
  flagsFollowPosition game -> flagsFollowPosition (serve game reqs).
Proof.
  revert game. induction reqs as [|req rest IH]; intros game Hclean H; [exact H|].
  cbn [serve fold_left]. fold (serve (fst (handle game req)) rest).
  destruct (handle_round game req) as [[Hsame _]|(wm & bm & Hround & _)].
  - destruct (roundBook_fields _ _ Hsame) as (Hp & Hc & _).
    apply IH; [now rewrite Hp|]. unfold flagsFollowPosition. now rewrite Hp, Hc.
  - destruct (roundBook_fields _ _ Hround) as (Hp & Hc & _).
    destruct (processRound_flags game wm bm Hclean) as [Hf Hcl].
    apply IH; [now rewrite Hp|]. unfold flagsFollowPosition in *. now rewrite Hp, Hc.
Qed.

(** X19.  The stored check flags follow the stored position: if they
    agree with [isInCheck] on the position at the start, they still do
    after any sequence of requests, although the handlers never recompute
    them outside [processMoves]. *)
Theorem check_flags_follow_position (reqs : list Request) (game : Game) :
  wfPosition (position game) = true ->
  flagsFollowPosition game -> flagsFollowPosition (serve game reqs).
Proof.
  intros Hwf. apply flags_kept. now apply wfBoard_clean, positionToBoard_wf.
Qed.

Lemma check_flags_follow_position_witness :
  flagsFollowPosition (serve backRankGame
                             [SubmitMove whiteSocket 1 (plainMove "a2" "a3");
                              SubmitMove blackSocket 2 (plainMove "e8" "e1")]).
Proof.
  apply check_flags_follow_position; reflexivity.
Defined.

Lemma keys_of_entries (b : Board) (cs : list Coords) (k : string) :
  existsb (String.eqb k)
          (map fst (flat_map (fun c => match cellAt b c with
                                       | Some p => if truthyStr p then [(coordsToSquare c, p)]
                                                   else []
                                       | None => []
                                       end) cs)) = true ->
  existsb (String.eqb k) (map coordsToSquare cs) = true.
Proof.
  induction cs as [|c cs IH]; cbn [flat_map map existsb]; [auto|].
  intros H. rewrite map_app, existsb_app in H. apply orb_true_iff in H.
  apply orb_true_iff. destruct H as [H|H]; [left|right; now apply IH].
  destruct (cellAt b c) as [p|]; [|discriminate H].
  destruct (truthyStr p); [|discriminate H].
  cbn in H. now rewrite orb_false_r in H.
Qed.

Lemma entries_proper (b : Board) (cs : list Coords) :
  distinctKeys (map coordsToSquare cs) = true ->
  (forall c, In c cs -> onBoard c = true) ->
  properPosition (flat_map (fun c => match cellAt b c with
                                     | Some p => if truthyStr p then [(coordsToSquare c, p)]
                                                 else []
                                     | None => []
                                     end) cs) = true.
Proof.
  unfold properPosition.
  induction cs as [|c cs IH]; intros Hd Hon; [reflexivity|].
  cbn [map distinctKeys] in Hd. apply andb_true_iff in Hd. destruct Hd as [Hfresh Hd].
  assert (Hrest := IH Hd (fun c' H => Hon c' (or_intror H))).
  apply andb_true_iff in Hrest. destruct Hrest as [Hk Hv].
  cbn [flat_map].
  destruct (cellAt b c) as [p|]; [|cbn [app]; now rewrite Hk, Hv].
  destruct (truthyStr p) eqn:Ep; [|cbn [app]; now rewrite Hk, Hv].
  cbn [app map fst snd distinctKeys forallb]. rewrite Hk, Hv, Ep, !andb_true_r.
  rewrite (coordsToSquare_valid c (Hon c (or_introl eq_refl))). rewrite andb_true_r.
  apply negb_true_iff. apply negb_true_iff in Hfresh.
  destruct (existsb (String.eqb (coordsToSquare c)) (map fst _)) eqn:E; [|reflexivity].
  apply keys_of_entries in E. congruence.
Qed.

Lemma boardToPosition_proper (b : Board) : properPosition (boardToPosition b) = true.
Proof.
  unfold boardToPosition. apply entries_proper.
  - vm_compute. reflexivity.
  - apply allCoords_onBoard.
Qed.

(** X20.  Stored positions stay proper: if the position names each square
    at most once, names only squares of the board and holds no empty
    piece, the same is true after any sequence of requests, whatever the
    moves and promotion fields were. *)
Theorem positions_stay_proper (reqs : list Request) (game : Game) :
  properPosition (position game) = true ->
  properPosition (position (serve game reqs)) = true.
Proof.
  revert game. induction reqs as [|req rest IH]; intros game H; [exact H|].
  cbn [serve fold_left]. fold (serve (fst (handle game req)) rest). apply IH.
  destruct (handle_round game req) as [[Hsame _]|(wm & bm & Hround & _)].
  - destruct (roundBook_fields _ _ Hsame) as (Hp & _). now rewrite Hp.
  - destruct (roundBook_fields _ _ Hround) as (Hp & _). rewrite Hp.
    cbn [processRound position]. apply boardToPosition_proper.
Qed.

Lemma positions_stay_proper_witness :
  properPosition (position (serve (joinedGame 300 0)
                                  [SubmitMove whiteSocket 1 (plainMove "e2" "e4");
                                   SubmitMove blackSocket 2 (plainMove "d7" "d5")])) = true.
Proof.
  apply positions_stay_proper. reflexivity.
Defined.

(** The tail of the handlers, with the pending moves. *)
Lemma resolveIfBoth_pending (now : Z) (game : Game) :
  (resolveIfBoth now game = (game, [])
   /\ (white (pendingMoves game) = None \/ black (pendingMoves game) = None))
  \/ exists wm bm,
       white (pendingMoves game) = Some wm /\ black (pendingMoves game) = Some bm
       /\ roundBook (fst (resolveIfBoth now game)) = roundBook (processRound game wm bm)
       /\ pendingMoves (fst (resolveIfBoth now game)) = nobody
       /\ announcesBoard (snd (resolveIfBoth now game)) = true.
Proof.
  unfold resolveIfBoth, processMoves.
  destruct (white (pendingMoves game)) as [wm|]; [|left; auto].
  destruct (black (pendingMoves game)) as [bm|]; [|left; auto].
  right. exists wm, bm. cbn [isSome andb fst snd]. auto 6.
Qed.

(** One request, in full: the bookkeeping of rounds and the pending moves
    are kept, or one pending move is stored, or one pending move is stored
    and the round of the two pending moves is resolved. *)
Lemma handle_cases (game : Game) (req : Request) :
  let after := fst (handle game req) in
  let out := snd (handle game req) in
  (roundBook after = roundBook game /\ announcesBoard out = false
   /\ (pendingMoves after = pendingMoves game
       \/ exists cn m, pendingMoves after = setColor cn (Some m) (pendingMoves game)
                       /\ moveOrigin game cn m))
  \/ exists cn m wm bm,
       moveOrigin game cn m
       /\ white (setColor cn (Some m) (pendingMoves game)) = Some wm
       /\ black (setColor cn (Some m) (pendingMoves game)) = Some bm
       /\ roundBook after = roundBook (processRound game wm bm)
       /\ pendingMoves after = nobody
       /\ announcesBoard out = true.
Proof.
  cbn zeta. destruct req as [socketId now move|socketId now square pt]; cbn [handle].
  - unfold submitMove.
    destruct (colorNameOf game socketId) as [cn|]; [|left; auto].
    assert (Hst : forall l, announcesBoard ((if gameStarted game then []
                                             else [ToRoom "gameStarted" (PFlag true)]) ++ l)
                            = announcesBoard l).
    { intros l. now destruct (gameStarted game). }
    cbn [withStarted position pendingMoves].
    destruct (negb (truthy (cellAt (positionToBoard (position game))
                                   (squareToCoords (from move))))) eqn:E1;
      [left; cbn [fst snd]; rewrite Hst; auto|].
    destruct (isChar (cellChar 0 (cellAt (positionToBoard (position game))
                                         (squareToCoords (from move))))
                     (colorChar cn)) eqn:E2; cbn [negb orb];
      [|left; cbn [fst snd]; rewrite Hst; auto].
    destruct (repeatRefused _ _ cn _); [left; cbn [fst snd]; rewrite Hst; auto|].
    match goal with
    | |- context [negb (isLegalMove ?b ?f ?t ?p ?gs)] =>
        destruct (negb (isLegalMove b f t p gs)) eqn:E4;
        [left; cbn [fst snd]; rewrite Hst; auto|]
    end.
    assert (Hlegal : moveOrigin game cn move).
    { left. unfold legalFor. apply negb_false_iff in E1, E4.
      rewrite E1, E2. exact E4. }
    match goal with
    | |- context [if ?c then (withStarted game true, _) else _] =>
        destruct c; [left; cbn [fst snd]; rewrite Hst; auto|]
    end.
    destruct (isPawnPromotion cn _ move).
    { left. cbn [fst snd withPending pendingMoves]. rewrite Hst.
      split; [reflexivity|]. split; [reflexivity|]. right. exists cn, move. auto. }
    match goal with
    | |- context [resolveIfBoth now ?g] => set (g2 := g)
    end.
    assert (Hbook : roundBook g2 = roundBook game)
      by (unfold g2; now rewrite roundBook_checkTimerStatus).
    assert (Hpend : pendingMoves g2 = setColor cn (Some move) (pendingMoves game))
      by (unfold g2; now rewrite pendingMoves_checkTimerStatus).
    destruct (resolveIfBoth_pending now g2) as [[E _]|(wm & bm & Ew & Eb & E1' & E2' & E3')].
    + rewrite E. cbv beta iota. cbn [fst snd]. rewrite Hst. left.
      split; [exact Hbook|]. split; [reflexivity|]. right. exists cn, move. auto.
    + right. exists cn, move, wm, bm. rewrite Hpend in Ew, Eb.
      destruct (resolveIfBoth now g2) as [g3 out]. cbn [fst snd] in E1', E2', E3' |- *.
      rewrite Hst.
      split; [exact Hlegal|]. split; [exact Ew|]. split; [exact Eb|].
      split; [rewrite E1'; now apply roundBook_processRound|]. split; [exact E2'|].
      unfold announcesBoard in *. rewrite existsb_app, E3'. apply orb_true_r.
  - unfold promotePawn.
    destruct (colorNameOf game socketId) as [cn|]; [|left; auto].
    destruct (negb (isPromotionType pt)); [left; auto|].
    destruct (ofColor cn (pendingMoves game)) as [pendingMove|] eqn:Ep; [|left; auto].
    repeat match goal with
           | |- context [if ?c then (game, rejected _) else _] =>
               destruct c; [left; cbn [fst snd]; auto|]
           end.
    match goal with
    | |- context [resolveIfBoth now (checkTimerStatus (withPending game
                                       (setColor cn (Some ?chosen) (pendingMoves game))))] =>
        assert (Horigin : moveOrigin game cn chosen)
          by (right; exists pendingMove; auto);
        set (m := chosen) in *
    end.
    match goal with
    | |- context [resolveIfBoth now ?g] => set (g2 := g)
    end.
    assert (Hbook : roundBook g2 = roundBook game)
      by (unfold g2; now rewrite roundBook_checkTimerStatus).
    assert (Hpend : pendingMoves g2 = setColor cn (Some m) (pendingMoves game))
      by (unfold g2; now rewrite pendingMoves_checkTimerStatus).
    destruct (resolveIfBoth_pending now g2) as [[E _]|(wm & bm & Ew & Eb & E1' & E2' & E3')].
    + rewrite E. cbv beta iota. cbn [fst snd]. left.
      split; [exact Hbook|]. split; [reflexivity|]. right. exists cn, m. auto.
    + right. exists cn, m, wm, bm. rewrite Hpend in Ew, Eb.
      destruct (resolveIfBoth now g2) as [g3 out]. cbn [fst snd] in E1', E2', E3' |- *.
      split; [exact Horigin|]. split; [exact Ew|]. split; [exact Eb|].
      split; [rewrite E1'; now apply roundBook_processRound|]. split; [exact E2'|].
      unfold announcesBoard in *. rewrite existsb_app, E3'. apply orb_true_r.
Qed.

Lemma legalFor_squares (game game' : Game) (cn : ColorName) (m m' : Move) :
  roundBook game' = roundBook game -> from m' = from m -> to m' = to m ->
  legalFor game' cn m' = legalFor game cn m.
Proof.
  intros Hbook Hf Ht. destruct (roundBook_fields _ _ Hbook) as (Hp & _ & Hr & He & _).
  unfold legalFor, gameStateOf. now rewrite Hp, Hr, He, Hf, Ht.
Qed.

Lemma origin_legal (game : Game) (cn : ColorName) (m : Move) :
  pendingLegal game = true -> moveOrigin game cn m -> legalFor game cn m = true.
Proof.
  intros Hinv [H|(pm & Hpm & Hf & Ht)]; [exact H|].
  rewrite (legalFor_squares game game cn pm m eq_refl Hf Ht).
  unfold pendingLegal in Hinv. apply andb_true_iff in Hinv. destruct Hinv as [Hw Hb].
  destruct cn; cbn [ofColor] in Hpm; rewrite Hpm in *; assumption.
Qed.

Lemma pendingLegal_kept (game game' : Game) :
  roundBook game' = roundBook game -> pendingMoves game' = pendingMoves game ->
  pendingLegal game' = pendingLegal game.
Proof.
  intros Hbook Hpend. unfold pendingLegal. rewrite Hpend.
  destruct (white (pendingMoves game)) as [wm|], (black (pendingMoves game)) as [bm|];
    rewrite ?(legalFor_squares game game' White wm wm Hbook eq_refl eq_refl);
    rewrite ?(legalFor_squares game game' Black bm bm Hbook eq_refl eq_refl);
    reflexivity.
Qed.

Lemma handle_pendingLegal (game : Game) (req : Request) :
  pendingLegal game = true -> pendingLegal (fst (handle game req)) = true.
Proof.
  intros Hinv.
  destruct (handle_cases game req)
    as [(Hbook & _ & [Hpend|(cn & m & Hpend & Horigin)])
       |(cn & m & wm & bm & _ & _ & _ & _ & Hpend & _)].
  - now rewrite (pendingLegal_kept _ _ Hbook Hpend).
  - pose proof (origin_legal game cn m Hinv Horigin) as Hm.
    unfold pendingLegal in *. rewrite Hpend.
    apply andb_true_iff in Hinv. destruct Hinv as [Hw Hb].
    destruct cn; cbn [setColor white black].
    + rewrite (legalFor_squares game _ White m m Hbook eq_refl eq_refl), Hm. cbn [andb].
      destruct (black (pendingMoves game)) as [bm|]; [|reflexivity].
      now rewrite (legalFor_squares game _ Black bm bm Hbook eq_refl eq_refl).
    + rewrite (legalFor_squares game _ Black m m Hbook eq_refl eq_refl), Hm, andb_true_r.
      destruct (white (pendingMoves game)) as [wm|]; [|reflexivity].
      now rewrite (legalFor_squares game _ White wm wm Hbook eq_refl eq_refl).
  - unfold pendingLegal. now rewrite Hpend.
Qed.

(** X21.  Pending moves are legal moves: if every pending move is a move
    of an own piece that [isLegalMove] accepts on the stored position (as
    when nothing is pending), this is still so after any sequence of
    requests.  A stored move was validated by [submitMove] against the
    position it will be resolved on, and [promotePawn] only adds the
    choice to it. *)
Theorem pending_moves_stay_legal (reqs : list Request) (game : Game) :
  pendingLegal game = true -> pendingLegal (serve game reqs) = true.
Proof.
  revert game. induction reqs as [|req rest IH]; intros game H; [exact H|].
  cbn [serve fold_left]. apply IH. now apply handle_pendingLegal.
Qed.

Lemma pending_moves_stay_legal_witness :
  pendingLegal (serve (joinedGame 300 0)
                      [SubmitMove whiteSocket 1 (plainMove "e2" "e4");
                       SubmitMove whiteSocket 2 (plainMove "e2" "e5");
                       SubmitMove whiteSocket 3 (plainMove "d2" "d4")]) = true.
Proof.
  apply pending_moves_stay_legal. reflexivity.
Defined.

(** X22.  Every resolved round resolves two legal moves.  If the pending
    moves are legal, a request whose emissions announce the board has
    resolved the round of a white and a black move, each a move of an own
    piece that [isLegalMove] accepts on the position before, and has left
    nothing pending. *)
Theorem resolved_rounds_are_legal (game : Game) (req : Request) :
  pendingLegal game = true ->
  announcesBoard (snd (handle game req)) = true ->
  exists whiteMove blackMove,
    legalFor game White whiteMove = true /\ legalFor game Black blackMove = true
    /\ roundBook (fst (handle game req)) = roundBook (processRound game whiteMove blackMove)
    /\ pendingMoves (fst (handle game req)) = nobody.
Proof.
  intros Hinv Hout.
  destruct (handle_cases game req)
    as [(_ & Hno & _)|(cn & m & wm & bm & Horigin & Hw & Hb & Hbook & Hpend & _)];
    [congruence|].
  exists wm, bm.
  pose proof (origin_legal game cn m Hinv Horigin) as Hm.
  unfold pendingLegal in Hinv. apply andb_true_iff in Hinv. destruct Hinv as [Hiw Hib].
  destruct cn; cbn [setColor white black] in Hw, Hb.
  - injection Hw as <-. rewrite Hb in Hib. auto.
  - injection Hb as <-. rewrite Hw in Hiw. auto.
Qed.

Lemma resolved_rounds_are_legal_witness :
  exists whiteMove blackMove,
    legalFor swerveGame White whiteMove = true /\ legalFor swerveGame Black blackMove = true
    /\ roundBook (fst (handle swerveGame (SubmitMove blackSocket 3 (plainMove "f6" "g8"))))
       = roundBook (processRound swerveGame whiteMove blackMove)
    /\ pendingMoves (fst (handle swerveGame (SubmitMove blackSocket 3 (plainMove "f6" "g8"))))
       = nobody.
Proof.
  apply resolved_rounds_are_legal; reflexivity.
Defined.

(** X23.  A promotion keeps the pawn's identifier.  When [promotePawn] is
    not rejected and the opponent has not moved yet, the sender had a
    pending move to the named square, the piece on its source square is a
    pawn of the sender's own color, the named square lies on the sender's
    promotion rank, the choice is one of Q, R, N, B, and the pending move
    now carries it together with the new piece: the color, the chosen type
    and the rest of the pawn's name, which is the piece [processMoves] will
    place. *)
Theorem promotion_keeps_identifier (socketId : string) (now : Z) (game : Game)
        (square pieceType : string) (cn : ColorName) :
  colorNameOf game socketId = Some cn ->
  ofColor (otherColor cn) (pendingMoves game) = None ->
  isRejection (snd (promotePawn socketId now game square pieceType)) = false ->
  exists pendingMove pawn,
    ofColor cn (pendingMoves game) = Some pendingMove
    /\ to pendingMove = square
    /\ cellAt (positionToBoard (position game)) (squareToCoords (from pendingMove)) = Some pawn
    /\ truthyStr pawn = true
    /\ isChar (charAt 0 pawn) (colorChar cn) = true
    /\ isChar (charAt 1 pawn) "P" = true
    /\ isChar (charAt 1 square) (match cn with White => "8" | Black => "1" end) = true
    /\ isPromotionType pieceType = true
    /\ let promoted := String (colorChar cn) (append pieceType (idSuffix pawn)) in
       let chosen := mkMove (from pendingMove) (to pendingMove) (Some pieceType)
                            (Some promoted) in
       ofColor cn (pendingMoves (fst (promotePawn socketId now game square pieceType)))
       = Some chosen
       /\ promotedPiece (colorChar cn) chosen (Some pawn) = Some promoted.
Proof.
  intros Hcn Hother. unfold promotePawn. rewrite Hcn.
  destruct (isPromotionType pieceType) eqn:Et; cbn [negb]; [|discriminate].
  destruct (ofColor cn (pendingMoves game)) as [pm|] eqn:Ep; [|discriminate].
  destruct (String.eqb (to pm) square) eqn:Es; cbn [negb]; [|discriminate].
  apply String.eqb_eq in Es.
  destruct (cellAt (positionToBoard (position game)) (squareToCoords (from pm)))
    as [pawn|] eqn:Ec; [|discriminate].
  cbn [truthy cellChar cellSuffix].
  destruct (negb (truthyStr pawn) || negb (isChar (charAt 0 pawn) (colorChar cn))
            || negb (isChar (charAt 1 pawn) "P")) eqn:Ek; [discriminate|].
  apply orb_false_iff in Ek. destruct Ek as [Ek Ekind].
  apply orb_false_iff in Ek. destruct Ek as [Etruthy Ecolor].
  apply negb_false_iff in Etruthy, Ecolor, Ekind.
  match goal with
  | |- context [if ?c then (game, rejected _) else _] =>
      destruct c eqn:Erank; [discriminate|]
  end.
  intros _. exists pm, pawn.
  split; [reflexivity|]. split; [exact Es|]. split; [exact Ec|].
  split; [exact Etruthy|]. split; [exact Ecolor|]. split; [exact Ekind|].
  split; [destruct cn; apply negb_false_iff in Erank; exact Erank|].
  split; [reflexivity|]. cbn zeta.
  split.
  - rewrite (resolveIfBoth_waits now _ (otherColor cn)).
    + cbn [fst]. rewrite pendingMoves_checkTimerStatus. cbn [withPending pendingMoves].
      now destruct cn.
    + rewrite pendingMoves_checkTimerStatus. cbn [withPending pendingMoves].
      destruct cn; cbn [otherColor ofColor setColor white black] in *; exact Hother.
  - unfold promotedPiece. cbn [promotion promotedPieceId truthy].
    assert (Hpt : truthyStr pieceType = true).
    { unfold isPromotionType in Et. cbn [existsb] in Et.
      destruct pieceType; [discriminate Et|reflexivity]. }
    rewrite Hpt. reflexivity.
Qed.

Lemma promotion_keeps_identifier_witness :
  exists pendingMove pawn,
    ofColor White (pendingMoves awaitingPromotion) = Some pendingMove
    /\ to pendingMove = "a8"
    /\ cellAt (positionToBoard (position awaitingPromotion))
              (squareToCoords (from pendingMove)) = Some pawn
    /\ truthyStr pawn = true
    /\ isChar (charAt 0 pawn) W = true
    /\ isChar (charAt 1 pawn) "P" = true
    /\ isChar (charAt 1 "a8") "8" = true
    /\ isPromotionType "Q" = true
    /\ let promoted := String W (append "Q" (idSuffix pawn)) in
       let chosen := mkMove (from pendingMove) (to pendingMove) (Some "Q") (Some promoted) in
       ofColor White (pendingMoves (fst (promotePawn whiteSocket 5 awaitingPromotion "a8" "Q")))
       = Some chosen
       /\ promotedPiece W chosen (Some pawn) = Some promoted.
Proof.
  apply (promotion_keeps_identifier whiteSocket 5 awaitingPromotion "a8" "Q" White);
    reflexivity.
Defined.

(** ** The clocks *)

Lemma resolveIfBoth_clock (now : Z) (game : Game) :
  timerRunning game = false -> timerRunning (fst (resolveIfBoth now game)) = false.
Proof.
  intros H. unfold resolveIfBoth, processMoves.
  destruct (white (pendingMoves game)) as [wm|]; [|exact H].
  destruct (black (pendingMoves game)) as [bm|]; [|exact H].
  cbn [isSome andb fst withTimers withPending timerRunning processRound]. rewrite H.
  now destruct (isSome _).
Qed.

Lemma checkTimerStatus_clock (game : Game) :
  timerRunning game = false -> timerRunning (checkTimerStatus game) = false.
Proof.
  intros H. unfold checkTimerStatus.
  repeat match goal with |- context [if ?c then _ else _] => destruct c end;
    cbn [withTimers timerRunning]; auto.
Qed.

Lemma handle_clock (game : Game) (req : Request) :
  timerRunning game = false -> timerRunning (fst (handle game req)) = false.
Proof.
  intros H. destruct req as [socketId now move|socketId now square pt]; cbn [handle].
  - unfold submitMove.
    destruct (colorNameOf game socketId) as [cn|]; [|exact H].
    repeat match goal with
           | |- context [if ?c then (withStarted game true, _) else _] =>
               destruct c; [exact H|]
           end.
    destruct (isPawnPromotion cn _ move); [exact H|].
    match goal with
    | |- context [resolveIfBoth now ?g2] =>
        pose proof (resolveIfBoth_clock now g2 ltac:(apply checkTimerStatus_clock; exact H)) as Hc;
        destruct (resolveIfBoth now g2) as [g3 out]; exact Hc
    end.
  - unfold promotePawn.
    destruct (colorNameOf game socketId) as [cn|]; [|exact H].
    destruct (negb (isPromotionType pt)); [exact H|].
    destruct (ofColor cn (pendingMoves game)) as [pendingMove|]; [|exact H].
    repeat match goal with
           | |- context [if ?c then (game, rejected _) else _] =>
               destruct c; [exact H|]
           end.
    match goal with
    | |- context [resolveIfBoth now ?g2] =>
        pose proof (resolveIfBoth_clock now g2 ltac:(apply checkTimerStatus_clock; exact H)) as Hc;
        destruct (resolveIfBoth now g2) as [g3 out]; exact Hc
    end.
Qed.

Lemma serve_clock (reqs : list Request) (game : Game) :
  timerRunning game = false -> timerRunning (serve game reqs) = false.
Proof.
  revert game. induction reqs as [|req rest IH]; intros game H; [exact H|].
  cbn [serve fold_left]. apply IH. now apply handle_clock.
Qed.

(** X24.  Once a round has ended with a result the clock is stopped for
    good: the handler switches both active flags back on after
    [processMoves] has switched them off, but [timerRunning] stays false,
    and no later submission or promotion choice sets it again. *)
Theorem finished_game_never_ticks (now : Z) (game : Game) (whiteMove blackMove : Move)
        (reqs : list Request) :
  white (pendingMoves game) = Some whiteMove ->
  black (pendingMoves game) = Some blackMove ->
  let ended := fst (resolveIfBoth now game) in
  gameResult ended <> None ->
  whiteActive (timers ended) = true /\ blackActive (timers ended) = true
  /\ timerRunning (serve ended reqs) = false.
Proof.
  intros Hw Hb ended Hres.
  assert (Hstop : timerRunning ended = false
                  /\ whiteActive (timers ended) = true /\ blackActive (timers ended) = true).
  { unfold ended in *. unfold resolveIfBoth, processMoves in *. rewrite Hw, Hb in *.
    cbn [isSome andb fst withTimers withPending timerRunning processRound timers gameResult
         setLastUpdate setActive whiteActive blackActive] in *.
    destruct (terminalResult _ _ _); [auto|now contradiction Hres]. }
  destruct Hstop as (Hrun & Hwa & Hba). repeat split; try assumption.
  now apply serve_clock.
Qed.

Lemma finished_game_never_ticks_witness :
  timerRunning (serve (fst (resolveIfBoth 2 backRankPending)) afterMateRequests) = false.
Proof.
  apply (finished_game_never_ticks 2 backRankPending (plainMove "a2" "a3") (plainMove "e8" "e1")
           afterMateRequests); try reflexivity.
  vm_compute. discriminate.
Defined.

Lemma in_rejected (e : Emission) (game : Game) (msg : string) :
  In e ((if gameStarted game then [] else [ToRoom "gameStarted" (PFlag true)]) ++ rejected msg) ->
  e <> ToSocket "moveAccepted" (PFlag true).
Proof.
  intros H E. subst e. apply in_app_or in H. destruct H as [H|H].
  - destruct (gameStarted game); [contradiction H|].
    destruct H as [H|H]; [discriminate H|contradiction H].
  - destruct H as [H|H]; [discriminate H|contradiction H].
Qed.

(** X25.  An accepted move stops the mover's clock.  When [submitMove]
    answers moveAccepted, the timers it sends to the room have the
    mover's clock switched off; the opponent's clock is on exactly when
    the game has no result and the opponent has no pending move. *)
Theorem accepted_move_stops_own_clock (socketId : string) (now : Z) (game : Game) (move : Move)
        (cn : ColorName) :
  colorNameOf game socketId = Some cn ->
  let out := snd (submitMove socketId now game move) in
  In (ToSocket "moveAccepted" (PFlag true)) out ->
  exists t,
    In (ToRoom "timerUpdate" (PTimers t)) out
    /\ activeOf cn t = false
    /\ activeOf (otherColor cn) t
       = negb (isSome (gameResult game))
         && negb (isSome (ofColor (otherColor cn) (pendingMoves game))).
Proof.
  intros Hcn. unfold submitMove. rewrite Hcn.
  repeat match goal with
         | |- context [if ?c then (withStarted game true, _) else _] =>
             destruct c; [cbn [snd]; intros H; now apply in_rejected in H|]
         end.
  destruct (isPawnPromotion cn _ move).
  { cbn [snd]. intros H. apply in_app_or in H. destruct H as [H|H].
    - destruct (gameStarted game); [contradiction H|].
      destruct H as [H|H]; [discriminate H|contradiction H].
    - destruct H as [H|H]; [discriminate H|contradiction H]. }
  match goal with
  | |- context [resolveIfBoth now ?g2] => destruct (resolveIfBoth now g2) as [g3 out]
  end.
  cbn [snd]. intros _.
  eexists. split; [apply in_or_app; right; right; left; reflexivity|].
  unfold checkTimerStatus.
  cbn [withPending withStarted gameResult pendingMoves timers].
  destruct (gameResult game) as [r|]; cbn [isSome negb andb].
  - destruct cn; split; reflexivity.
  - destruct cn, (pendingMoves game) as [[w|] [b|]]; split; reflexivity.
Qed.

Lemma accepted_move_stops_own_clock_witness :
  exists t,
    In (ToRoom "timerUpdate" (PTimers t))
       (snd (submitMove whiteSocket 1 (joinedGame 300 0) (plainMove "e2" "e4")))
    /\ activeOf White t = false
    /\ activeOf Black t = true.
Proof.
  apply (accepted_move_stops_own_clock whiteSocket 1 (joinedGame 300 0) (plainMove "e2" "e4")
           White); [reflexivity|].
  vm_compute. right. left. reflexivity.
Defined.

(** ** Joining, leaving and the settings *)

Lemma seated_game (now : Z) (cn : ColorName) (room : Room) :
  let game := roomOf room in
  let game' := roomOf (fst (seated now cn room)) in
  roundBook game' = roundBook game /\ pendingMoves game' = pendingMoves game
  /\ gameStarted game' = gameStarted game
  /\ whiteId game' = whiteId game /\ blackId game' = blackId game.
Proof.
  cbn zeta. unfold seated.
  destruct (truthy (whiteId (roomOf room)) && truthy (blackId (roomOf room)));
    cbn [fst roomOf]; repeat split; reflexivity.
Qed.

(** X26.  Joining never touches a game in progress and never unseats a
    player: for a room that exists, [joinGame] leaves the bookkeeping of
    rounds, the pending moves and the started flag as they are, and a
    seat that is taken keeps its socket. *)
Theorem join_keeps_the_game (socketId : string) (now : Z) (data : JoinData) (room : Room) :
  let game := roomOf room in
  let game' := roomOf (fst (joinGame socketId now data (Some room))) in
  roundBook game' = roundBook game /\ pendingMoves game' = pendingMoves game
  /\ gameStarted game' = gameStarted game
  /\ (truthy (whiteId game) = true -> whiteId game' = whiteId game)
  /\ (truthy (blackId game) = true -> blackId game' = blackId game).
Proof.
  cbn zeta. unfold joinGame.
  destruct (truthy (whiteId (roomOf room))) eqn:Ew; cbn [negb].
  - destruct (truthy (blackId (roomOf room))) eqn:Eb; cbn [negb].
    + cbn [fst]. repeat split; reflexivity.
    + match goal with
      | |- context [seated now Black ?r] =>
          destruct (seated_game now Black r) as (H1 & H2 & H3 & H4 & H5)
      end.
      cbn [roomOf] in *. rewrite H1, H2, H3, H4.
      repeat split; try reflexivity. intros H. discriminate H.
  - match goal with
    | |- context [seated now White ?r] =>
        destruct (seated_game now White r) as (H1 & H2 & H3 & H4 & H5)
    end.
    cbn [roomOf] in *. rewrite H1, H2, H3, H5.
    repeat split; try reflexivity. intros H. discriminate H.
Qed.

Lemma cellEq_same (s : string) : cellEq (Some s) (Some s) = true.
Proof. apply String.eqb_refl. Qed.

Lemma cellEq_differs (s t : string) : s <> t -> cellEq (Some s) (Some t) = false.
Proof. intros H. now apply String.eqb_neq. Qed.

(** X27.  A seat is handed over with everything that belongs to it: when
    a player disconnects while the opponent stays and another socket
    joins, the newcomer gets the leaver's color, the opponent keeps the
    seat, and the pending moves (the leaver's included), the bookkeeping
    of rounds and the started flag are those of the game before. *)
Theorem seat_handover (leaver newcomer opponent : string) (now : Z) (data : JoinData)
        (room : Room) (cn : ColorName) :
  truthyStr newcomer = true -> truthyStr opponent = true ->
  opponent <> leaver -> opponent <> newcomer ->
  idOf cn (roomOf room) = Some leaver ->
  idOf (otherColor cn) (roomOf room) = Some opponent ->
  exists room1 out1,
    disconnect leaver room = (Some room1, out1)
    /\ let game2 := roomOf (fst (joinGame newcomer now data (Some room1))) in
       colorNameOf game2 newcomer = Some cn
       /\ idOf (otherColor cn) game2 = Some opponent
       /\ pendingMoves game2 = pendingMoves (roomOf room)
       /\ roundBook game2 = roundBook (roomOf room)
       /\ gameStarted game2 = gameStarted (roomOf room).
Proof.
  intros Hn Ho Hol Hon Hcn Hother.
  destruct room as [game interval]. cbn [roomOf] in *.
  unfold disconnect. cbn [roomOf timerInterval].
  destruct cn; cbn [idOf otherColor] in *.
  - rewrite Hcn, Hother, cellEq_same. cbn [withIds blackId whiteId].
    rewrite (cellEq_differs _ _ Hol). cbn [withIds whiteId blackId truthy negb andb].
    rewrite Ho. cbn [negb].
    eexists. eexists. split; [reflexivity|]. cbn zeta.
    unfold joinGame. cbn [roomOf withIds whiteId blackId truthy negb timerInterval].
    match goal with
    | |- context [seated now White ?r] =>
        destruct (seated_game now White r) as (H1 & H2 & H3 & H4 & H5)
    end.
    cbn [roomOf withIds whiteId blackId] in *.
    unfold colorNameOf, cellEq. rewrite H4, H5, String.eqb_refl. repeat split; assumption.
  - rewrite Hother, (cellEq_differs _ _ Hol). cbv iota. rewrite Hcn, cellEq_same.
    cbn [withIds blackId whiteId truthy negb andb]. rewrite ?Hother. cbn [truthy]. rewrite Ho.
    cbn [negb andb].
    eexists. eexists. split; [reflexivity|]. cbn zeta.
    unfold joinGame. cbn [roomOf withIds whiteId blackId truthy negb timerInterval].
    rewrite Ho. cbn [negb].
    match goal with
    | |- context [seated now Black ?r] =>
        destruct (seated_game now Black r) as (H1 & H2 & H3 & H4 & H5)
    end.
    cbn [roomOf withIds whiteId blackId] in *.
    unfold colorNameOf, cellEq. rewrite H4, H5, String.eqb_refl.
    rewrite (proj2 (String.eqb_neq newcomer opponent)) by congruence.
    repeat split; assumption.
Qed.

Lemma seat_handover_witness :
  exists room1 out1,
    disconnect whiteSocket (mkRoom awaitingPromotion true) = (Some room1, out1)
    /\ let game2 := roomOf (fst (joinGame "third-socket" 9 JoinName (Some room1))) in
       colorNameOf game2 "third-socket" = Some White
       /\ idOf Black game2 = Some blackSocket
       /\ pendingMoves game2 = pendingMoves awaitingPromotion
       /\ roundBook game2 = roundBook awaitingPromotion
       /\ gameStarted game2 = gameStarted awaitingPromotion.
Proof.
  apply (seat_handover whiteSocket "third-socket" blackSocket 9 JoinName
           (mkRoom awaitingPromotion true) White); try reflexivity; discriminate.
Defined.

Lemma resolveIfBoth_started (now : Z) (game : Game) :
  gameStarted game = true -> gameStarted (fst (resolveIfBoth now game)) = true.
Proof.
  intros Hg. unfold resolveIfBoth, processMoves.
  destruct (white (pendingMoves game)) as [wm|]; [|exact Hg].
  destruct (black (pendingMoves game)) as [bm|]; [|exact Hg]. exact Hg.
Qed.

Lemma checkTimerStatus_started (game : Game) :
  gameStarted game = true -> gameStarted (checkTimerStatus game) = true.
Proof.
  intros Hg. unfold checkTimerStatus.
  repeat match goal with |- context [if ?c then _ else _] => destruct c end; exact Hg.
Qed.

Lemma submitMove_starts (socketId : string) (now : Z) (game : Game) (move : Move)
      (cn : ColorName) :
  colorNameOf game socketId = Some cn ->
  gameStarted (fst (submitMove socketId now game move)) = true.
Proof.
  intros Hcn. unfold submitMove. rewrite Hcn.
  repeat match goal with
         | |- context [if ?c then (withStarted game true, _) else _] =>
             destruct c; [reflexivity|]
         end.
  destruct (isPawnPromotion cn _ move); [reflexivity|].
  match goal with
  | |- context [resolveIfBoth now ?g2] =>
      pose proof (resolveIfBoth_started now g2
                    ltac:(apply checkTimerStatus_started; reflexivity)) as Hc;
      destruct (resolveIfBoth now g2) as [g3 out]; exact Hc
  end.
Qed.

Lemma handle_started (game : Game) (req : Request) :
  gameStarted game = true -> gameStarted (fst (handle game req)) = true.
Proof.
  intros H. destruct req as [socketId now move|socketId now square pt]; cbn [handle].
  - destruct (colorNameOf game socketId) as [cn|] eqn:Ecn.
    + now apply (submitMove_starts _ _ _ _ cn).
    + unfold submitMove. now rewrite Ecn.
  - unfold promotePawn.
    destruct (colorNameOf game socketId) as [cn|]; [|exact H].
    destruct (negb (isPromotionType pt)); [exact H|].
    destruct (ofColor cn (pendingMoves game)) as [pendingMove|]; [|exact H].
    repeat match goal with
           | |- context [if ?c then (game, rejected _) else _] =>
               destruct c; [exact H|]
           end.
    match goal with
    | |- context [resolveIfBoth now ?g2] =>
        pose proof (resolveIfBoth_started now g2
                      ltac:(apply checkTimerStatus_started; exact H)) as Hc;
        destruct (resolveIfBoth now g2) as [g3 out]; exact Hc
    end.
Qed.

Lemma serve_started (reqs : list Request) (game : Game) :
  gameStarted game = true -> gameStarted (serve game reqs) = true.
Proof.
  revert game. induction reqs as [|req rest IH]; intros game H; [exact H|].
  cbn [serve fold_left]. apply IH. now apply handle_started.
Qed.

(** X28.  The first submission of a player locks the settings, accepted
    or not: [submitMove] marks the game as started before it validates,
    nothing resets the mark, and [updateSettings] then refuses every
    change and leaves the room as it is. *)
Theorem settings_locked_by_first_submission
        (socketId : string) (now : Z) (game : Game) (move : Move) (cn : ColorName)
        (reqs : list Request) (interval : bool) (timeControl0 : option (option Z)) :
  colorNameOf game socketId = Some cn ->
  let later := serve (fst (submitMove socketId now game move)) reqs in
  updateSettings (Some (mkRoom later interval)) timeControl0
  = (Some (mkRoom later interval),
     [LToSocket "error" (LText "Cannot change settings after game has started")]).
Proof.
  intros Hcn later. unfold updateSettings. cbn [roomOf].
  assert (Hs : gameStarted later = true).
  { unfold later. apply serve_started. now apply (submitMove_starts _ _ _ _ cn). }
  now rewrite Hs.
Qed.

Lemma settings_locked_by_first_submission_witness :
  isRejection (snd (submitMove whiteSocket 1 (joinedGame 300 0) (plainMove "e2" "e5"))) = true
  /\ fst (updateSettings
            (Some (mkRoom (fst (submitMove whiteSocket 1 (joinedGame 300 0)
                                           (plainMove "e2" "e5"))) true))
            (Some (Some 600)))
     = Some (mkRoom (fst (submitMove whiteSocket 1 (joinedGame 300 0) (plainMove "e2" "e5")))
                    true).
Proof.
  split; [reflexivity|].
  exact (f_equal fst (settings_locked_by_first_submission whiteSocket 1 (joinedGame 300 0)
                        (plainMove "e2" "e5") White [] true (Some (Some 600)) eq_refl)).
Defined.

(** ** The client's attack probe against the server's *)

(** On an occupied square that is not the attacker's, the server's probe
    asks each piece for the geometry of its move. *)
Lemma server_attack_shape (probe : Board -> string -> ascii -> bool) (board : Board)
      (a : ascii) (p : string) (fromC toC : Coords) :
  onBoard fromC = true -> onBoard toC = true ->
  truthy (cellAt board toC) = true ->
  isChar (cellChar 0 (cellAt board toC)) a = false ->
  charAt 0 p = Some a ->
  isLegalMove_with probe board (coordsToSquare fromC) (coordsToSquare toC) (basicPiece p)
                   dummyGameState
  = attackShape board a (charAt 1 p) fromC toC.
Proof.
  intros Hof Hot Hd Hc Hp.
  unfold isLegalMove_with, attackShape.
  rewrite !coords_of_square by assumption.
  rewrite charAt0_basicPiece, charAt1_basicPiece, Hp.
  unfold isChar in Hc. rewrite Hd, Hc. cbn [andb].
  set (rankDiff := rank toC - rank fromC).
  set (fileDiff := file toC - file fromC).
  pose proof (slide_loop_spec board fromC toC Hof Hot) as Hloop.
  cbv zeta in Hloop. fold rankDiff fileDiff in Hloop.
  destruct (isChar (charAt 1 p) "P").
  { unfold pawnLegal. fold rankDiff fileDiff. rewrite Hd.
    cbn [negb andb isChar jsCharEq gs_enPassantTarget dummyGameState truthy].
    rewrite !andb_false_r, !andb_true_r.
    now destruct ((Z.abs fileDiff =? 1) && (rankDiff =? (if Ascii.eqb a W then -1 else 1))). }
  destruct (isChar (charAt 1 p) "R").
  { unfold rookLegal. fold rankDiff fileDiff. rewrite <- negb_orb.
    destruct ((rankDiff =? 0) || (fileDiff =? 0)) eqn:E; cbn [negb andb]; [|reflexivity].
    apply orb_true_iff in E. rewrite !Z.eqb_eq in E.
    destruct Hloop as [Hloop _]; [tauto|exact Hloop]. }
  destruct (isChar (charAt 1 p) "N"); [reflexivity|].
  destruct (isChar (charAt 1 p) "B").
  { unfold bishopLegal. fold rankDiff fileDiff.
    destruct (Z.abs rankDiff =? Z.abs fileDiff) eqn:E; cbn [negb andb]; [|reflexivity].
    apply Z.eqb_eq in E. destruct Hloop as [_ Hloop]; [tauto|exact (Hloop E)]. }
  destruct (isChar (charAt 1 p) "Q").
  { unfold queenLegal. fold rankDiff fileDiff.
    destruct (Z.abs rankDiff =? Z.abs fileDiff) eqn:E; cbn [negb andb orb].
    - apply Z.eqb_eq in E. destruct Hloop as [Hloop _]; [tauto|exact Hloop].
    - destruct ((rankDiff =? 0) || (fileDiff =? 0)) eqn:E'; cbn [negb andb]; [|reflexivity].
      apply orb_true_iff in E'. rewrite !Z.eqb_eq in E'.
      destruct Hloop as [Hloop _]; [tauto|exact Hloop]. }
  destruct (isChar (charAt 1 p) "K"); [|reflexivity].
  unfold kingLegal. fold rankDiff fileDiff. rewrite castlingLegal_dummy.
  destruct ((Z.abs rankDiff <=? 1) && (Z.abs fileDiff <=? 1)); [reflexivity|].
  now destruct ((rankDiff =? 0) && (Z.abs fileDiff =? 2)).
Qed.

Lemma server_probe_shape (board : Board) (square : string) (a : ascii) :
  validSquare square = true ->
  truthy (cellAt board (squareToCoords square)) = true ->
  isChar (cellChar 0 (cellAt board (squareToCoords square))) a = false ->
  isSquareUnderAttack board square a
  = existsb (attackedFrom board a (squareToCoords square)) allCoords.
Proof.
  intros Hv Hd Hc. unfold isSquareUnderAttack. apply existsb_ext_in. intros c Hin.
  unfold attackedFrom. cbn zeta.
  destruct (cellAt board c) as [p|]; [|reflexivity]. cbn [truthy cellChar].
  destruct (truthyStr p); [|reflexivity].
  destruct (isChar (charAt 0 p) a) eqn:E; [|reflexivity]. cbn [andb].
  rewrite <- (square_of_coords square Hv) at 1.
  apply server_attack_shape; try assumption.
  - now apply allCoords_onBoard.
  - now apply validSquare_onBoard.
  - now apply jsCharEq_true in E.
Qed.

Lemma pathFree_iff (board : Board) (fromC toC : Coords) :
  pathFree board fromC toC = true <->
  forall j : nat,
    (j < Z.to_nat (Z.max (Z.abs (rank toC - rank fromC)) (Z.abs (file toC - file fromC))) - 1)%nat ->
    truthy (getCell board (rank fromC + (Z.of_nat j + 1) * Z.sgn (rank toC - rank fromC))
                          (file fromC + (Z.of_nat j + 1) * Z.sgn (file toC - file fromC)))
    = false.
Proof.
  unfold pathFree, squaresBetween. rewrite forallb_forall. split.
  - intros H j Hj. apply negb_true_iff.
    apply (H (mkCoords (rank fromC + (Z.of_nat j + 1) * Z.sgn (rank toC - rank fromC))
                       (file fromC + (Z.of_nat j + 1) * Z.sgn (file toC - file fromC)))).
    apply in_map_iff. exists j. split; [reflexivity|]. apply in_seq. lia.
  - intros H c Hin. apply in_map_iff in Hin. destruct Hin as [j [<- Hj]].
    apply in_seq in Hj. apply negb_true_iff. apply H. lia.
Qed.

Lemma rayAttack_spec (board : Board) (a : ascii) (types : list ascii) (dr df : Z)
      (fuel : nat) (r f : Z) :
  Client.rayAttack board a types dr df fuel r f = true <->
  exists k : nat,
    (k < fuel)%nat
    /\ (forall j : nat, (j < k)%nat ->
                        Client.inBounds (r + Z.of_nat j * dr) (f + Z.of_nat j * df) = true
                        /\ truthy (getCell board (r + Z.of_nat j * dr) (f + Z.of_nat j * df))
                           = false)
    /\ Client.inBounds (r + Z.of_nat k * dr) (f + Z.of_nat k * df) = true
    /\ Client.attackerOf a types (getCell board (r + Z.of_nat k * dr) (f + Z.of_nat k * df))
       = true.
Proof.
  revert r f. induction fuel as [|n IH]; intros r f; cbn [Client.rayAttack].
  - split; [discriminate|]. intros [k [Hk _]]. lia.
  - split.
    + destruct (Client.inBounds r f) eqn:Eb; [|discriminate].
      destruct (truthy (getCell board r f)) eqn:Et.
      * intros H. exists 0%nat. cbn [Z.of_nat]. rewrite !Z.mul_0_l, !Z.add_0_r.
        split; [lia|]. split; [intros j Hj; lia|]. split; [exact Eb|].
        unfold Client.attackerOf. now rewrite Et.
      * intros H. apply IH in H. destruct H as [k (Hk & Hfree & Hin & Hat)].
        exists (S k). split; [lia|].
        assert (Hshift : forall j : nat, r + dr + Z.of_nat j * dr = r + Z.of_nat (S j) * dr
                                         /\ f + df + Z.of_nat j * df = f + Z.of_nat (S j) * df).
        { intros j. rewrite Nat2Z.inj_succ. split; ring. }
        split; [|split].
        -- intros [|j] Hj.
           ++ cbn [Z.of_nat]. rewrite !Z.mul_0_l, !Z.add_0_r. auto.
           ++ destruct (Hshift j) as [<- <-]. apply Hfree. lia.
        -- destruct (Hshift k) as [<- <-]. exact Hin.
        -- destruct (Hshift k) as [<- <-]. exact Hat.
    + intros [k (Hk & Hfree & Hin & Hat)].
      destruct k as [|k].
      * cbn [Z.of_nat] in Hin, Hat. rewrite !Z.mul_0_l, !Z.add_0_r in Hin, Hat.
        rewrite Hin. unfold Client.attackerOf in Hat.
        destruct (truthy (getCell board r f)); [|discriminate Hat].
        now rewrite <- andb_assoc in Hat.
      * destruct (Hfree 0%nat ltac:(lia)) as [Hb0 Ht0].
        cbn [Z.of_nat] in Hb0, Ht0. rewrite !Z.mul_0_l, !Z.add_0_r in Hb0, Ht0.
        rewrite Hb0, Ht0. apply IH. exists k.
        assert (Hshift : forall j : nat, r + dr + Z.of_nat j * dr = r + Z.of_nat (S j) * dr
                                         /\ f + df + Z.of_nat j * df = f + Z.of_nat (S j) * df).
        { intros j. rewrite Nat2Z.inj_succ. split; ring. }
        split; [lia|]. split; [|split].
        -- intros j Hj. destruct (Hshift j) as [-> ->]. apply Hfree. lia.
        -- destruct (Hshift k) as [-> ->]. exact Hin.
        -- destruct (Hshift k) as [-> ->]. exact Hat.
Qed.

Ltac settle_sgn :=
  repeat match goal with
         | |- context [Z.sgn ?x] =>
             first [replace (Z.sgn x) with 1 by lia
                   |replace (Z.sgn x) with (-1) by lia
                   |replace (Z.sgn x) with 0 by lia]
         end.

(** A ray of the client that reports an attacker has walked over empty
    squares to a piece that the server's geometry accepts. *)
Lemma ray_found (board : Board) (a : ascii) (types : list ascii) (r0 f0 dr df : Z) :
  In (dr, df) (Client.rookDirs ++ Client.bishopDirs) ->
  Client.rayAttack board a types dr df 8 (r0 + dr) (f0 + df) = true ->
  exists c,
    onBoard c = true /\ Client.attackerOf a types (cellAt board c) = true
    /\ pathFree board c (mkCoords r0 f0) = true
    /\ exists n, 1 <= n /\ rank c = r0 + n * dr /\ file c = f0 + n * df.
Proof.
  intros Hdir H. apply rayAttack_spec in H. destruct H as [k (Hk & Hfree & Hin & Hat)].
  exists (mkCoords (r0 + dr + Z.of_nat k * dr) (f0 + df + Z.of_nat k * df)).
  split; [exact Hin|]. split; [exact Hat|]. split.
  - apply pathFree_iff. cbn [rank file]. intros j Hj.
    cbn [In app Client.rookDirs Client.bishopDirs] in Hdir.
    repeat (destruct Hdir as [E|Hdir];
            [injection E as <- <-;
             destruct (Hfree (k - 1 - j)%nat ltac:(lia)) as [_ Hc];
             rewrite <- Hc; settle_sgn; f_equal; f_equal; lia|]).
    contradiction Hdir.
  - exists (Z.of_nat k + 1). cbn [rank file]. split; [lia|]. split; ring.
Qed.

(** Conversely, the ray towards a piece behind a free path reaches it. *)
Lemma ray_finds (board : Board) (a : ascii) (types : list ascii) (c : Coords) (r0 f0 : Z) :
  onBoard c = true -> onBoard (mkCoords r0 f0) = true ->
  c <> mkCoords r0 f0 ->
  r0 - rank c = 0 \/ f0 - file c = 0 \/ Z.abs (r0 - rank c) = Z.abs (f0 - file c) ->
  pathFree board c (mkCoords r0 f0) = true ->
  Client.attackerOf a types (cellAt board c) = true ->
  let dr := Z.sgn (rank c - r0) in
  let df := Z.sgn (file c - f0) in
  Client.rayAttack board a types dr df 8 (r0 + dr) (f0 + df) = true.
Proof.
  intros Hc Hs Hne Hgeo Hfree Hat dr df.
  destruct c as [rc fc]. cbn [rank file] in *.
  assert (Hne' : rc <> r0 \/ fc <> f0).
  { destruct (Z.eq_dec rc r0) as [->|]; [|now left].
    destruct (Z.eq_dec fc f0) as [->|]; [now contradiction Hne|now right]. }
  unfold onBoard in Hc, Hs. cbn [rank file] in Hc, Hs.
  repeat rewrite andb_true_iff in Hc, Hs.
  destruct Hc as [[[Hc1 Hc2] Hc3] Hc4], Hs as [[[Hs1 Hs2] Hs3] Hs4].
  apply Z.leb_le in Hc1, Hc3, Hs1, Hs3. apply Z.ltb_lt in Hc2, Hc4, Hs2, Hs4.
  pose proof (proj1 (pathFree_iff board _ _) Hfree) as Hpath. cbn [rank file] in Hpath.
  set (n := Z.max (Z.abs (r0 - rc)) (Z.abs (f0 - fc))) in *.
  apply rayAttack_spec. exists (Z.to_nat n - 1)%nat.
  assert (Hn : 1 <= n <= 7) by (unfold n; lia).
  assert (Hend : r0 + dr + Z.of_nat (Z.to_nat n - 1) * dr = rc
                 /\ f0 + df + Z.of_nat (Z.to_nat n - 1) * df = fc).
  { unfold dr, df, n.
    destruct (Z.sgn_spec (rc - r0)) as [[H1 ->]|[[H1 ->]|[H1 ->]]];
      destruct (Z.sgn_spec (fc - f0)) as [[H2 ->]|[[H2 ->]|[H2 ->]]]; lia. }
  split; [lia|]. split; [|split].
  - intros j Hj.
    assert (Hcell : r0 + dr + Z.of_nat j * dr
                    = rc + (Z.of_nat (Z.to_nat n - 2 - j) + 1) * Z.sgn (r0 - rc)
                    /\ f0 + df + Z.of_nat j * df
                       = fc + (Z.of_nat (Z.to_nat n - 2 - j) + 1) * Z.sgn (f0 - fc)).
    { unfold dr, df, n in *.
      destruct (Z.sgn_spec (rc - r0)) as [[H1 E1]|[[H1 E1]|[H1 E1]]];
        destruct (Z.sgn_spec (fc - f0)) as [[H2 E2]|[[H2 E2]|[H2 E2]]];
        rewrite E1, E2; settle_sgn; lia. }
    destruct Hcell as [-> ->]. split.
    + unfold Client.inBounds. unfold dr, df, n in *.
      destruct (Z.sgn_spec (r0 - rc)) as [[H1 E1]|[[H1 E1]|[H1 E1]]];
        destruct (Z.sgn_spec (f0 - fc)) as [[H2 E2]|[[H2 E2]|[H2 E2]]];
        rewrite E1, E2;
        repeat (apply andb_true_iff; split);
        try apply Z.leb_le; try apply Z.ltb_lt; lia.
    + apply Hpath. lia.
  - destruct Hend as [-> ->]. unfold Client.inBounds.
    repeat (apply andb_true_iff; split); try apply Z.leb_le; try apply Z.ltb_lt; lia.
  - destruct Hend as [-> ->]. exact Hat.
Qed.

Lemma attackerOf_piece (a : ascii) (types : list ascii) (cell : Cell) :
  Client.attackerOf a types cell = true <->
  exists p, cell = Some p /\ truthyStr p = true /\ isChar (charAt 0 p) a = true
            /\ existsb (isChar (charAt 1 p)) types = true.
Proof.
  unfold Client.attackerOf. split.
  - destruct cell as [p|]; [|discriminate]. cbn [truthy cellChar]. intros H.
    apply andb_true_iff in H. destruct H as [H H3].
    apply andb_true_iff in H. destruct H as [H1 H2]. exists p. auto.
  - intros (p & -> & H1 & H2 & H3). cbn [truthy cellChar]. now rewrite H1, H2, H3.
Qed.

Lemma onBoard_bounds (r f : Z) :
  onBoard (mkCoords r f) = true <-> 0 <= r < 8 /\ 0 <= f < 8.
Proof.
  unfold onBoard. cbn [rank file]. rewrite !andb_true_iff, !Z.leb_le, !Z.ltb_lt. lia.
Qed.

Lemma knightLegal_iff (fromC toC : Coords) :
  knightLegal fromC toC = true <->
  (Z.abs (rank toC - rank fromC) = 2 /\ Z.abs (file toC - file fromC) = 1)
  \/ (Z.abs (rank toC - rank fromC) = 1 /\ Z.abs (file toC - file fromC) = 2).
Proof.
  unfold knightLegal. rewrite orb_true_iff, !andb_true_iff, !Z.eqb_eq. reflexivity.
Qed.

(** What the client's probe reports is an attack in the server's
    geometry. *)
Lemma client_probe_found (board : Board) (square : string) (a : ascii) :
  validSquare square = true ->
  Client.isSquareUnderAttack board square a = true ->
  exists c, onBoard c = true /\ attackedFrom board a (squareToCoords square) c = true.
Proof.
  intros Hv. pose proof (validSquare_onBoard square Hv) as Hon.
  unfold Client.isSquareUnderAttack.
  destruct (squareToCoords square) as [r0 f0]. cbn [rank file].
  apply onBoard_bounds in Hon.
  rewrite !orb_true_iff. intros [[[[H|H]|H]|H]|H].
  - (* pawns *)
    apply andb_true_iff in H. destruct H as [Hr H].
    apply andb_true_iff in Hr. destruct Hr as [Hr1 Hr2].
    apply Z.leb_le in Hr1. apply Z.ltb_lt in Hr2.
    apply orb_true_iff in H.
    destruct H as [H|H]; apply andb_true_iff in H; destruct H as [Hf H];
      apply attackerOf_piece in H; destruct H as (p & Hp & H1 & H2 & H3);
      cbn [existsb] in H3; rewrite orb_false_r in H3; apply jsCharEq_true in H3;
      [apply Z.leb_le in Hf|apply Z.ltb_lt in Hf].
    + exists (mkCoords (r0 - (if Ascii.eqb a W then -1 else 1)) (f0 - 1)).
      split; [apply onBoard_bounds; lia|].
      unfold attackedFrom, cellAt. cbn [rank file]. rewrite Hp, H1, H2, H3.
      unfold attackShape. cbn [isChar jsCharEq Ascii.eqb Bool.eqb andb rank file].
      apply andb_true_iff. split; [apply Z.eqb_eq|apply Z.eqb_eq]; lia.
    + exists (mkCoords (r0 - (if Ascii.eqb a W then -1 else 1)) (f0 + 1)).
      split; [apply onBoard_bounds; lia|].
      unfold attackedFrom, cellAt. cbn [rank file]. rewrite Hp, H1, H2, H3.
      unfold attackShape. cbn [isChar jsCharEq Ascii.eqb Bool.eqb andb rank file].
      apply andb_true_iff. split; [apply Z.eqb_eq|apply Z.eqb_eq]; lia.
  - (* knights *)
    unfold Client.stepAttack in H. apply existsb_exists in H.
    destruct H as [[dr df] [Hin H]]. cbn [fst snd rank file] in H.
    apply andb_true_iff in H. destruct H as [Hb H].
    apply attackerOf_piece in H. destruct H as (p & Hp & H1 & H2 & H3).
    cbn [existsb] in H3. rewrite orb_false_r in H3. apply jsCharEq_true in H3.
    exists (mkCoords (r0 + dr) (f0 + df)). split; [exact Hb|].
    unfold attackedFrom, cellAt. cbn [rank file]. rewrite Hp, H1, H2, H3.
    unfold attackShape. cbn [isChar jsCharEq Ascii.eqb Bool.eqb andb].
    apply knightLegal_iff. cbn [rank file].
    cbn [In Client.knightMoves] in Hin.
    repeat (destruct Hin as [E|Hin]; [injection E as <- <-; lia|]).
    contradiction Hin.
  - (* kings *)
    unfold Client.stepAttack in H. apply existsb_exists in H.
    destruct H as [[dr df] [Hin H]]. cbn [fst snd rank file] in H.
    apply andb_true_iff in H. destruct H as [Hb H].
    apply attackerOf_piece in H. destruct H as (p & Hp & H1 & H2 & H3).
    cbn [existsb] in H3. rewrite orb_false_r in H3. apply jsCharEq_true in H3.
    exists (mkCoords (r0 + dr) (f0 + df)). split; [exact Hb|].
    unfold attackedFrom, cellAt. cbn [rank file]. rewrite Hp, H1, H2, H3.
    unfold attackShape. cbn [isChar jsCharEq Ascii.eqb Bool.eqb andb rank file].
    cbn [In Client.kingMoves] in Hin.
    repeat (destruct Hin as [E|Hin];
            [injection E as <- <-;
             apply andb_true_iff; split; apply Z.leb_le; lia|]).
    contradiction Hin.
  - (* rook and queen *)
    apply existsb_exists in H. destruct H as [[dr df] [Hin H]]. cbn [fst snd] in H.
    apply ray_found in H; [|apply in_or_app; now left].
    destruct H as (c & Hc & Hat & Hfree & n & Hn & Hr & Hf).
    exists c. split; [exact Hc|].
    apply attackerOf_piece in Hat. destruct Hat as (p & Hp & H1 & H2 & H3).
    unfold attackedFrom. rewrite Hp, H1, H2. cbn [andb].
    unfold attackShape. cbn [rank file]. rewrite Hfree, Hr, Hf.
    assert (Hstraight : (r0 - (r0 + n * dr) =? 0) || (f0 - (f0 + n * df) =? 0) = true).
    { cbn [In Client.rookDirs] in Hin.
      repeat (destruct Hin as [E|Hin];
              [injection E as <- <-; apply orb_true_iff;
               first [left; apply Z.eqb_eq; lia|right; apply Z.eqb_eq; lia]|]).
      contradiction Hin. }
    rewrite Hstraight, orb_true_r.
    cbn [existsb] in H3. rewrite orb_false_r in H3. apply orb_true_iff in H3.
    destruct H3 as [H3|H3]; apply jsCharEq_true in H3; rewrite H3; reflexivity.
  - (* bishop and queen *)
    apply existsb_exists in H. destruct H as [[dr df] [Hin H]]. cbn [fst snd] in H.
    apply ray_found in H; [|apply in_or_app; now right].
    destruct H as (c & Hc & Hat & Hfree & n & Hn & Hr & Hf).
    exists c. split; [exact Hc|].
    apply attackerOf_piece in Hat. destruct Hat as (p & Hp & H1 & H2 & H3).
    unfold attackedFrom. rewrite Hp, H1, H2. cbn [andb].
    unfold attackShape. cbn [rank file]. rewrite Hfree, Hr, Hf.
    assert (Hdiag : (Z.abs (r0 - (r0 + n * dr)) =? Z.abs (f0 - (f0 + n * df))) = true).
    { cbn [In Client.bishopDirs] in Hin.
      repeat (destruct Hin as [E|Hin]; [injection E as <- <-; apply Z.eqb_eq; lia|]).
      contradiction Hin. }
    rewrite Hdiag.
    cbn [existsb] in H3. rewrite orb_false_r in H3. apply orb_true_iff in H3.
    destruct H3 as [H3|H3]; apply jsCharEq_true in H3; rewrite H3; reflexivity.
Qed.

Lemma straight_dir (rc fc r0 f0 : Z) :
  rc <> r0 \/ fc <> f0 -> r0 - rc = 0 \/ f0 - fc = 0 ->
  In (Z.sgn (rc - r0), Z.sgn (fc - f0)) Client.rookDirs.
Proof.
  intros Hne Hgeo.
  destruct (Z.sgn_spec (rc - r0)) as [[H1 ->]|[[H1 ->]|[H1 ->]]];
    destruct (Z.sgn_spec (fc - f0)) as [[H2 ->]|[[H2 ->]|[H2 ->]]];
    try lia; cbn; tauto.
Qed.

Lemma diagonal_dir (rc fc r0 f0 : Z) :
  rc <> r0 \/ fc <> f0 -> Z.abs (r0 - rc) = Z.abs (f0 - fc) ->
  In (Z.sgn (rc - r0), Z.sgn (fc - f0)) Client.bishopDirs.
Proof.
  intros Hne Hgeo.
  destruct (Z.sgn_spec (rc - r0)) as [[H1 ->]|[[H1 ->]|[H1 ->]]];
    destruct (Z.sgn_spec (fc - f0)) as [[H2 ->]|[[H2 ->]|[H2 ->]]];
    try lia; cbn; tauto.
Qed.

(** An attack in the server's geometry on a square that is not the
    attacker's is reported by the client's probe. *)
Lemma client_probe_finds (board : Board) (square : string) (a : ascii) (c : Coords) :
  validSquare square = true ->
  isChar (cellChar 0 (cellAt board (squareToCoords square))) a = false ->
  onBoard c = true ->
  attackedFrom board a (squareToCoords square) c = true ->
  Client.isSquareUnderAttack board square a = true.
Proof.
  intros Hv Hown Hc Hatt. pose proof (validSquare_onBoard square Hv) as Hon.
  unfold Client.isSquareUnderAttack.
  destruct (squareToCoords square) as [r0 f0] eqn:Esq. cbn [rank file].
  unfold attackedFrom in Hatt.
  destruct (cellAt board c) as [p|] eqn:Ep; [|discriminate Hatt].
  apply andb_true_iff in Hatt. destruct Hatt as [Hatt Hshape].
  apply andb_true_iff in Hatt. destruct Hatt as [H1 H2].
  assert (Hne : c <> mkCoords r0 f0).
  { intros ->. rewrite Ep in Hown. cbn [cellChar] in Hown. congruence. }
  assert (Hpiece : forall types, existsb (isChar (charAt 1 p)) types = true ->
                                 Client.attackerOf a types (cellAt board c) = true).
  { intros types Ht. apply attackerOf_piece. exists p. auto. }
  destruct c as [rc fc].
  assert (Hne' : rc <> r0 \/ fc <> f0).
  { destruct (Z.eq_dec rc r0) as [->|]; [|now left].
    destruct (Z.eq_dec fc f0) as [->|]; [now contradiction Hne|now right]. }
  pose proof (proj1 (onBoard_bounds rc fc) Hc) as Hcb.
  pose proof (proj1 (onBoard_bounds r0 f0) Hon) as Hsb.
  unfold attackShape in Hshape. cbn [rank file] in Hshape.
  unfold cellAt in Hpiece. cbn [rank file] in Hpiece.
  destruct (isChar (charAt 1 p) "P") eqn:EP.
  { apply andb_true_iff in Hshape. destruct Hshape as [Hf Hr].
    apply Z.eqb_eq in Hf, Hr.
    apply orb_true_iff; left. apply orb_true_iff; left.
    apply orb_true_iff; left. apply orb_true_iff; left.
    replace (r0 - (if Ascii.eqb a W then -1 else 1)) with rc by lia.
    assert (Hp : Client.attackerOf a ["P"%char] (getCell board rc fc) = true).
    { apply Hpiece. cbn [existsb]. now rewrite EP. }
    apply andb_true_iff. split.
    - apply andb_true_iff. split; [apply Z.leb_le|apply Z.ltb_lt]; lia.
    - apply orb_true_iff.
      assert (Hside : fc = f0 - 1 \/ fc = f0 + 1) by lia.
      destruct Hside as [Hside|Hside]; [left|right]; rewrite <- Hside, Hp, andb_true_r;
        [apply Z.leb_le|apply Z.ltb_lt]; lia. }
  destruct (isChar (charAt 1 p) "R") eqn:ER.
  { apply andb_true_iff in Hshape. destruct Hshape as [Hgeo Hfree].
    apply orb_true_iff in Hgeo. rewrite !Z.eqb_eq in Hgeo.
    apply orb_true_iff; left. apply orb_true_iff; right.
    apply existsb_exists. exists (Z.sgn (rc - r0), Z.sgn (fc - f0)).
    split; [now apply straight_dir|]. cbn [fst snd].
    apply (ray_finds board a _ (mkCoords rc fc) r0 f0); try assumption.
    - cbn [rank file]. tauto.
    - apply Hpiece. cbn [existsb]. now rewrite ER. }
  destruct (isChar (charAt 1 p) "N") eqn:EN.
  { apply knightLegal_iff in Hshape. cbn [rank file] in Hshape.
    apply orb_true_iff; left. apply orb_true_iff; left.
    apply orb_true_iff; left. apply orb_true_iff; right.
    unfold Client.stepAttack. apply existsb_exists. exists (rc - r0, fc - f0).
    cbn [fst snd rank file].
    replace (r0 + (rc - r0)) with rc by lia. replace (f0 + (fc - f0)) with fc by lia.
    split.
    - assert (Hoff : (rc - r0 = -2 \/ rc - r0 = -1 \/ rc - r0 = 1 \/ rc - r0 = 2)
                     /\ (fc - f0 = -2 \/ fc - f0 = -1 \/ fc - f0 = 1 \/ fc - f0 = 2)) by lia.
      destruct Hoff as [[E1|[E1|[E1|E1]]] [E2|[E2|[E2|E2]]]]; rewrite E1, E2 in *;
        try lia; cbn; tauto.
    - apply andb_true_iff. split; [exact Hc|].
      apply Hpiece. cbn [existsb]. now rewrite EN. }
  destruct (isChar (charAt 1 p) "B") eqn:EB.
  { apply andb_true_iff in Hshape. destruct Hshape as [Hgeo Hfree].
    apply Z.eqb_eq in Hgeo.
    apply orb_true_iff; right.
    apply existsb_exists. exists (Z.sgn (rc - r0), Z.sgn (fc - f0)).
    split; [now apply diagonal_dir|]. cbn [fst snd].
    apply (ray_finds board a _ (mkCoords rc fc) r0 f0); try assumption.
    - cbn [rank file]. tauto.
    - apply Hpiece. cbn [existsb]. now rewrite EB. }
  destruct (isChar (charAt 1 p) "Q") eqn:EQ.
  { apply andb_true_iff in Hshape. destruct Hshape as [Hgeo Hfree].
    apply orb_true_iff in Hgeo. destruct Hgeo as [Hgeo|Hgeo].
    - apply Z.eqb_eq in Hgeo.
      apply orb_true_iff; right.
      apply existsb_exists. exists (Z.sgn (rc - r0), Z.sgn (fc - f0)).
      split; [now apply diagonal_dir|]. cbn [fst snd].
      apply (ray_finds board a _ (mkCoords rc fc) r0 f0); try assumption.
      + cbn [rank file]. tauto.
      + apply Hpiece. cbn [existsb]. rewrite EQ. now rewrite orb_true_r.
    - apply orb_true_iff in Hgeo. rewrite !Z.eqb_eq in Hgeo.
      apply orb_true_iff; left. apply orb_true_iff; right.
      apply existsb_exists. exists (Z.sgn (rc - r0), Z.sgn (fc - f0)).
      split; [now apply straight_dir|]. cbn [fst snd].
      apply (ray_finds board a _ (mkCoords rc fc) r0 f0); try assumption.
      + cbn [rank file]. tauto.
      + apply Hpiece. cbn [existsb]. rewrite EQ. now rewrite orb_true_r. }
  destruct (isChar (charAt 1 p) "K") eqn:EK; [|discriminate Hshape].
  apply andb_true_iff in Hshape. destruct Hshape as [Hr Hf].
  apply Z.leb_le in Hr, Hf.
  apply orb_true_iff; left. apply orb_true_iff; left. apply orb_true_iff; right.
  unfold Client.stepAttack. apply existsb_exists. exists (rc - r0, fc - f0).
  cbn [fst snd rank file].
  replace (r0 + (rc - r0)) with rc by lia. replace (f0 + (fc - f0)) with fc by lia.
  split.
  - assert (Hoff : (rc - r0 = -1 \/ rc - r0 = 0 \/ rc - r0 = 1)
                   /\ (fc - f0 = -1 \/ fc - f0 = 0 \/ fc - f0 = 1)) by lia.
    destruct Hoff as [[E1|[E1|E1]] [E2|[E2|E2]]]; rewrite E1, E2 in *;
      try lia; cbn; tauto.
  - apply andb_true_iff. split; [exact Hc|].
    apply Hpiece. cbn [existsb]. now rewrite EK.
Qed.

(** The two probes on an occupied square that is not the attacker's. *)
Lemma probes_agree_on_occupied_squares
        (board : Board) (square : string) (attackerColor : ascii) :
  validSquare square = true ->
  truthy (cellAt board (squareToCoords square)) = true ->
  isChar (cellChar 0 (cellAt board (squareToCoords square))) attackerColor = false ->
  Client.isSquareUnderAttack board square attackerColor
  = isSquareUnderAttack board square attackerColor.
Proof.
  intros Hv Hd Hc. rewrite (server_probe_shape board square attackerColor Hv Hd Hc).
  apply eq_iff_eq_true. rewrite existsb_exists. split.
  - intros H. destruct (client_probe_found board square attackerColor Hv H) as [c [Hon Hatt]].
    exists c. split; [now apply onBoard_cases|exact Hatt].
  - intros [c [Hin Hatt]].
    apply (client_probe_finds board square attackerColor c Hv Hc); [|exact Hatt].
    now apply allCoords_onBoard.
Qed.

(** X29.  The client's attack probe agrees with the server's on every
    occupied square that is not the attacker's own, in particular on the
    square of a king: the rays, knight jumps, king steps and pawn
    diagonals that the client walks from the target find an attacker
    exactly when some piece of the attacker has a move to the target that
    the server's [isLegalMove] accepts. *)
Theorem client_probe_agrees_on_occupied_squares
        (board : Board) (square : string) (attackerColor : ascii) :
  validSquare square = true ->
  truthy (cellAt board (squareToCoords square)) = true ->
  isChar (cellChar 0 (cellAt board (squareToCoords square))) attackerColor = false ->
  Client.isSquareUnderAttack board square attackerColor
  = isSquareUnderAttack board square attackerColor.
Proof. exact (probes_agree_on_occupied_squares board square attackerColor). Qed.

Lemma client_probe_agrees_on_occupied_squares_witness :
  Client.isSquareUnderAttack (positionToBoard (position pinnedDownRound)) "e1" B = true.
Proof.
  rewrite (client_probe_agrees_on_occupied_squares
             (positionToBoard (position pinnedDownRound)) "e1" B); reflexivity.
Defined.

Lemma opponent_differs (a : ascii) : isChar (Some a) (opponentOf (Some a)) = false.
Proof.
  unfold opponentOf, isChar, jsCharEq.
  destruct (Ascii.eqb a W) eqn:E.
  - apply Ascii.eqb_eq in E. subst a. reflexivity.
  - exact E.
Qed.

(** X30.  The client's pre-check computes the server's test.  On the same
    position, [wouldKingBeInCheck] for a move of a piece answers what
    [isInCheck] answers on the server's board after that move; for a move
    of the king this holds when the moved king is the one [findKing]
    finds. *)
Theorem client_check_is_server_check (pos : Position) (source target piece : string) :
  let tempBoard := tempMove (positionToBoard pos) (squareToCoords source)
                            (squareToCoords target) (Some piece) in
  pieceAt pos source = Some piece -> truthyStr piece = true ->
  (isChar (charAt 1 piece) "K" = true -> findKing tempBoard (charAt 0 piece) = Some target) ->
  Client.wouldKingBeInCheck pos source target = isInCheck tempBoard (charAt 0 piece).
Proof.
  intros tempBoard Hp Ht Hking.
  unfold Client.wouldKingBeInCheck. rewrite Hp, Ht. cbn [negb]. fold tempBoard.
  unfold isInCheck, isInCheck_with.
  assert (Hcolor : exists a, charAt 0 piece = Some a).
  { destruct piece as [|a rest]; [discriminate Ht|]. now exists a. }
  destruct Hcolor as [a Ha]. rewrite Ha in *.
  assert (Hprobe : forall sq, findKing tempBoard (Some a) = Some sq ->
                              Client.isSquareUnderAttack tempBoard sq (opponentOf (Some a))
                              = isSquareUnderAttack tempBoard sq (opponentOf (Some a))).
  { intros sq Hsq. destruct (findKing_cases tempBoard (Some a)) as [Hfound _].
    destruct (Hfound sq Hsq) as [Hv Hk]. unfold isKingOf in Hk.
    apply andb_true_iff in Hk. destruct Hk as [Hk _].
    apply andb_true_iff in Hk. destruct Hk as [Hk1 Hk2].
    apply probes_agree_on_occupied_squares; try assumption.
    apply jsCharEq_true in Hk2. rewrite Hk2. apply opponent_differs. }
  destruct (isChar (charAt 1 piece) "K").
  - rewrite (Hking eq_refl). rewrite (Hprobe target (Hking eq_refl)).
    now destruct (truthyStr target).
  - destruct (findKing tempBoard (Some a)) as [sq|] eqn:E; [|reflexivity].
    rewrite (Hprobe sq eq_refl). now destruct (truthyStr sq).
Qed.

Lemma client_check_is_server_check_witness :
  Client.wouldKingBeInCheck (position shieldGame) "e2" "a2" = true
  /\ Client.wouldKingBeInCheck (position shieldGame) "e1" "d1" = false.
Proof.
  split.
  - rewrite (client_check_is_server_check (position shieldGame) "e2" "a2" "wR1");
      try reflexivity. discriminate.
  - rewrite (client_check_is_server_check (position shieldGame) "e1" "d1" "wK");
      reflexivity.
Defined.
